(** * Presence, moderation and message lifecycle of the chat server

    A shallow embedding of [server.js]: the in-memory registries
    ([userSockets], [adminUsers], [mutedUsers], [bannedUsers],
    [userStatusMap], [userIpMap], [messages]), the command dispatcher
    [processCommand], and the socket handlers [signup], [accountLogin],
    [tokenLogin], [accountLogout], [disconnect] and [sendMessage].

    Conventions of the embedding.
    - A JavaScript string is the list of its UTF-16 code units, so that
      [length] and [includes] mean what they mean in the source.
    - [Map] and [Set] objects that the source iterates over are
      insertion-ordered association lists; those that are only probed by
      key are [gmap]/[gset].
    - A handler is a function from the state before to the state after
      together with the ordered list of what it did to the outside world:
      packets emitted, sockets closed, store ([db]) calls, the client
      callback.
    - Everything a handler reads from outside (clock, identifiers, random
      numbers, answers of the store, the transport's socket table) comes
      from an [Env] record.
    - Clock readings and durations are mathematical integers; the source
      uses IEEE doubles, which agree with them on the magnitudes a clock in
      milliseconds produces. The fortune draw, whose outcome depends on
      how a product is rounded, is computed in doubles: a double is the
      rational it denotes and every operation rounds to nearest, ties to
      even.
    - [users] is a plain object: a lookup that finds no own property goes
      on to [Object.prototype]. *)

From Stdlib Require Import ZArith NArith QArith Qround Qpower Qabs Lqa.
From Stdlib Require Import List Lia Bool.
From Stdlib Require Import Strings.String Strings.Ascii.
From stdpp Require Import gmap list.
Import ListNotations.

Local Open Scope Z_scope.

(** ** JavaScript strings *)

Abbreviation JsString := (list N).

(** An ASCII literal as code units. *)
Definition u16 (s : string) : JsString :=
  map N_of_ascii (list_ascii_of_string s).

(** The marker [管理者] (U+7BA1 U+7406 U+8005). *)
Definition kanrisha : JsString := [31649; 29702; 32773]%N.

(** [バン], [解除], [リスト]: the pieces of the Japanese command names. *)
Definition kana_ban : JsString := [12496; 12531]%N.
Definition kanji_kaijo : JsString := [35299; 38500]%N.
Definition kana_risuto : JsString := [12522; 12473; 12488]%N.

(** WhiteSpace and LineTerminator code units, the set [trim] and
    [parseInt] strip. *)
Definition isWhiteSpace (c : N) : bool :=
  ((9 <=? c) && (c <=? 13) || (c =? 32) || (c =? 160) || (c =? 5760)
   || (8192 <=? c) && (c <=? 8202) || (c =? 8232) || (c =? 8233)
   || (c =? 8239) || (c =? 8287) || (c =? 12288) || (c =? 65279))%N.

Fixpoint trimStart (s : JsString) : JsString :=
  match s with
  | c :: r => if isWhiteSpace c then trimStart r else s
  | [] => []
  end.

Definition trimEnd (s : JsString) : JsString := rev (trimStart (rev s)).

Definition trim (s : JsString) : JsString := trimEnd (trimStart s).

(** [s.split(sep)] for a one-unit separator; the result is never empty. *)
Fixpoint split (sep : N) (s : JsString) : list JsString :=
  match s with
  | [] => [[]]
  | c :: r =>
      if (c =? sep)%N then [] :: split sep r
      else match split sep r with
           | h :: t => (c :: h) :: t
           | [] => [[c]]
           end
  end.

(** [parts.join(' ')]. *)
Fixpoint join (sep : N) (parts : list JsString) : JsString :=
  match parts with
  | [] => []
  | [p] => p
  | p :: rest => p ++ sep :: join sep rest
  end.

(** [toLowerCase] by code unit: exact on Basic Latin, on the Kelvin sign
    (U+212A, which lowercases to [k]) and on dotted capital I (U+0130,
    which lowercases to [i] followed by U+0307). Every other unit is left
    alone: none of them lowercases to a unit that occurs in a command name,
    and the source lowercases the command word only. *)
Definition lowerUnit (c : N) : JsString :=
  (if (65 <=? c) && (c <=? 90) then [c + 32]
   else if c =? 8490 then [107]
   else if c =? 304 then [105; 775]
   else [c])%N.

Definition toLowerCase (s : JsString) : JsString := flat_map lowerUnit s.

Definition isDigit (c : N) : bool := ((48 <=? c) && (c <=? 57))%N.

Definition isHexDigit (c : N) : bool :=
  (isDigit c || (65 <=? c) && (c <=? 70) || (97 <=? c) && (c <=? 102))%N.

Fixpoint takeDigits (s : JsString) : JsString :=
  match s with
  | c :: r => if isDigit c then c :: takeDigits r else []
  | [] => []
  end.

Definition digitsValue (ds : JsString) : Z :=
  fold_left (fun acc c => 10 * acc + (Z.of_N c - 48)) ds 0.

(** [parseInt(s, 10)]: [None] is [NaN]. *)
Definition parseInt (s : JsString) : option Z :=
  let t := trimStart s in
  let '(neg, body) :=
    match t with
    | c :: r => if (c =? 45)%N then (true, r)
                else if (c =? 43)%N then (false, r) else (false, t)
    | [] => (false, t)
    end in
  match takeDigits body with
  | [] => None
  | ds => Some (if neg : bool then - digitsValue ds else digitsValue ds)
  end.

Fixpoint startsWith (s pat : JsString) : bool :=
  match pat, s with
  | [], _ => true
  | p :: pat', c :: s' => (c =? p)%N && startsWith s' pat'
  | _ :: _, [] => false
  end.

(** [s.includes(pat)]. *)
Fixpoint includes (s pat : JsString) : bool :=
  startsWith s pat ||
  match s with
  | [] => false
  | _ :: r => includes r pat
  end.

(** [/^(\d{1,3}\.){3}\d{1,3}$/.test(s)]: digits hold no dot, so the match
    is the split of [s] at its dots into four groups of one to three
    digits. *)
Definition isDigitGroup (g : JsString) : bool :=
  (1 <=? length g)%nat && (length g <=? 3)%nat && forallb isDigit g.

Definition testIpv4 (s : JsString) : bool :=
  match split 46 s with
  | [a; b; c; d] =>
      isDigitGroup a && isDigitGroup b && isDigitGroup c && isDigitGroup d
  | _ => false
  end.

(** [/^#[0-9A-Fa-f]{3,6}$/.test(s)]. *)
Definition testColor (s : JsString) : bool :=
  match s with
  | c :: r =>
      (c =? 35)%N && (3 <=? length r)%nat && (length r <=? 6)%nat
      && forallb isHexDigit r
  | [] => false
  end.

(** Truthiness of a string. *)
Definition truthy (s : JsString) : bool :=
  match s with [] => false | _ => true end.

(** ** Insertion-ordered [Map] and [Set] *)

Section OrderedMap.
Context {K V : Type} `{EqDecision K}.

Fixpoint oget (k : K) (m : list (K * V)) : option V :=
  match m with
  | [] => None
  | (k', v) :: r => if decide (k = k') then Some v else oget k r
  end.

Definition ohas (k : K) (m : list (K * V)) : bool :=
  match oget k m with Some _ => true | None => false end.

(** [m.set(k, v)]: an existing key keeps its place. *)
Fixpoint oset (k : K) (v : V) (m : list (K * V)) : list (K * V) :=
  match m with
  | [] => [(k, v)]
  | (k', v') :: r =>
      if decide (k = k') then (k, v) :: r else (k', v') :: oset k v r
  end.

Fixpoint odelete (k : K) (m : list (K * V)) : list (K * V) :=
  match m with
  | [] => []
  | (k', v') :: r =>
      if decide (k = k') then odelete k r else (k', v') :: odelete k r
  end.

Definition okeys (m : list (K * V)) : list K := map fst m.
End OrderedMap.

Section OrderedSet.
Context {A : Type} `{EqDecision A}.

Definition shas (x : A) (s : list A) : bool := bool_decide (x ∈ s).

Definition sadd (x : A) (s : list A) : list A :=
  if shas x s then s else s ++ [x].

Fixpoint sdelete (x : A) (s : list A) : list A :=
  match s with
  | [] => []
  | y :: r => if decide (x = y) then sdelete x r else y :: sdelete x r
  end.
End OrderedSet.

(** ** Session registry (server.js, lines 64-84) *)

Abbreviation Registry := (list (JsString * list JsString)).

Definition addUserSocket (displayName socketId : JsString)
    (userSockets : Registry) : Registry :=
  let us :=
    if ohas displayName userSockets then userSockets
    else oset displayName [] userSockets in
  match oget displayName us with
  | Some set => oset displayName (sadd socketId set) us
  | None => us
  end.

(** The result pairs the registry with the returned boolean. *)
Definition removeUserSocket (displayName socketId : JsString)
    (userSockets : Registry) : Registry * bool :=
  match oget displayName userSockets with
  | Some set =>
      let set' := sdelete socketId set in
      let us := oset displayName set' userSockets in
      if (length set' =? 0)%nat then (odelete displayName us, true)
      else (us, false)
  | None => (userSockets, false)
  end.

Definition getUniqueOnlineUsers (userSockets : Registry) : list JsString :=
  okeys userSockets.

(** ** Data carried by the handlers *)

(** The account object the store returns on login. *)
Record Account := {
  account_displayName : JsString;
  account_isAdmin : bool;
  account_color : option JsString; (* [None]: no own [color] property *)
  account_statusText : JsString    (* empty when absent *)
}.

(** An entry of the legacy [users] table read at start-up; [None] when the
    entry has no own [color] property. *)
Record UserRecord := { user_color : option JsString }.

(** The object [users] (line 43) with what its lookups reach. It starts as
    [{}], and the object that [db.getUsers()] may put in its place at
    start-up (line 1082) is taken to be a plain object as well: then
    [users[name]] finds the own property [name] or else the property of
    that name on [Object.prototype], one of the built-in functions or, for
    [__proto__], the prototype itself. [/color] writes a [color] property
    on whatever the lookup finds; [builtinColor] holds the ones written on
    inherited objects, by the name that reached them. The entry for
    [__proto__] is [Object.prototype.color], which every object without an
    own [color] inherits. *)
Record UsersObject := {
  own : gmap JsString UserRecord;
  builtinColor : gmap JsString JsString
}.

(** The ten entries of [fortunes], in table order. *)
Inductive Fortune :=
  | Daikichi | Chukichi | Shokichi | Kichi | Kyo | Daikyo
  | Arere | Gokudaikichi | Miracle | Hatena.

Record IpBanRow := {
  ban_ip_address : JsString;
  ban_reason : JsString;
  ban_banned_by : JsString
}.

(** Every fixed or templated text the server produces, one constructor per
    literal of the source; the arguments are the interpolated values. *)
Inductive Notice :=
  | NAdminOnly                       (* このコマンドは管理者専用です *)
  | NAllDeleted                      (* 管理者がすべてのメッセージを削除しました *)
  | NUsageMute                       (* 使用方法: /mute ユーザー名 時間(秒) *)
  | NPositiveTime                    (* 時間は正の数値で指定してください *)
  | NNotOnline                       (* そのユーザーはオンラインではありません *)
  | NCannotMuteAdmin                 (* 管理者をミュートすることはできません *)
  | NMuted (target : JsString) (seconds : Z)
  | NUsageUnmute
  | NUnmuted (user : JsString)
  | NNotMuted                        (* そのユーザーはミュートされていません *)
  | NUsageBan
  | NCannotBanAdmin                  (* 管理者をBANすることはできません *)
  | NKicked                          (* 管理者によりチャットから追い出されました *)
  | NBanned (target : JsString)
  | NUsageUnban
  | NUnbanned (user : JsString)
  | NNotBanned                       (* そのユーザーはBANされていません *)
  | NPrivilegedOnly                  (* このコマンドは特権管理者専用です *)
  | NUsageIpban
  | NCannotBanPrivilegedIp           (* 特権管理者のIPをバンすることはできません *)
  | NReasonDirect (affected : option JsString)   (* IP直接バン ... *)
  | NReasonUser (target : JsString)              (* ...をIPバン *)
  | NYourIpBanned                    (* あなたのIPアドレスはBANされました *)
  | NIpBannedDirect (ip : JsString) (affected : option JsString)
  | NIpNotFound                      (* そのユーザーのIPが見つかりません ... *)
  | NCannotIpbanPrivileged           (* 特権管理者をIPバンすることはできません *)
  | NIpBanned (target ip : JsString)
  | NUsageIpunban
  | NIpUnbanned (ip : JsString)
  | NIpNotBanned                     (* そのIPアドレスはIPバンされていません *)
  | NIpBanListEmpty
  | NIpBanList (rows : list IpBanRow)
  | NUsagePrm
  | NPrmSelf                         (* 自分自身にプライベートメッセージは送れません *)
  | NPrmSent (target : JsString)
  | NDrewOmikuji
  | NFortune (f : Fortune)
  | NColorChanged (user color : JsString)
  | NUsageColor                      (* 使用方法: /color #カラーコード ... *)
  | NRolledDice
  | NDiceResult (n : Z)
  | NTossedCoin
  | NCoinResult (heads : bool)
  | NHelp (withAdminSection : bool)
  | NYouAreMuted (remaining : Z)     (* あなたはミュートされています。残り...秒 *)
  | NMutedNow                        (* ミュート中です *)
  | NSendError                       (* メッセージ送信エラー *)
  | NNoDatabase                      (* データベースに接続されていません *)
  | NNameLength                      (* ユーザー名は1〜20文字で入力してください *)
  | NPasswordLength                  (* パスワードは4文字以上で入力してください *)
  | NNameForbidden                   (* この名前は使用できません *)
  | NSignupFailed                    (* アカウント作成中にエラーが発生しました *)
  | NIpIsBanned                      (* あなたのIPアドレスはBANされています *)
  | NEnterName
  | NEnterPassword
  | NWrongAdminPassword              (* 管理者パスワードが正しくありません *)
  | NBannedFromChat                  (* あなたはチャットからBANされています *)
  | NLoginFailed                     (* ログイン処理中にエラーが発生しました *)
  | NTokenRequired
  | NTokenFailed.

(** Who a room message is shown as coming from. *)
Inductive Author :=
  | Person (name : JsString)
  | OmikujiBot | DiceBot | CoinBot.

(** The text of a room message: typed by a client or produced by the
    server. *)
Inductive Body :=
  | Typed (text : JsString)
  | Canned (n : Notice).

Record Message := {
  msg_id : JsString;
  msg_username : Author;
  msg_message : Body;
  msg_color : JsString;
  msg_timestamp : JsString;
  msg_replyTo : option JsString;
  msg_edited : bool;
  msg_isAdmin : option bool;
  msg_isCommandResult : bool;
  msg_statusText : option JsString
}.

Record PrivateMessage := {
  pm_id : JsString;
  pm_from : JsString;
  pm_to : JsString;
  pm_message : JsString;
  pm_color : JsString;
  pm_timestamp : JsString
}.

(** The value [processCommand] returns. *)
Inductive CommandResult :=
  | ResError (message : Notice)
  | ResSystem (message : Notice)
  | ResPrivate (message : Notice)
  | ResCommand (userMessage : Notice) (resultSender : Author)
               (resultMessage : Notice) (resultColor : JsString).

(** What the store answers to [login] and [loginWithToken]. *)
Inductive LoginResult :=
  | LoginOk (account : Account)
  | LoginRefused (error : JsString).

(** Calls into the store. *)
Inductive StoreCall :=
  | DbDeleteAllMessages
  | DbAddIpBan (ip bannedBy : JsString) (reason : Notice)
  | DbRemoveIpBan (ip : JsString)
  | DbGetAllIpBans
  | DbAddPrivateMessage (pm : PrivateMessage)
  | DbUpdateUser (username color : JsString)
  | DbAddMessage (m : Message)
  | DbSignup (username password : JsString)
  | DbIsIpBanned (ip : JsString)
  | DbLogin (username password : JsString)
  | DbLoginWithToken (token : JsString)
  | DbSaveUserIpHistory (user ip : JsString)
  | DbGetMessages
  | DbGetAllPrivateMessagesForUser (user : JsString)
  | DbGetAllPrivateMessages
  | DbGetAllUserIpHistory
  | DbLogout (token : JsString).

(** Packets sent to clients. *)
Inductive Packet :=
  | PSystemMessage (n : Notice)
  | PMessage (m : Message)
  | PAllMessagesDeleted
  | PBanned (n : Notice)
  | PUserLeft (username : JsString) (userCount : nat) (users : list JsString)
  | PUserJoined (username : JsString) (userCount : nat) (users : list JsString)
  | PPrivateMessage (pm : PrivateMessage)
  | PPrivateMessageMonitor (pm : PrivateMessage)
  | PPrivateMessageSent (id to message timestamp : JsString)
  | PProfileUpdated (color : JsString)
  | PUserIpList (entries : list (JsString * JsString))
  | PUserIpHistory (history : list (JsString * JsString)).

(** What the client callback is called with. *)
Inductive Reply :=
  | ReplyOk
  | ReplyOkId (id : JsString)
  | ReplyError (n : Notice)
  | ReplyNoDatabase (dbError : JsString)
  | ReplyStore (refusal : JsString)      (* the store's own result object *)
  | ReplySignup (result : JsString)      (* the store's signup result *)
  | ReplyLogin (account : Account) (history : list Message)
      (privateMessageHistory : list PrivateMessage)
      (allPrivateMessages : option (list PrivateMessage))
      (userIpHistory : option (list (JsString * JsString)))
      (onlineUsers : list JsString)
      (userStatuses : list (JsString * JsString)).

(** What a handler does to the outside world, in order. *)
Inductive Effect :=
  | ToSocket (sid : JsString) (p : Packet)     (* socket.emit / sock.emit *)
  | ToAll (p : Packet)                         (* io.emit *)
  | ToOthers (sid : JsString) (p : Packet)     (* socket.broadcast.emit *)
  | Disconnect (sid : JsString)                (* sock.disconnect(true) *)
  | Store (c : StoreCall)
  | Callback (r : Reply).

(** The shared in-memory state (server.js, lines 43-51). *)
Record State := {
  users : UsersObject;
  messages : list Message;
  onlineUsers : gmap JsString JsString;
  userSockets : Registry;
  adminUsers : gset JsString;
  mutedUsers : gmap JsString Z;               (* name to [until] *)
  bannedUsers : gset JsString;
  userStatusMap : list (JsString * JsString);
  userIpMap : list (JsString * JsString)
}.

(** The closure variables of one connection. *)
Record Conn := {
  socket_id : JsString;
  currentUser : option JsString;
  currentAccount : option Account
}.

(** Everything a handler run reads from outside the in-memory state. *)
Record Env := {
  (* constants exported by the store module *)
  MAX_HISTORY : nat;
  ADMIN_USERS : list JsString;
  EXTRA_ADMIN_PASSWORD : option JsString;
  (* io.sockets.sockets: the ids that still have a socket object *)
  sockets : gset JsString;
  (* getClientIp(socket) *)
  clientIp : JsString;
  (* Date.now() at line 114, at line 115 and at line 167 *)
  nowCheck : Z;
  nowRemaining : Z;
  nowMute : Z;
  (* generateId() and new Date().toISOString(), by call site *)
  prmId : JsString;
  prmTimestamp : JsString;
  msgId : JsString;
  msgTimestamp : JsString;
  resultId : JsString;
  resultTimestamp : JsString;
  (* Math.random() *)
  mathRandom : Q;
  (* the store: which calls reject, and what the others answer *)
  rejects : StoreCall -> bool;
  isUsingDatabase : bool;
  getDbError : JsString;
  isIpBanned : bool;
  loginAnswer : LoginResult;
  tokenAnswer : LoginResult;
  signupAnswer : JsString;
  removeIpBanAnswer : bool;
  allIpBans : list IpBanRow;
  getMessagesAnswer : option (list Message);          (* [None] is null *)
  privateMessagesAnswer : list PrivateMessage;
  allPrivateMessagesAnswer : list PrivateMessage;
  userIpHistoryAnswer : list (JsString * JsString)
}.

(** A call either returns or throws into the handler's [catch]. *)
Inductive Outcome (A : Type) :=
  | Returned (a : A)
  | Threw.
Arguments Returned {A} a.
Arguments Threw {A}.

(** Field updates. *)
Definition set_users (v : UsersObject) (st : State) : State :=
  {| users := v; messages := messages st; onlineUsers := onlineUsers st;
     userSockets := userSockets st; adminUsers := adminUsers st;
     mutedUsers := mutedUsers st; bannedUsers := bannedUsers st;
     userStatusMap := userStatusMap st; userIpMap := userIpMap st |}.

Definition set_messages (v : list Message) (st : State) : State :=
  {| users := users st; messages := v; onlineUsers := onlineUsers st;
     userSockets := userSockets st; adminUsers := adminUsers st;
     mutedUsers := mutedUsers st; bannedUsers := bannedUsers st;
     userStatusMap := userStatusMap st; userIpMap := userIpMap st |}.

Definition set_onlineUsers (v : gmap JsString JsString) (st : State) : State :=
  {| users := users st; messages := messages st; onlineUsers := v;
     userSockets := userSockets st; adminUsers := adminUsers st;
     mutedUsers := mutedUsers st; bannedUsers := bannedUsers st;
     userStatusMap := userStatusMap st; userIpMap := userIpMap st |}.

Definition set_userSockets (v : Registry) (st : State) : State :=
  {| users := users st; messages := messages st; onlineUsers := onlineUsers st;
     userSockets := v; adminUsers := adminUsers st;
     mutedUsers := mutedUsers st; bannedUsers := bannedUsers st;
     userStatusMap := userStatusMap st; userIpMap := userIpMap st |}.

Definition set_adminUsers (v : gset JsString) (st : State) : State :=
  {| users := users st; messages := messages st; onlineUsers := onlineUsers st;
     userSockets := userSockets st; adminUsers := v;
     mutedUsers := mutedUsers st; bannedUsers := bannedUsers st;
     userStatusMap := userStatusMap st; userIpMap := userIpMap st |}.

Definition set_mutedUsers (v : gmap JsString Z) (st : State) : State :=
  {| users := users st; messages := messages st; onlineUsers := onlineUsers st;
     userSockets := userSockets st; adminUsers := adminUsers st;
     mutedUsers := v; bannedUsers := bannedUsers st;
     userStatusMap := userStatusMap st; userIpMap := userIpMap st |}.

Definition set_bannedUsers (v : gset JsString) (st : State) : State :=
  {| users := users st; messages := messages st; onlineUsers := onlineUsers st;
     userSockets := userSockets st; adminUsers := adminUsers st;
     mutedUsers := mutedUsers st; bannedUsers := v;
     userStatusMap := userStatusMap st; userIpMap := userIpMap st |}.

Definition set_userStatusMap (v : list (JsString * JsString)) (st : State)
    : State :=
  {| users := users st; messages := messages st; onlineUsers := onlineUsers st;
     userSockets := userSockets st; adminUsers := adminUsers st;
     mutedUsers := mutedUsers st; bannedUsers := bannedUsers st;
     userStatusMap := v; userIpMap := userIpMap st |}.

Definition set_userIpMap (v : list (JsString * JsString)) (st : State)
    : State :=
  {| users := users st; messages := messages st; onlineUsers := onlineUsers st;
     userSockets := userSockets st; adminUsers := adminUsers st;
     mutedUsers := mutedUsers st; bannedUsers := bannedUsers st;
     userStatusMap := userStatusMap st; userIpMap := v |}.

(** ** Moderation ledger: mute check (server.js, lines 111-122) *)

(** [Math.ceil(x / d)] on integers. *)
Definition ceilDiv (x d : Z) : Z := - ((- x) / d).

Inductive MuteCheck :=
  | IsMuted (remaining : Z)
  | NotMuted.

(** The clock is read twice: [nowCheck] decides, [nowRemaining] is what the
    remaining time is computed from. *)
Definition checkMuted (env : Env) (username : JsString) (st : State)
    : MuteCheck * State :=
  match mutedUsers st !! username with
  | Some until =>
      if nowCheck env <? until
      then (IsMuted (ceilDiv (until - nowRemaining env) 1000), st)
      else (NotMuted, set_mutedUsers (delete username (mutedUsers st)) st)
  | None => (NotMuted, st)
  end.

(** ** Doubles

    A finite double is the rational it denotes. An operation computes the
    exact result and rounds it to the nearest double, ties to the even
    significand: 53 bits, exponents from -1074. Overflow (magnitudes from
    [2 ^ 1024]) is not modelled. *)

Definition pow2 (k : Z) : Q := Qpower 2 k.

(** The exponent [l] with [2 ^ l <= q < 2 ^ (l + 1)], for [q] positive. *)
Definition ilog2 (q : Q) : Z :=
  let l := Z.log2 (Qnum q) - Z.log2 (Zpos (Qden q)) in
  if Qle_bool (pow2 l) q then l else l - 1.

(** The nearest integer, ties to even. *)
Definition roundEven (t : Q) : Z :=
  let f := Qfloor t in
  match Qcompare (t - inject_Z f) (1 # 2) with
  | Lt => f
  | Gt => f + 1
  | Eq => if Z.even f then f else f + 1
  end.

(** The exponent of the unit in the last place of the doubles around
    [q]. *)
Definition ulpExponent (q : Q) : Z := Z.max (-1074) (ilog2 (Qabs q) - 52).

Definition roundDouble (x : Q) : Q :=
  let q := Qred x in
  if Qeq_bool q 0 then 0%Q
  else (inject_Z (roundEven (q / pow2 (ulpExponent q)))
        * pow2 (ulpExponent q))%Q.

(** [a * b] and [a - b] on doubles. *)
Definition fmul (a b : Q) : Q := roundDouble (a * b).
Definition fsub (a b : Q) : Q := roundDouble (a - b).

(** ** Fortune draw (server.js, lines 86-109) *)

Definition fortunes : list (Fortune * Z) :=
  [ (Daikichi, 8); (Chukichi, 12); (Shokichi, 20); (Kichi, 15); (Kyo, 20);
    (Daikyo, 15); (Arere, 3); (Gokudaikichi, 3); (Miracle, 1); (Hatena, 3) ].

Definition totalWeight : Z :=
  fold_left (fun sum f => sum + snd f) fortunes 0.

(** [random -= fortune.weight; if (random <= 0) return ...], in doubles. *)
Fixpoint drawLoop (random : Q) (fs : list (Fortune * Z)) : option Fortune :=
  match fs with
  | [] => None
  | (f, w) :: rest =>
      let random' := fsub random (inject_Z w) in
      if Qle_bool random' (inject_Z 0) then Some f else drawLoop random' rest
  end.

(** [Math.random() * totalWeight] is one double multiplication; the
    weights and their sum are small integers, exact in doubles. *)
Definition drawFortune (env : Env) : Fortune :=
  match drawLoop (fmul (mathRandom env) (inject_Z totalWeight)) fortunes with
  | Some f => f
  | None => Daikichi
  end.

(** ** Message ring (server.js, lines 483-489) *)

(** [messages.push(m); if (messages.length > MAX_HISTORY) messages.shift()]. *)
Definition pushMessage (cap : nat) (m : Message) (ring : list Message)
    : list Message :=
  let pushed := ring ++ [m] in
  if (cap <? length pushed)%nat then tl pushed else pushed.

Definition addMessageToStorage (env : Env) (messageData : Message) (st : State)
    : Outcome unit * State * list Effect :=
  let st' := set_messages (pushMessage (MAX_HISTORY env) messageData
                             (messages st)) st in
  if rejects env (DbAddMessage messageData)
  then (Threw, st', [Store (DbAddMessage messageData)])
  else (Returned tt, st', [Store (DbAddMessage messageData)]).

(** ** Emission helpers *)

(** [for (const sid of userSockets.get(name)) { const s =
    io.sockets.sockets.get(sid); if (s) s.emit(p) }], guarded by
    [userSockets.has(name)]. *)
Definition emitToUser (env : Env) (st : State) (name : JsString) (p : Packet)
    : list Effect :=
  match oget name (userSockets st) with
  | Some set =>
      flat_map (fun sid =>
                  if bool_decide (sid ∈ sockets env) then [ToSocket sid p]
                  else []) set
  | None => []
  end.

(** [for (const adminName of db.ADMIN_USERS) ...]. *)
Definition emitToPrivileged (env : Env) (st : State) (p : Packet)
    : list Effect :=
  flat_map (fun adminName => emitToUser env st adminName p) (ADMIN_USERS env).

(** server.js, lines 499-516. *)
Definition broadcastUserIpList (env : Env) (st : State) : list Effect :=
  emitToPrivileged env st (PUserIpList (userIpMap st)).

(** The loop that closes the sockets of a banned identity (lines 210-218,
    272-280 and 307-315): each id with a socket object gets the [banned]
    packet and is closed; every id leaves [onlineUsers] and [adminUsers].
    These are the writes of the loop itself. The [disconnect] handler that
    the transport runs for a closed socket, inside [disconnect(true)] or
    after the command has returned, is a handler run of its own
    ([disconnect] below) and no part of this function. *)
Definition dropSocket (st : State) (sid : JsString) : State :=
  set_adminUsers (adminUsers st ∖ {[sid]})
    (set_onlineUsers (delete sid (onlineUsers st)) st).

Definition closeSockets (env : Env) (why : Notice) (sids : list JsString)
    (st : State) : State * list Effect :=
  (fold_left dropSocket sids st,
   flat_map (fun sid =>
               if bool_decide (sid ∈ sockets env)
               then [ToSocket sid (PBanned why); Disconnect sid]
               else []) sids).

(** The block both branches of [/ipban] run when the banned identity is
    present (lines 270-292 and 305-327). *)
Definition ipBanKick (env : Env) (target : JsString) (st : State)
    : State * list Effect :=
  match oget target (userSockets st) with
  | Some ipBanSocketSet =>
      let '(st1, out) := closeSockets env NYourIpBanned ipBanSocketSet st in
      let st2 := set_userSockets (odelete target (userSockets st1)) st1 in
      let st3 := set_userStatusMap (odelete target (userStatusMap st2)) st2 in
      let st4 := set_userIpMap (odelete target (userIpMap st3)) st3 in
      let ipBanOnlineUsers := getUniqueOnlineUsers (userSockets st4) in
      (st4,
       out ++ [ToAll (PUserLeft target (length ipBanOnlineUsers)
                        ipBanOnlineUsers)]
           ++ broadcastUserIpList env st4)
  | None => (st, [])
  end.

(** ** Command dispatcher (server.js, lines 124-481) *)

Inductive Command :=
  | CDelete | CMute | CUnmute | CBan | CUnban | CIpban | CIpunban
  | CIpbanlist | CPrm | COmi | CColor | CDice | CCoin | CHelp.

(** The [case] labels of the [switch]. *)
Definition commandTable : list (JsString * Command) :=
  [ (u16 "/delete", CDelete); (u16 "/mute", CMute); (u16 "/unmute", CUnmute);
    (u16 "/ban", CBan); (u16 "/unban", CUnban);
    (u16 "/ip" ++ kana_ban, CIpban); (u16 "/ipban", CIpban);
    (u16 "/ip" ++ kana_ban ++ kanji_kaijo, CIpunban);
    (u16 "/ipunban", CIpunban);
    (u16 "/ip" ++ kana_ban ++ kana_risuto, CIpbanlist);
    (u16 "/ipbanlist", CIpbanlist);
    (u16 "/prm", CPrm); (u16 "/omi", COmi); (u16 "/omikuji", COmi);
    (u16 "/color", CColor); (u16 "/dice", CDice); (u16 "/coin", CCoin);
    (u16 "/help", CHelp) ].

Definition commandOf (cmd : JsString) : option Command := oget cmd commandTable.

(** [command.trim().split(' ')], [parts[0].toLowerCase()], [parts.slice(1)]. *)
Definition commandParts (command : JsString) : list JsString :=
  split 32 (trim command).

Definition commandWord (command : JsString) : JsString :=
  toLowerCase (hd [] (commandParts command)).

Definition commandArgs (command : JsString) : list JsString :=
  tl (commandParts command).

(** [db.ADMIN_USERS.includes(name)]. *)
Definition isPrivileged (env : Env) (name : JsString) : bool :=
  bool_decide (name ∈ ADMIN_USERS env).

(** Whether one of the ids holds the per-connection admin flag (the loops
    at lines 155-163 and 197-203). *)
Definition anyAdminSocket (st : State) (set : list JsString) : bool :=
  existsb (fun sid => bool_decide (sid ∈ adminUsers st)) set.

Definition colorOr (fallback : JsString) (c : JsString) : JsString :=
  if truthy c then c else fallback.

Definition black : JsString := u16 "#000000".

(** The names of the properties of [Object.prototype]. *)
Definition objectPrototypeNames : list JsString :=
  [ u16 "constructor"; u16 "__defineGetter__"; u16 "__defineSetter__";
    u16 "hasOwnProperty"; u16 "__lookupGetter__"; u16 "__lookupSetter__";
    u16 "isPrototypeOf"; u16 "propertyIsEnumerable"; u16 "toString";
    u16 "valueOf"; u16 "__proto__"; u16 "toLocaleString" ].

(** [Object.prototype.color]: set once [/color] was run under the name
    [__proto__]. *)
Definition prototypeColor (u : UsersObject) : option JsString :=
  builtinColor u !! u16 "__proto__".

(** What [users[name]] evaluates to. *)
Inductive UsersLookup :=
  | OwnEntry (r : UserRecord)
  | Inherited (name : JsString)    (* an object reached on [Object.prototype] *)
  | InheritedColor (c : JsString)  (* the string [Object.prototype.color] *)
  | Missing.                       (* [undefined] *)

Definition lookupUser (u : UsersObject) (name : JsString) : UsersLookup :=
  match own u !! name with
  | Some r => OwnEntry r
  | None =>
      if bool_decide (name ∈ objectPrototypeNames) then Inherited name
      else if bool_decide (name = u16 "color") then
        match prototypeColor u with
        | Some c => InheritedColor c
        | None => Missing
        end
      else Missing
  end.

(** [if (users[name])]. *)
Definition lookupTruthy (l : UsersLookup) : bool :=
  match l with
  | OwnEntry _ | Inherited _ => true
  | InheritedColor c => truthy c
  | Missing => false
  end.

(** [.color] read on an object with the given own property: a missing own
    property is looked up on [Object.prototype]. *)
Definition readColor (u : UsersObject) (ownColor : option JsString)
    : option JsString :=
  match ownColor with
  | Some c => Some c
  | None => prototypeColor u
  end.

(** [users[name]?.color]; [None] is [undefined]. *)
Definition lookupColor (u : UsersObject) (l : UsersLookup)
    : option JsString :=
  match l with
  | OwnEntry r => readColor u (user_color r)
  | Inherited name => readColor u (builtinColor u !! name)
  | InheritedColor _ => prototypeColor u
  | Missing => None
  end.

(** [users[name].color = c]: the write lands on the object the lookup
    found; on a string it is dropped (the module is not in strict mode). *)
Definition assignColor (u : UsersObject) (name : JsString) (l : UsersLookup)
    (c : JsString) : UsersObject :=
  match l with
  | OwnEntry _ =>
      {| own := <[name := {| user_color := Some c |}]> (own u);
         builtinColor := builtinColor u |}
  | Inherited n =>
      {| own := own u; builtinColor := <[n := c]> (builtinColor u) |}
  | InheritedColor _ | Missing => u
  end.

(** [v || '#000000']. *)
Definition orBlack (v : option JsString) : JsString :=
  match v with
  | Some c => colorOr black c
  | None => black
  end.

(** [currentAccount?.color || '#000000'] (lines 912 and 955). *)
Definition accountColor (conn : Conn) (st : State) : JsString :=
  match currentAccount conn with
  | Some a => orBlack (readColor (users st) (account_color a))
  | None => black
  end.

(** [data.replyTo || null]. *)
Definition orNull (v : option JsString) : option JsString :=
  match v with
  | Some s => if truthy s then Some s else None
  | None => None
  end.

(** The object [/prm] builds (lines 370-390): the color is
    [users[username]?.color || '#000000']. *)
Definition privateMessageData (env : Env) (st : State)
    (username prmTarget prmMessage : JsString) : PrivateMessage :=
  let prmColor :=
    orBlack (lookupColor (users st) (lookupUser (users st) username)) in
  {| pm_id := prmId env; pm_from := username; pm_to := prmTarget;
     pm_message := prmMessage; pm_color := prmColor;
     pm_timestamp := prmTimestamp env |}.

Abbreviation CommandRun :=
  (Outcome (option CommandResult) * State * list Effect)%type.

Definition answer (r : CommandResult) (st : State) : CommandRun :=
  (Returned (Some r), st, []).

Definition processCommand (env : Env) (command username socket : JsString)
    (isAdmin : bool) (st : State) : CommandRun :=
  let args := commandArgs command in
  match commandOf (commandWord command) with
  | Some CDelete =>
      if negb isAdmin then answer (ResError NAdminOnly) st
      else
        let st1 := set_messages [] st in
        if rejects env DbDeleteAllMessages
        then (Threw, st1, [Store DbDeleteAllMessages])
        else (Returned (Some (ResSystem NAllDeleted)), st1,
              [Store DbDeleteAllMessages; ToAll PAllMessagesDeleted])
  | Some CMute =>
      if negb isAdmin then answer (ResError NAdminOnly) st
      else
        match args with
        | targetUser :: seconds :: _ =>
            match parseInt seconds with
            | None => answer (ResError NPositiveTime) st
            | Some muteTime =>
                if muteTime <=? 0 then answer (ResError NPositiveTime) st
                else if negb (bool_decide
                       (targetUser ∈ getUniqueOnlineUsers (userSockets st)))
                then answer (ResError NNotOnline) st
                else
                  let isMuteTargetAdmin :=
                    match oget targetUser (userSockets st) with
                    | Some muteTargetSocketSet =>
                        anyAdminSocket st muteTargetSocketSet
                    | None => false
                    end in
                  if isMuteTargetAdmin && negb (isPrivileged env username)
                  then answer (ResError NCannotMuteAdmin) st
                  else
                    answer (ResSystem (NMuted targetUser muteTime))
                      (set_mutedUsers
                         (<[targetUser := nowMute env + muteTime * 1000]>
                            (mutedUsers st)) st)
            end
        | _ => answer (ResError NUsageMute) st
        end
  | Some CUnmute =>
      if negb isAdmin then answer (ResError NAdminOnly) st
      else
        match args with
        | unmuteUser :: _ =>
            match mutedUsers st !! unmuteUser with
            | Some _ =>
                answer (ResSystem (NUnmuted unmuteUser))
                  (set_mutedUsers (delete unmuteUser (mutedUsers st)) st)
            | None => answer (ResError NNotMuted) st
            end
        | [] => answer (ResError NUsageUnmute) st
        end
  | Some CBan =>
      if negb isAdmin then answer (ResError NAdminOnly) st
      else
        match args with
        | banTarget :: _ =>
            match oget banTarget (userSockets st) with
            | None => answer (ResError NNotOnline) st
            | Some banUserSocketSet =>
                let isTargetAdmin := anyAdminSocket st banUserSocketSet in
                if isTargetAdmin && negb (isPrivileged env username)
                then answer (ResError NCannotBanAdmin) st
                else
                  let st1 :=
                    set_bannedUsers ({[banTarget]} ∪ bannedUsers st) st in
                  let '(st2, out) :=
                    closeSockets env NKicked banUserSocketSet st1 in
                  let st3 :=
                    set_userSockets (odelete banTarget (userSockets st2))
                      st2 in
                  let st4 :=
                    set_userStatusMap (odelete banTarget (userStatusMap st3))
                      st3 in
                  let uniqueOnlineUsers :=
                    getUniqueOnlineUsers (userSockets st4) in
                  (Returned (Some (ResSystem (NBanned banTarget))), st4,
                   out ++ [ToAll (PUserLeft banTarget
                                    (length uniqueOnlineUsers)
                                    uniqueOnlineUsers)])
            end
        | [] => answer (ResError NUsageBan) st
        end
  | Some CUnban =>
      if negb isAdmin then answer (ResError NAdminOnly) st
      else
        match args with
        | unbanUser :: _ =>
            if bool_decide (unbanUser ∈ bannedUsers st)
            then answer (ResSystem (NUnbanned unbanUser))
                   (set_bannedUsers (bannedUsers st ∖ {[unbanUser]}) st)
            else answer (ResError NNotBanned) st
        | [] => answer (ResError NUsageUnban) st
        end
  | Some CIpban =>
      if negb (isPrivileged env username)
      then answer (ResError NPrivilegedOnly) st
      else
        match args with
        | [] => answer (ResError NUsageIpban) st
        | ipBanTarget :: _ =>
            let isIpAddress :=
              testIpv4 ipBanTarget || includes ipBanTarget (u16 ":") in
            if isIpAddress then
              let directIp := ipBanTarget in
              (* the first entry of userIpMap with that address *)
              let hit :=
                find (fun e => bool_decide (snd e = directIp))
                  (userIpMap st) in
              match hit with
              | Some (userName, _) =>
                  if isPrivileged env userName
                  then answer (ResError NCannotBanPrivilegedIp) st
                  else
                    let affectedUser :=
                      if truthy userName then Some userName else None in
                    let call :=
                      DbAddIpBan directIp username
                        (NReasonDirect affectedUser) in
                    if rejects env call then (Threw, st, [Store call])
                    else
                      let '(st1, out) :=
                        if truthy userName then ipBanKick env userName st
                        else (st, []) in
                      (Returned (Some (ResSystem
                                         (NIpBannedDirect directIp
                                            affectedUser))),
                       st1, Store call :: out)
              | None =>
                  let call :=
                    DbAddIpBan directIp username (NReasonDirect None) in
                  if rejects env call then (Threw, st, [Store call])
                  else
                    (Returned (Some (ResSystem
                                       (NIpBannedDirect directIp None))),
                     st, [Store call])
              end
            else
              match oget ipBanTarget (userIpMap st) with
              | None => answer (ResError NIpNotFound) st
              | Some targetIp =>
                  if negb (truthy targetIp)
                  then answer (ResError NIpNotFound) st
                  else if isPrivileged env ipBanTarget
                  then answer (ResError NCannotIpbanPrivileged) st
                  else
                    let call :=
                      DbAddIpBan targetIp username (NReasonUser ipBanTarget) in
                    if rejects env call then (Threw, st, [Store call])
                    else
                      let '(st1, out) := ipBanKick env ipBanTarget st in
                      (Returned (Some (ResSystem
                                         (NIpBanned ipBanTarget targetIp))),
                       st1, Store call :: out)
              end
        end
  | Some CIpunban =>
      if negb (isPrivileged env username)
      then answer (ResError NPrivilegedOnly) st
      else
        match args with
        | [] => answer (ResError NUsageIpunban) st
        | ipToUnban :: _ =>
            let call := DbRemoveIpBan ipToUnban in
            if rejects env call then (Threw, st, [Store call])
            else if removeIpBanAnswer env
            then (Returned (Some (ResSystem (NIpUnbanned ipToUnban))), st,
                  [Store call])
            else (Returned (Some (ResError NIpNotBanned)), st, [Store call])
        end
  | Some CIpbanlist =>
      if negb (isPrivileged env username)
      then answer (ResError NPrivilegedOnly) st
      else if rejects env DbGetAllIpBans
      then (Threw, st, [Store DbGetAllIpBans])
      else
        match allIpBans env with
        | [] => (Returned (Some (ResSystem NIpBanListEmpty)), st,
                 [Store DbGetAllIpBans])
        | ipBanList => (Returned (Some (ResSystem (NIpBanList ipBanList))), st,
                        [Store DbGetAllIpBans])
        end
  | Some CPrm =>
      match args with
      | prmTarget :: word :: more =>
          let prmMessage := join 32 (word :: more) in
          match oget prmTarget (userSockets st) with
          | None => answer (ResError NNotOnline) st
          | Some _ =>
              if bool_decide (prmTarget = username)
              then answer (ResError NPrmSelf) st
              else
                let prmData :=
                  privateMessageData env st username prmTarget prmMessage in
                let call := DbAddPrivateMessage prmData in
                if rejects env call then (Threw, st, [Store call])
                else
                  (Returned (Some (ResPrivate (NPrmSent prmTarget))), st,
                   Store call
                   :: emitToUser env st prmTarget (PPrivateMessage prmData)
                   ++ emitToPrivileged env st (PPrivateMessageMonitor prmData)
                   ++ [ToSocket socket
                         (PPrivateMessageSent (prmId env) prmTarget prmMessage
                            (prmTimestamp env))])
          end
      | _ => answer (ResError NUsagePrm) st
      end
  | Some COmi =>
      answer (ResCommand NDrewOmikuji OmikujiBot (NFortune (drawFortune env))
                (u16 "#e74c3c")) st
  | Some CColor =>
      match args with
      | color :: _ =>
          if truthy color && testColor color then
            let found := lookupUser (users st) username in
            if lookupTruthy found then
              let st1 :=
                set_users (assignColor (users st) username found color) st in
              let call := DbUpdateUser username color in
              if rejects env call then (Threw, st1, [Store call])
              else
                (Returned (Some (ResSystem (NColorChanged username color))),
                 st1, [Store call; ToSocket socket (PProfileUpdated color)])
            else answer (ResError NUsageColor) st
          else answer (ResError NUsageColor) st
      | [] => answer (ResError NUsageColor) st
      end
  | Some CDice =>
      (* Math.floor(Math.random() * 6) + 1, the product taken exactly *)
      let dice := Qfloor (Qmult (mathRandom env) (inject_Z 6)) + 1 in
      answer (ResCommand NRolledDice DiceBot (NDiceResult dice)
                (u16 "#3498db")) st
  | Some CCoin =>
      let heads := negb (Qle_bool (1 # 2) (mathRandom env)) in
      answer (ResCommand NTossedCoin CoinBot (NCoinResult heads)
                (u16 "#f39c12")) st
  | Some CHelp => answer (ResSystem (NHelp isAdmin)) st
  | None => (Returned None, st, [])
  end.

(** ** Socket handlers *)

(** [socket.on('signup')] (server.js, lines 547-580). It touches no
    in-memory state. *)
Definition signup (env : Env) (username password : JsString) : list Effect :=
  if negb (isUsingDatabase env)
  then [Callback (ReplyNoDatabase (getDbError env))]
  else if negb (truthy username) || (length username <? 1)%nat
          || (20 <? length username)%nat
  then [Callback (ReplyError NNameLength)]
  else if negb (truthy password) || (length password <? 4)%nat
  then [Callback (ReplyError NPasswordLength)]
  else if includes username kanrisha
  then [Callback (ReplyError NNameForbidden)]
  else if rejects env (DbSignup username password)
  then [Store (DbSignup username password);
        Callback (ReplyError NSignupFailed)]
  else [Store (DbSignup username password);
        Callback (ReplySignup (signupAnswer env))].

Abbreviation HandlerRun := (Conn * State * list Effect)%type.

(** [broadcastUserIpHistory] (lines 518-536); its emissions are placed
    right after its store call. *)
Definition broadcastUserIpHistory (env : Env) (st : State) : list Effect :=
  if rejects env DbGetAllUserIpHistory then [Store DbGetAllUserIpHistory]
  else Store DbGetAllUserIpHistory
       :: emitToPrivileged env st (PUserIpHistory (userIpHistoryAnswer env)).

(** What both login handlers do once the store has authenticated the
    account and the ban check has passed (lines 628-706 and 742-817, which
    differ only in where the admin flag may come from). [account] already
    carries the flag granted by the admin password, and [failure] is the
    notice of the enclosing [catch]. *)
Definition completeLogin (env : Env) (conn : Conn) (account : Account)
    (failure : Notice) (st : State) : HandlerRun :=
  let user := account_displayName account in
  let sid := socket_id conn in
  let conn1 := {| socket_id := sid; currentUser := Some user;
                  currentAccount := Some account |} in
  let st1 := set_onlineUsers (<[sid := user]> (onlineUsers st)) st in
  let st2 := set_userIpMap (oset user (clientIp env) (userIpMap st1)) st1 in
  let save := DbSaveUserIpHistory user (clientIp env) in
  if rejects env save
  then (conn1, st2, [Store save; Callback (ReplyError failure)])
  else
    let isFirstSocket := negb (ohas user (userSockets st2)) in
    let st3 := set_userSockets (addUserSocket user sid (userSockets st2)) st2 in
    let st4 :=
      if account_isAdmin account
      then set_adminUsers ({[sid]} ∪ adminUsers st3) st3 else st3 in
    let st5 :=
      if truthy (account_statusText account)
      then set_userStatusMap
             (oset user (account_statusText account) (userStatusMap st4)) st4
      else st4 in
    let '(st6, currentMessages) :=
      if rejects env DbGetMessages then (st5, messages st5)
      else match getMessagesAnswer env with
           | Some freshMessages =>
               (set_messages freshMessages st5, freshMessages)
           | None => (st5, messages st5)
           end in
    let privateMessages :=
      if rejects env (DbGetAllPrivateMessagesForUser user) then []
      else privateMessagesAnswer env in
    let canMonitorPM := isPrivileged env user in
    let monitorCalls :=
      if canMonitorPM then
        if rejects env DbGetAllPrivateMessages
        then [Store DbGetAllPrivateMessages]
        else [Store DbGetAllPrivateMessages; Store DbGetAllUserIpHistory]
      else [] in
    let allPrivateMessagesForAdmin :=
      if rejects env DbGetAllPrivateMessages then []
      else allPrivateMessagesAnswer env in
    let userIpHistory :=
      if rejects env DbGetAllPrivateMessages
         || rejects env DbGetAllUserIpHistory
      then [] else userIpHistoryAnswer env in
    let uniqueOnlineUsers := getUniqueOnlineUsers (userSockets st6) in
    (conn1, st6,
     [Store save; Store DbGetMessages;
      Store (DbGetAllPrivateMessagesForUser user)]
     ++ monitorCalls
     ++ [Callback
           (ReplyLogin account currentMessages privateMessages
              (if canMonitorPM then Some allPrivateMessagesForAdmin else None)
              (if canMonitorPM then Some userIpHistory else None)
              uniqueOnlineUsers (userStatusMap st6))]
     ++ (if isFirstSocket
         then [ToOthers sid
                 (PUserJoined user (length uniqueOnlineUsers)
                    uniqueOnlineUsers)]
         else [])
     ++ broadcastUserIpList env st6
     ++ broadcastUserIpHistory env st6).

(** The checks of [accountLogin] that come before the store is asked to
    authenticate (lines 588-615); [None] when all of them pass. The address
    lookup is a store call of its own. *)
Definition accountLoginGuards (env : Env) (username password : JsString)
    (adminLogin : bool) (adminPassword : JsString)
    : option (list Effect) :=
  if negb (isUsingDatabase env)
  then Some [Callback (ReplyNoDatabase (getDbError env))]
  else if rejects env (DbIsIpBanned (clientIp env))
  then Some [Store (DbIsIpBanned (clientIp env));
             Callback (ReplyError NLoginFailed)]
  else if isIpBanned env
  then Some [Store (DbIsIpBanned (clientIp env));
             Callback (ReplyError NIpIsBanned)]
  else if negb (truthy username)
  then Some [Store (DbIsIpBanned (clientIp env));
             Callback (ReplyError NEnterName)]
  else if negb (truthy password)
  then Some [Store (DbIsIpBanned (clientIp env));
             Callback (ReplyError NEnterPassword)]
  else if adminLogin
          && (negb (truthy adminPassword)
              || negb (bool_decide
                         (Some adminPassword = EXTRA_ADMIN_PASSWORD env)))
  then Some [Store (DbIsIpBanned (clientIp env));
             Callback (ReplyError NWrongAdminPassword)]
  else None.

(** [socket.on('accountLogin')] (lines 582-711). *)
Definition accountLogin (env : Env) (conn : Conn)
    (username password : JsString) (adminLogin : bool)
    (adminPassword : JsString) (st : State) : HandlerRun :=
  match accountLoginGuards env username password adminLogin adminPassword with
  | Some out => (conn, st, out)
  | None =>
      let asked := [Store (DbIsIpBanned (clientIp env));
                    Store (DbLogin username password)] in
      if rejects env (DbLogin username password)
      then (conn, st, asked ++ [Callback (ReplyError NLoginFailed)])
      else
        match loginAnswer env with
        | LoginOk account =>
            if bool_decide (account_displayName account ∈ bannedUsers st)
            then (conn, st, asked ++ [Callback (ReplyError NBannedFromChat)])
            else
              let grantAdminByPassword :=
                adminLogin
                && bool_decide (Some adminPassword = EXTRA_ADMIN_PASSWORD env) in
              let account' :=
                if grantAdminByPassword
                then {| account_displayName := account_displayName account;
                        account_isAdmin := true;
                        account_color := account_color account;
                        account_statusText := account_statusText account |}
                else account in
              let '(conn', st', out) :=
                completeLogin env conn account' NLoginFailed st in
              (conn', st', asked ++ out)
        | LoginRefused refusal =>
            (conn, st, asked ++ [Callback (ReplyStore refusal)])
        end
  end.

(** The checks of [tokenLogin] before the store is asked (lines 719-731). *)
Definition tokenLoginGuards (env : Env) (token : JsString)
    : option (list Effect) :=
  if negb (isUsingDatabase env)
  then Some [Callback (ReplyError NNoDatabase)]
  else if rejects env (DbIsIpBanned (clientIp env))
  then Some [Store (DbIsIpBanned (clientIp env));
             Callback (ReplyError NTokenFailed)]
  else if isIpBanned env
  then Some [Store (DbIsIpBanned (clientIp env));
             Callback (ReplyError NIpIsBanned)]
  else if negb (truthy token)
  then Some [Store (DbIsIpBanned (clientIp env));
             Callback (ReplyError NTokenRequired)]
  else None.

(** [socket.on('tokenLogin')] (lines 713-822). *)
Definition tokenLogin (env : Env) (conn : Conn) (token : JsString)
    (st : State) : HandlerRun :=
  match tokenLoginGuards env token with
  | Some out => (conn, st, out)
  | None =>
      let asked := [Store (DbIsIpBanned (clientIp env));
                    Store (DbLoginWithToken token)] in
      if rejects env (DbLoginWithToken token)
      then (conn, st, asked ++ [Callback (ReplyError NTokenFailed)])
      else
        match tokenAnswer env with
        | LoginRefused refusal =>
            (conn, st, asked ++ [Callback (ReplyStore refusal)])
        | LoginOk account =>
            if bool_decide (account_displayName account ∈ bannedUsers st)
            then (conn, st, asked ++ [Callback (ReplyError NBannedFromChat)])
            else
              let '(conn', st', out) :=
                completeLogin env conn account NTokenFailed st in
              (conn', st', asked ++ out)
        end
  end.

(** [if (currentUser)]: the identity of the connection when the closure
    variable is set and truthy. *)
Definition loggedIn (conn : Conn) : option JsString :=
  match currentUser conn with
  | Some user => if truthy user then Some user else None
  | None => None
  end.

(** What [accountLogout] (after its store call) and [disconnect] share
    (lines 828-847 and 1049-1069). *)
Definition leaveRoom (env : Env) (conn : Conn) (st : State) : HandlerRun :=
  match loggedIn conn with
  | None => (conn, st, [])
  | Some userName =>
      let sid := socket_id conn in
      let st1 := dropSocket st sid in
      let '(us, isLastSocket) :=
        removeUserSocket userName sid (userSockets st1) in
      let st2 := set_userSockets us st1 in
      if isLastSocket then
        let st3 := set_userStatusMap (odelete userName (userStatusMap st2))
                     st2 in
        let st4 := set_userIpMap (odelete userName (userIpMap st3)) st3 in
        let uniqueOnlineUsers := getUniqueOnlineUsers (userSockets st4) in
        (conn, st4,
         ToAll (PUserLeft userName (length uniqueOnlineUsers)
                  uniqueOnlineUsers)
         :: broadcastUserIpList env st4)
      else (conn, st2, [])
  end.

(** [socket.on('disconnect')] (lines 1048-1070): the closure variables are
    left as they are. *)
Definition disconnect (env : Env) (conn : Conn) (st : State) : HandlerRun :=
  leaveRoom env conn st.

(** [socket.on('accountLogout')] (lines 824-848); a rejected store call
    leaves the handler before anything else happens. *)
Definition accountLogout (env : Env) (conn : Conn) (token : JsString)
    (st : State) : HandlerRun :=
  let asked := if truthy token then [Store (DbLogout token)] else [] in
  if truthy token && rejects env (DbLogout token) then (conn, st, asked)
  else
    let '(_, st', out) := leaveRoom env conn st in
    let conn' :=
      match loggedIn conn with
      | Some _ => {| socket_id := socket_id conn; currentUser := None;
                     currentAccount := None |}
      | None => conn
      end in
    (conn', st', asked ++ out).

(** The name a message is shown under (line 894). *)
Definition shownName (isAdmin : bool) (user : JsString) : JsString :=
  if isAdmin then user ++ 32%N :: kanrisha else user.

(** [socket.on('sendMessage')] (lines 887-970). The connection's closure
    variables are only read. *)
Definition sendMessage (env : Env) (conn : Conn) (message : JsString)
    (replyTo : option JsString) (st : State) : State * list Effect :=
  match loggedIn conn with
  | None => (st, [])
  | Some user =>
      let sid := socket_id conn in
      let isAdmin := bool_decide (sid ∈ adminUsers st) in
      let displayName := shownName isAdmin user in
      let statusText :=
        match oget user (userStatusMap st) with
        | Some s => s
        | None => []
        end in
      let plain (st0 : State) (before : list Effect) :=
        let messageData :=
          {| msg_id := msgId env; msg_username := Person displayName;
             msg_message := Typed message;
             msg_color := accountColor conn st0;
             msg_timestamp := msgTimestamp env;
             msg_replyTo := orNull replyTo;
             msg_edited := false; msg_isAdmin := Some isAdmin;
             msg_isCommandResult := false;
             msg_statusText := Some statusText |} in
        match addMessageToStorage env messageData st0 with
        | (Threw, st', out) =>
            (st', before ++ out ++ [Callback (ReplyError NSendError)])
        | (Returned _, st', out) =>
            (st', before ++ out ++ [ToAll (PMessage messageData);
                                    Callback (ReplyOkId (msg_id messageData))])
        end in
      match checkMuted env user st with
      | (IsMuted remaining, st1) =>
          (st1, [ToSocket sid (PSystemMessage (NYouAreMuted remaining));
                 Callback (ReplyError NMutedNow)])
      | (NotMuted, st1) =>
          if startsWith message (u16 "/") then
            match processCommand env message user sid isAdmin st1 with
            | (Threw, st2, out) =>
                (st2, out ++ [Callback (ReplyError NSendError)])
            | (Returned None, st2, out) => plain st2 out
            | (Returned (Some (ResError m)), st2, out) =>
                (st2, out ++ [ToSocket sid (PSystemMessage m);
                              Callback ReplyOk])
            | (Returned (Some (ResCommand userMessage resultSender
                                 resultMessage resultColor)), st2, out) =>
                let userMsgData :=
                  {| msg_id := msgId env; msg_username := Person displayName;
                     msg_message := Canned userMessage;
                     msg_color := accountColor conn st2;
                     msg_timestamp := msgTimestamp env; msg_replyTo := None;
                     msg_edited := false; msg_isAdmin := Some isAdmin;
                     msg_isCommandResult := false;
                     msg_statusText := Some statusText |} in
                let resultMsgData :=
                  {| msg_id := resultId env; msg_username := resultSender;
                     msg_message := Canned resultMessage;
                     msg_color := resultColor;
                     msg_timestamp := resultTimestamp env;
                     msg_replyTo := None; msg_edited := false;
                     msg_isAdmin := None; msg_isCommandResult := true;
                     msg_statusText := None |} in
                match addMessageToStorage env userMsgData st2 with
                | (Threw, st3, out3) =>
                    (st3, out ++ out3 ++ [Callback (ReplyError NSendError)])
                | (Returned _, st3, out3) =>
                    match addMessageToStorage env resultMsgData st3 with
                    | (Threw, st4, out4) =>
                        (st4, out ++ out3 ++ [ToAll (PMessage userMsgData)]
                              ++ out4 ++ [Callback (ReplyError NSendError)])
                    | (Returned _, st4, out4) =>
                        (st4, out ++ out3 ++ [ToAll (PMessage userMsgData)]
                              ++ out4 ++ [ToAll (PMessage resultMsgData);
                                          Callback ReplyOk])
                    end
                end
            | (Returned (Some (ResPrivate m)), st2, out) =>
                (st2, out ++ [ToSocket sid (PSystemMessage m);
                              Callback ReplyOk])
            | (Returned (Some (ResSystem m)), st2, out) =>
                (st2, out ++ [ToAll (PSystemMessage m); Callback ReplyOk])
            end
          else plain st1 []
      end
  end.

(** ** Sequences of registry events *)

Inductive RegistryEvent :=
  | ConnAdd (identity connId : JsString)       (* addUserSocket *)
  | ConnRemove (identity connId : JsString).   (* removeUserSocket *)

Definition applyEvent (reg : Registry) (e : RegistryEvent) : Registry :=
  match e with
  | ConnAdd identity connId => addUserSocket identity connId reg
  | ConnRemove identity connId => fst (removeUserSocket identity connId reg)
  end.

(** The registry after the events, oldest first, starting from the empty
    map the server boots with. *)
Definition runEvents (evs : list RegistryEvent) : Registry :=
  fold_left applyEvent evs [].

(** Whether the latest call that names the pair of an identity and a
    connection id added it. This reads the calls, not the sockets: an id
    that is removed under another identity stays added under this one.
    [latestFirst] lists the calls newest first. *)
Fixpoint lastCallAdds (latestFirst : list RegistryEvent)
    (identity connId : JsString) : bool :=
  match latestFirst with
  | [] => false
  | ConnAdd i c :: older =>
      if decide (i = identity ∧ c = connId) then true
      else lastCallAdds older identity connId
  | ConnRemove i c :: older =>
      if decide (i = identity ∧ c = connId) then false
      else lastCallAdds older identity connId
  end.

Definition addedLast (evs : list RegistryEvent)
    (identity connId : JsString) : bool :=
  lastCallAdds (rev evs) identity connId.

(** What the registry holds for an identity, against the calls. *)
Definition agrees (evs : list RegistryEvent) (n : JsString) : Prop :=
  match oget n (runEvents evs) with
  | Some set => set ≠ [] ∧ ∀ s, s ∈ set ↔ addedLast evs n s = true
  | None => ∀ s, addedLast evs n s = false
  end.

(** ** Classification of notices (specification, section 7) *)

(** The notices that report an insufficient tier or a protected target. *)
Definition isAuthorizationError (n : Notice) : bool :=
  match n with
  | NAdminOnly | NPrivilegedOnly | NCannotMuteAdmin | NCannotBanAdmin
  | NCannotBanPrivilegedIp | NCannotIpbanPrivileged => true
  | _ => false
  end.

(** ** Concrete scenarios *)

Definition alice : JsString := u16 "alice".
Definition bob : JsString := u16 "bob".
Definition carol : JsString := u16 "carol".
Definition root : JsString := u16 "root".
Definition moderator : JsString := u16 "mod".

Definition sidA : JsString := u16 "sA".
Definition sidB : JsString := u16 "sB".
Definition sidB0 : JsString := u16 "sB0".
Definition sidM : JsString := u16 "sM".
Definition sidR : JsString := u16 "sR".

(** An environment in which the store answers and never rejects, with
    [root] the only privileged administrator and a history cap of 3. *)
Definition sampleEnv : Env :=
  {| MAX_HISTORY := 3;
     ADMIN_USERS := [root];
     EXTRA_ADMIN_PASSWORD := Some (u16 "sesame");
     sockets := {[sidA]} ∪ {[sidB]} ∪ {[sidM]} ∪ {[sidR]};
     clientIp := u16 "10.0.0.5";
     nowCheck := 1000000;
     nowRemaining := 1000000;
     nowMute := 1000000;
     prmId := u16 "p1";
     prmTimestamp := u16 "2025-12-05T00:00:00.000Z";
     msgId := u16 "m1";
     msgTimestamp := u16 "2025-12-05T00:00:00.000Z";
     resultId := u16 "m2";
     resultTimestamp := u16 "2025-12-05T00:00:00.001Z";
     mathRandom := 1 # 4;
     rejects := fun _ => false;
     isUsingDatabase := true;
     getDbError := [];
     isIpBanned := false;
     loginAnswer :=
       LoginOk {| account_displayName := bob; account_isAdmin := false;
                  account_color := None; account_statusText := [] |};
     tokenAnswer :=
       LoginOk {| account_displayName := bob; account_isAdmin := false;
                  account_color := None; account_statusText := [] |};
     signupAnswer := [];
     removeIpBanAnswer := false;
     allIpBans := [];
     getMessagesAnswer := None;
     privateMessagesAnswer := [];
     allPrivateMessagesAnswer := [];
     userIpHistoryAnswer := [] |}.

Definition emptyState : State :=
  {| users := {| own := ∅; builtinColor := ∅ |}; messages := [];
     onlineUsers := ∅; userSockets := [];
     adminUsers := ∅; mutedUsers := ∅; bannedUsers := ∅;
     userStatusMap := []; userIpMap := [] |}.

(** [alice], [bob], the session administrator [mod] and the privileged
    administrator [root] are online, one socket each; [mod] holds the
    admin flag, [root] logged in without it. *)
Definition roomState : State :=
  {| users := {| own := {[ alice := {| user_color := Some (u16 "#123456") |} ]};
                 builtinColor := ∅ |};
     messages := [];
     onlineUsers :=
       {[ sidA := alice; sidB := bob; sidM := moderator; sidR := root ]};
     userSockets :=
       [ (alice, [sidA]); (bob, [sidB]); (moderator, [sidM]);
         (root, [sidR]) ];
     adminUsers := {[ sidM ]};
     mutedUsers := ∅;
     bannedUsers := ∅;
     userStatusMap := [ (bob, u16 "hi") ];
     userIpMap :=
       [ (alice, u16 "10.0.0.4"); (bob, u16 "10.0.0.5");
         (moderator, u16 "10.0.0.6"); (root, u16 "10.0.0.7") ] |}.

Definition connOf (sid user : JsString) : Conn :=
  {| socket_id := sid; currentUser := Some user; currentAccount := None |}.

Definition freshConn (sid : JsString) : Conn :=
  {| socket_id := sid; currentUser := None; currentAccount := None |}.

Definition accountOf (name : JsString) : Account :=
  {| account_displayName := name; account_isAdmin := false;
     account_color := None; account_statusText := [] |}.

(** [sampleEnv] with the token resolving to [name]. *)
Definition envFor (name : JsString) : Env :=
  {| MAX_HISTORY := MAX_HISTORY sampleEnv;
     ADMIN_USERS := ADMIN_USERS sampleEnv;
     EXTRA_ADMIN_PASSWORD := EXTRA_ADMIN_PASSWORD sampleEnv;
     sockets := sockets sampleEnv;
     clientIp := clientIp sampleEnv;
     nowCheck := nowCheck sampleEnv;
     nowRemaining := nowRemaining sampleEnv;
     nowMute := nowMute sampleEnv;
     prmId := prmId sampleEnv;
     prmTimestamp := prmTimestamp sampleEnv;
     msgId := msgId sampleEnv;
     msgTimestamp := msgTimestamp sampleEnv;
     resultId := resultId sampleEnv;
     resultTimestamp := resultTimestamp sampleEnv;
     mathRandom := mathRandom sampleEnv;
     rejects := rejects sampleEnv;
     isUsingDatabase := true;
     getDbError := [];
     isIpBanned := false;
     loginAnswer := LoginOk (accountOf name);
     tokenAnswer := LoginOk (accountOf name);
     signupAnswer := [];
     removeIpBanAnswer := false;
     allIpBans := [];
     getMessagesAnswer := None;
     privateMessagesAnswer := [];
     allPrivateMessagesAnswer := [];
     userIpHistoryAnswer := [] |}.

(** A run of the handlers from the empty state: [bob] logs in on [sB0];
    the same socket then logs in as [carol] without logging out, and
    disconnects; [bob] logs in again on [sB]; [mod] logs in on [sM] with
    the admin password. The registry keeps [sB0] under [bob]. *)
Definition staleRoom : State :=
  let '(c1, s1, _) :=
    tokenLogin (envFor bob) (freshConn sidB0) (u16 "t-bob") emptyState in
  let '(c2, s2, _) := tokenLogin (envFor carol) c1 (u16 "t-carol") s1 in
  let '(_, s3, _) := disconnect sampleEnv c2 s2 in
  let '(_, s4, _) :=
    tokenLogin (envFor bob) (freshConn sidB) (u16 "t-bob") s3 in
  let '(_, s5, _) :=
    accountLogin (envFor moderator) (freshConn sidM) moderator (u16 "pw")
      true (u16 "sesame") s4 in
  s5.

(** The room of [roomState] after [bob] was muted until 1005000. *)
Definition mutedRoom : State :=
  set_mutedUsers (<[bob := 1005000]> (mutedUsers roomState)) roomState.

Definition sampleMessage (id : JsString) : Message :=
  {| msg_id := id; msg_username := Person alice; msg_message := Typed [];
     msg_color := black; msg_timestamp := []; msg_replyTo := None;
     msg_edited := false; msg_isAdmin := Some false;
     msg_isCommandResult := false; msg_statusText := Some [] |}.

(** [roomState] with a full ring (the cap of [sampleEnv] is 3). *)
Definition fullRoom : State :=
  set_messages [sampleMessage (u16 "a"); sampleMessage (u16 "b");
                sampleMessage (u16 "c")] roomState.

(** Every packet among the effects goes to the one socket [sid]. *)
Definition sentOnlyTo (sid : JsString) (out : list Effect) : Prop :=
  ∀ e, e ∈ out →
       match e with
       | ToSocket s _ => s = sid
       | ToAll _ | ToOthers _ _ => False
       | _ => True
       end.

(** Replies that report a failure. *)
Definition isFailure (r : Reply) : bool :=
  match r with
  | ReplyError _ | ReplyNoDatabase _ | ReplyStore _ => true
  | _ => false
  end.

(** [roomState] after [bob] was banned and removed. *)
Definition bannedRoom : State :=
  set_bannedUsers ({[bob]} ∪ bannedUsers roomState)
    (set_userSockets (odelete bob (userSockets roomState)) roomState).

(** ** Sessions

    Logins, logouts and disconnects of sockets, run through the handlers
    with a store that accepts every call. *)

Inductive SessionEvent :=
  | Login (sid name : JsString)   (* the socket completes a token login *)
  | Logout (sid : JsString)       (* [accountLogout], without a token *)
  | Close (sid : JsString).       (* the socket disconnects *)

(** The closure variables of a socket: those of a fresh connection until a
    handler has run on it. *)
Definition connAt (conns : gmap JsString Conn) (sid : JsString) : Conn :=
  default (freshConn sid) (conns !! sid).

(** The closure variables of the open sockets, and the shared state. *)
Definition playEvent (room : gmap JsString Conn * State) (e : SessionEvent)
    : gmap JsString Conn * State :=
  let '(conns, st) := room in
  match e with
  | Login sid name =>
      let '(conn', st', _) :=
        tokenLogin (envFor name) (connAt conns sid) (u16 "token") st in
      (<[sid := conn']> conns, st')
  | Logout sid =>
      let '(conn', st', _) := accountLogout sampleEnv (connAt conns sid) [] st in
      (<[sid := conn']> conns, st')
  | Close sid =>
      let '(_, st', _) := disconnect sampleEnv (connAt conns sid) st in
      (delete sid conns, st')
  end.

(** The events, oldest first, from the state the server boots with. *)
Definition play (evs : list SessionEvent) : gmap JsString Conn * State :=
  fold_left playEvent evs (∅, emptyState).

(** Written from the specification, not from the code: the identity a
    socket is connected as is the one of its latest login, unless it was
    logged out or closed since. [latestFirst] lists the events newest
    first. *)
Fixpoint spec_identityOf (latestFirst : list SessionEvent) (sid : JsString)
    : option JsString :=
  match latestFirst with
  | [] => None
  | Login s name :: older =>
      if decide (s = sid) then Some name else spec_identityOf older sid
  | Logout s :: older | Close s :: older =>
      if decide (s = sid) then None else spec_identityOf older sid
  end.

Definition socketOf (e : SessionEvent) : JsString :=
  match e with Login sid _ | Logout sid | Close sid => sid end.

(** Written from the specification: at least one connection of the
    identity is currently open. *)
Definition spec_hasOpenConnection (evs : list SessionEvent)
    (identity : JsString) : bool :=
  existsb (fun sid =>
             bool_decide (spec_identityOf (rev evs) sid = Some identity))
    (map socketOf evs).

(** [bob] logs in on [sB0]; the same socket logs in as [carol] and is
    closed; [alice] logs in on [sA]. *)
Definition afterRelogin : State :=
  snd (play [Login sidB0 bob; Login sidB0 carol; Close sidB0;
             Login sidA alice]).

(** ** Vocabulary of the further properties *)

(** What [processCommand] may do to the outside world for a sender without
    any privilege: persist a private message or a color, and write a
    private message, its monitor copy, its confirmation or a profile update
    to single sockets. *)
Definition userLevelEffect (e : Effect) : bool :=
  match e with
  | Store (DbAddPrivateMessage _) | Store (DbUpdateUser _ _) => true
  | ToSocket _ p =>
      match p with
      | PPrivateMessage _ | PPrivateMessageMonitor _
      | PPrivateMessageSent _ _ _ _ | PProfileUpdated _ => true
      | _ => false
      end
  | _ => false
  end.

(** What a line sent by such a sender may do: the above, and a room
    message that is persisted and broadcast, a notice to the sender or to
    the room, and the callback. *)
Definition plainSenderEffect (e : Effect) : bool :=
  userLevelEffect e
  || match e with
     | Store (DbAddMessage _) | ToSocket _ (PSystemMessage _)
     | ToAll (PSystemMessage _) | ToAll (PMessage _) | Callback _ => true
     | _ => false
     end.

(** The fields of the state that presence and moderation live in. *)
Definition samePresenceAndBans (a b : State) : Prop :=
  onlineUsers a = onlineUsers b ∧ userSockets a = userSockets b
  ∧ adminUsers a = adminUsers b ∧ bannedUsers a = bannedUsers b
  ∧ userStatusMap a = userStatusMap b ∧ userIpMap a = userIpMap b.

(** The loop of [drawFortune] in exact arithmetic. *)
Fixpoint exactLoop (random : Q) (fs : list (Fortune * Z)) : option Fortune :=
  match fs with
  | [] => None
  | (f, w) :: rest =>
      let random' := (random - inject_Z w)%Q in
      if Qle_bool random' (inject_Z 0) then Some f else exactLoop random' rest
  end.

(** A double from 0 to [2 ^ 53] whose unit in the last place is at most
    1. *)
Definition smallDouble (d : Q) : Prop :=
  ∃ m k, (d == inject_Z m * pow2 k)%Q ∧ 0 ≤ m ≤ 2 ^ 53 ∧ -1074 ≤ k ≤ 0.

(** [0.2], the double. *)
Definition oneFifth : Q := (3602879701896397 # 18014398509481984)%Q.



(** The whole state but the message ring. *)
Definition sameButMessages (a b : State) : Prop :=
  users a = users b ∧ onlineUsers a = onlineUsers b
  ∧ userSockets a = userSockets b ∧ adminUsers a = adminUsers b
  ∧ mutedUsers a = mutedUsers b ∧ bannedUsers a = bannedUsers b
  ∧ userStatusMap a = userStatusMap b ∧ userIpMap a = userIpMap b.

(** The moderation and presence part of the state: everything but the
    [users] table. *)
Definition sameButUsers (a b : State) : Prop :=
  messages a = messages b ∧ onlineUsers a = onlineUsers b
  ∧ userSockets a = userSockets b ∧ adminUsers a = adminUsers b
  ∧ mutedUsers a = mutedUsers b ∧ bannedUsers a = bannedUsers b
  ∧ userStatusMap a = userStatusMap b ∧ userIpMap a = userIpMap b.

(** [sampleEnv] with another random number. *)
Definition envWithRandom (r : Q) : Env :=
  {| MAX_HISTORY := MAX_HISTORY sampleEnv;
     ADMIN_USERS := ADMIN_USERS sampleEnv;
     EXTRA_ADMIN_PASSWORD := EXTRA_ADMIN_PASSWORD sampleEnv;
     sockets := sockets sampleEnv;
     clientIp := clientIp sampleEnv;
     nowCheck := nowCheck sampleEnv;
     nowRemaining := nowRemaining sampleEnv;
     nowMute := nowMute sampleEnv;
     prmId := prmId sampleEnv;
     prmTimestamp := prmTimestamp sampleEnv;
     msgId := msgId sampleEnv;
     msgTimestamp := msgTimestamp sampleEnv;
     resultId := resultId sampleEnv;
     resultTimestamp := resultTimestamp sampleEnv;
     mathRandom := r;
     rejects := rejects sampleEnv;
     isUsingDatabase := true;
     getDbError := [];
     isIpBanned := false;
     loginAnswer := loginAnswer sampleEnv;
     tokenAnswer := tokenAnswer sampleEnv;
     signupAnswer := [];
     removeIpBanAnswer := false;
     allIpBans := [];
     getMessagesAnswer := None;
     privateMessagesAnswer := [];
     allPrivateMessagesAnswer := [];
     userIpHistoryAnswer := [] |}.

(** What stands behind a call of [db.addIpBan]: a named target that is not
    privileged and whose cached address is the one banned, or a literal
    address whose first holder in the cache, if any, is not privileged. *)
Definition ipBanJustified (env : Env) (st : State) (ip : JsString)
    (reason : Notice) : Prop :=
  match reason with
  | NReasonUser target =>
      isPrivileged env target = false ∧ oget target (userIpMap st) = Some ip
  | NReasonDirect affected =>
      testIpv4 ip || includes ip (u16 ":") = true
      ∧ ∀ name, affected = Some name →
                isPrivileged env name = false
                ∧ find (λ e, bool_decide (snd e = ip)) (userIpMap st)
                  = Some (name, ip)
  | _ => False
  end.

(** The message object a chat line becomes (lines 951-961). *)
Definition chatLine (env : Env) (conn : Conn) (st : State) (user text : JsString)
    (replyTo : option JsString) : Message :=
  let isAdmin := bool_decide (socket_id conn ∈ adminUsers st) in
  {| msg_id := msgId env; msg_username := Person (shownName isAdmin user);
     msg_message := Typed text;
     msg_color := accountColor conn st;
     msg_timestamp := msgTimestamp env; msg_replyTo := orNull replyTo;
     msg_edited := false; msg_isAdmin := Some isAdmin;
     msg_isCommandResult := false;
     msg_statusText := Some (default [] (oget user (userStatusMap st))) |}.

(** [roomState] with a mute of [bob] that ran out at 999000. *)
Definition expiredRoom : State :=
  set_mutedUsers (<[bob := 999000]> (mutedUsers roomState)) roomState.


(** [envFor name] with a store that rejects [saveUserIpHistory] and nothing
    else. *)
Definition envSaveFails (name : JsString) : Env :=
  {| MAX_HISTORY := MAX_HISTORY sampleEnv;
     ADMIN_USERS := ADMIN_USERS sampleEnv;
     EXTRA_ADMIN_PASSWORD := EXTRA_ADMIN_PASSWORD sampleEnv;
     sockets := sockets sampleEnv;
     clientIp := clientIp sampleEnv;
     nowCheck := nowCheck sampleEnv;
     nowRemaining := nowRemaining sampleEnv;
     nowMute := nowMute sampleEnv;
     prmId := prmId sampleEnv;
     prmTimestamp := prmTimestamp sampleEnv;
     msgId := msgId sampleEnv;
     msgTimestamp := msgTimestamp sampleEnv;
     resultId := resultId sampleEnv;
     resultTimestamp := resultTimestamp sampleEnv;
     mathRandom := mathRandom sampleEnv;
     rejects := fun call => match call with
                            | DbSaveUserIpHistory _ _ => true
                            | _ => false
                            end;
     isUsingDatabase := true;
     getDbError := [];
     isIpBanned := false;
     loginAnswer := LoginOk (accountOf name);
     tokenAnswer := LoginOk (accountOf name);
     signupAnswer := [];
     removeIpBanAnswer := false;
     allIpBans := [];
     getMessagesAnswer := None;
     privateMessagesAnswer := [];
     allPrivateMessagesAnswer := [];
     userIpHistoryAnswer := [] |}.

(** The commands answered with a [command_result]. *)
Definition isGame (c : Command) : bool :=
  match c with COmi | CDice | CCoin => true | _ => false end.

(** The line a game command leaves under the sender's name
    (lines 908-918). *)
Definition commandLine (env : Env) (conn : Conn) (st : State)
    (user : JsString) (said : Notice) : Message :=
  let isAdmin := bool_decide (socket_id conn ∈ adminUsers st) in
  {| msg_id := msgId env; msg_username := Person (shownName isAdmin user);
     msg_message := Canned said;
     msg_color := accountColor conn st;
     msg_timestamp := msgTimestamp env; msg_replyTo := None;
     msg_edited := false; msg_isAdmin := Some isAdmin;
     msg_isCommandResult := false;
     msg_statusText := Some (default [] (oget user (userStatusMap st))) |}.

(** The line with the outcome of a game command (lines 923-932). *)
Definition resultLine (env : Env) (bot : Author) (result : Notice)
    (color : JsString) : Message :=
  {| msg_id := resultId env; msg_username := bot;
     msg_message := Canned result; msg_color := color;
     msg_timestamp := resultTimestamp env; msg_replyTo := None;
     msg_edited := false; msg_isAdmin := None; msg_isCommandResult := true;
     msg_statusText := None |}.

(** ** Deleting one message (server.js, lines 1004-1032) *)

(** Calls of [deleteMessage] into the store. *)
Inductive DeleteCall :=
  | DbGetPrivateMessageById (id : JsString)
  | DbDeletePrivateMessage (id : JsString) (isPrivilegedAdmin : bool)
  | DbDeleteMessage (id displayName : JsString) (isPrivilegedAdmin : bool).

(** What the callback of [deleteMessage] is called with: success, the
    store's own error text, or one of the two default texts. *)
Inductive DeleteReply :=
  | DeleteOk
  | DeleteRefused (error : JsString)
  | DeletePrivateDenied
  | DeleteDenied.

Inductive DeleteEffect :=
  | AskStore (c : DeleteCall)
  | EmitPrivateMessageDeleted (id : JsString)     (* io.emit *)
  | EmitMessageDeleted (id : JsString)            (* io.emit *)
  | Acknowledge (r : DeleteReply).

(** What the store does when [deleteMessage] asks: which calls reject,
    whether [getPrivateMessageById] answers something truthy, the
    [success] and [error] fields of [deletePrivateMessage]'s answer, and
    whether [deleteMessage]'s answer is truthy. *)
Record DeleteStore := {
  deleteRejects : DeleteCall → bool;
  privateMessageFound : bool;
  deletePrivateSuccess : bool;
  deletePrivateError : option JsString;
  deleteSuccess : bool
}.

(** [messages.findIndex(m => m.id === id)]; [None] stands for -1. *)
Fixpoint findIndex (id : JsString) (ms : list Message) : option nat :=
  match ms with
  | [] => None
  | m :: rest =>
      if decide (msg_id m = id) then Some O
      else match findIndex id rest with
           | Some i => Some (S i)
           | None => None
           end
  end.

(** [messages.splice(i, 1)]. *)
Definition splice1 (i : nat) (ms : list Message) : list Message :=
  take i ms ++ drop (S i) ms.

(** [socket.on('deleteMessage')]. [hasCallback] tells whether the client
    passed an acknowledgement function; calling a missing one throws. The
    handler has no [try]: a rejected store call ends the run. *)
Definition deleteMessage (env : Env) (store : DeleteStore) (conn : Conn)
    (id : JsString) (hasCallback : bool) (st : State)
    : Outcome unit * State * list DeleteEffect :=
  let reply (st' : State) (out : list DeleteEffect) (r : DeleteReply) :=
    if hasCallback then (Returned tt, st', out ++ [Acknowledge r])
    else (Threw, st', out) in
  match loggedIn conn with
  | None => (Returned tt, st, [])
  | Some user =>
      let displayName :=
        shownName (bool_decide (socket_id conn ∈ adminUsers st)) user in
      let isPrivilegedAdmin := isPrivileged env user in
      let get := DbGetPrivateMessageById id in
      if deleteRejects store get then (Threw, st, [AskStore get])
      else if privateMessageFound store then
        let del := DbDeletePrivateMessage id isPrivilegedAdmin in
        if deleteRejects store del then (Threw, st, [AskStore get; AskStore del])
        else if negb (deletePrivateSuccess store) then
          reply st [AskStore get; AskStore del]
            match deletePrivateError store with
            | Some error =>
                if truthy error then DeleteRefused error
                else DeletePrivateDenied
            | None => DeletePrivateDenied
            end
        else
          reply st [AskStore get; AskStore del; EmitPrivateMessageDeleted id]
            DeleteOk
      else
        let del := DbDeleteMessage id displayName isPrivilegedAdmin in
        if deleteRejects store del then (Threw, st, [AskStore get; AskStore del])
        else if negb (deleteSuccess store) then
          reply st [AskStore get; AskStore del] DeleteDenied
        else
          let st' :=
            match findIndex id (messages st) with
            | Some msgIndex =>
                set_messages (splice1 msgIndex (messages st)) st
            | None => st
            end in
          reply st' [AskStore get; AskStore del; EmitMessageDeleted id]
            DeleteOk
  end.

(** The ring after [findIndex] and [splice] (lines 1024-1027). *)
Definition spliceFirst (id : JsString) (ms : list Message) : list Message :=
  match findIndex id ms with
  | Some msgIndex => splice1 msgIndex ms
  | None => ms
  end.

(** The messages of a ring with another id, in order. *)
Definition othersThan (id : JsString) (ms : list Message) : list Message :=
  List.filter (fun m => negb (bool_decide (msg_id m = id))) ms.

(** * Properties *)

(** ** Ordered maps and sets *)

Section OrderedMapFacts.
Context {K V : Type} `{EqDecision K}.
Implicit Types (m : list (K * V)) (k : K) (v : V).

Lemma oget_oset m k k' v :
  oget k' (oset k v m) = if decide (k = k') then Some v else oget k' m.
Proof.
  induction m as [|[k0 v0] m IH]; simpl.
  - repeat case_decide; congruence.
  - destruct (decide (k = k0)) as [->|Hne]; simpl.
    + repeat case_decide; congruence.
    + rewrite IH. repeat case_decide; congruence.
Qed.

Lemma oget_odelete m k k' :
  oget k' (odelete k m) = if decide (k = k') then None else oget k' m.
Proof.
  induction m as [|[k0 v0] m IH]; simpl.
  - by case_decide.
  - destruct (decide (k = k0)) as [->|Hne]; simpl.
    + rewrite IH. repeat case_decide; congruence.
    + rewrite IH. repeat case_decide; congruence.
Qed.

Lemma elem_of_okeys m k : k ∈ okeys m ↔ is_Some (oget k m).
Proof.
  induction m as [|[k0 v0] m IH]; simpl.
  - rewrite elem_of_nil. split; [tauto | intros [? [=]]].
  - rewrite elem_of_cons, IH. simpl. case_decide.
    + split; eauto.
    + split; [intros [?|?]; [congruence | done] | auto].
Qed.

Lemma oset_same m k v : oget k m = Some v → oset k v m = m.
Proof.
  induction m as [|[k0 v0] m IH]; simpl; [done|].
  case_decide; [by intros [= ->]; subst | by intros ->%IH].
Qed.

Lemma ohas_true m k : ohas k m = true ↔ is_Some (oget k m).
Proof.
  unfold ohas. destruct (oget k m); split; intros Hx; eauto;
    [discriminate | by destruct Hx].
Qed.
End OrderedMapFacts.

Section OrderedSetFacts.
Context {A : Type} `{EqDecision A}.
Implicit Types (s : list A) (x y : A).

Lemma elem_of_sadd s x y : x ∈ sadd y s ↔ x = y ∨ x ∈ s.
Proof.
  unfold sadd, shas. case_bool_decide as Hin.
  - split; [auto | intros [->|?]; done].
  - rewrite elem_of_app, list_elem_of_singleton. tauto.
Qed.

Lemma elem_of_sdelete s x y : x ∈ sdelete y s ↔ x ≠ y ∧ x ∈ s.
Proof.
  induction s as [|z s IH]; simpl.
  - rewrite elem_of_nil. tauto.
  - case_decide as Hz.
    + subst z. rewrite IH, elem_of_cons. split; [tauto|].
      intros [? [?|?]]; [congruence | done].
    + rewrite !elem_of_cons, IH. split; [|tauto].
      intros [->|[? ?]]; split; auto.
Qed.

Lemma sadd_idempotent s x : sadd x (sadd x s) = sadd x s.
Proof.
  unfold sadd at 1. unfold shas.
  rewrite bool_decide_eq_true_2; [done|]. apply elem_of_sadd. by left.
Qed.

Lemma sadd_not_nil s x : sadd x s ≠ [].
Proof.
  intros Hnil. assert (Hx : x ∈ sadd x s) by (apply elem_of_sadd; by left).
  rewrite Hnil in Hx. by apply elem_of_nil in Hx.
Qed.
End OrderedSetFacts.

(** ** Session registry *)

Lemma oget_addUserSocket (reg : Registry) (n s n' : JsString) :
  oget n' (addUserSocket n s reg) =
  if decide (n = n') then Some (sadd s (default [] (oget n reg)))
  else oget n' reg.
Proof.
  unfold addUserSocket, ohas. destruct (oget n reg) as [set|] eqn:Hn; simpl.
  - rewrite Hn. apply oget_oset.
  - rewrite (oget_oset reg n n), decide_True by done.
    rewrite !oget_oset. by case_decide.
Qed.

Lemma oget_removeUserSocket (reg : Registry) (n s n' : JsString) :
  oget n' (fst (removeUserSocket n s reg)) =
  if decide (n = n') then
    match oget n reg with
    | Some set =>
        match sdelete s set with [] => None | rest => Some rest end
    | None => None
    end
  else oget n' reg.
Proof.
  unfold removeUserSocket. destruct (oget n reg) as [set|] eqn:Hn; simpl.
  - destruct (sdelete s set) as [|c rest] eqn:Hd; simpl.
    + rewrite oget_odelete, oget_oset. by case_decide.
    + apply oget_oset.
  - case_decide; congruence.
Qed.

Lemma runEvents_snoc (evs : list RegistryEvent) (e : RegistryEvent) :
  runEvents (evs ++ [e]) = applyEvent (runEvents evs) e.
Proof. unfold runEvents. by rewrite fold_left_app. Qed.

Lemma addedLast_add (evs : list RegistryEvent) (i c n s : JsString) :
  addedLast (evs ++ [ConnAdd i c]) n s =
  if decide (i = n ∧ c = s) then true else addedLast evs n s.
Proof. unfold addedLast. by rewrite rev_unit. Qed.

Lemma addedLast_remove (evs : list RegistryEvent) (i c n s : JsString) :
  addedLast (evs ++ [ConnRemove i c]) n s =
  if decide (i = n ∧ c = s) then false else addedLast evs n s.
Proof. unfold addedLast. by rewrite rev_unit. Qed.

Lemma registry_agrees (evs : list RegistryEvent) (n : JsString) :
  agrees evs n.
Proof.
  revert n. induction evs as [|e evs IH] using rev_ind; intros n.
  - unfold agrees. simpl. done.
  - unfold agrees. rewrite runEvents_snoc.
    specialize (IH n). unfold agrees in IH.
    destruct e as [i c|i c]; simpl.
    + rewrite oget_addUserSocket. case_decide as Hi.
      * subst i. split; [apply sadd_not_nil|]. intros s.
        rewrite addedLast_add, elem_of_sadd.
        case_decide as Hd.
        { destruct Hd as [_ ->]. split; auto. }
        destruct (oget n (runEvents evs)) as [set|]; simpl.
        -- destruct IH as [_ IH]. rewrite <- IH. split; [|auto].
           intros [->|?]; [exfalso; auto | done].
        -- rewrite IH, elem_of_nil. split; [|done].
           intros [->|[]]. exfalso; auto.
      * destruct (oget n (runEvents evs)) as [set|].
        -- destruct IH as [Hne IH]. split; [done|]. intros s.
           rewrite addedLast_add.
           case_decide as Hd; [by destruct Hd | apply IH].
        -- intros s. rewrite addedLast_add.
           case_decide as Hd; [by destruct Hd | apply IH].
    + rewrite oget_removeUserSocket. case_decide as Hi.
      * subst i. destruct (oget n (runEvents evs)) as [set|].
        -- destruct IH as [_ IH].
           assert (Hmem : ∀ s, s ∈ sdelete c set ↔
                     addedLast (evs ++ [ConnRemove n c]) n s = true).
           { intros s. rewrite addedLast_remove, elem_of_sdelete.
             case_decide as Hd.
             - destruct Hd as [_ ->]. split; [tauto | done].
             - rewrite IH. split; [tauto|]. intros Hs. split; [|done].
               intros ->. auto. }
           destruct (sdelete c set) as [|c0 rest] eqn:Hd.
           ++ intros s. specialize (Hmem s). rewrite elem_of_nil in Hmem.
              destruct (addedLast _ n s); [exfalso; by apply Hmem | done].
           ++ split; [done|]. apply Hmem.
        -- intros s. rewrite addedLast_remove.
           case_decide; [done | apply IH].
      * destruct (oget n (runEvents evs)) as [set|].
        -- destruct IH as [Hne IH]. split; [done|]. intros s.
           rewrite addedLast_remove.
           case_decide as Hd; [by destruct Hd | apply IH].
        -- intros s. rewrite addedLast_remove.
           case_decide as Hd; [by destruct Hd | apply IH].
Qed.

Lemma addUserSocket_idempotent (reg : Registry) (n s : JsString) :
  addUserSocket n s (addUserSocket n s reg) = addUserSocket n s reg.
Proof.
  assert (Hget : oget n (addUserSocket n s reg)
                 = Some (sadd s (default [] (oget n reg)))).
  { rewrite oget_addUserSocket. by rewrite decide_True. }
  unfold addUserSocket at 1. unfold ohas. rewrite Hget. simpl.
  rewrite Hget, sadd_idempotent. by apply oset_same.
Qed.

(** The two registry functions by themselves: after any sequence of
    calls an identity is listed exactly when the latest call for one of
    its pairs was an add; no identity is registered with an empty set;
    adding an id twice is the same as adding it once; and removing the only
    id of an identity deletes its entry and reports the last connection.
    Whether the ids under an identity are its open connections depends on
    the handlers that make the calls. *)
Lemma registry_follows_calls (evs : list RegistryEvent) (identity : JsString) :
  (identity ∈ getUniqueOnlineUsers (runEvents evs)
   ↔ ∃ connId, addedLast evs identity connId = true)
  ∧ (∀ set, oget identity (runEvents evs) = Some set → set ≠ [])
  ∧ (∀ connId,
       addUserSocket identity connId
         (addUserSocket identity connId (runEvents evs))
       = addUserSocket identity connId (runEvents evs))
  ∧ (∀ connId,
       oget identity (runEvents evs) = Some [connId] →
       snd (removeUserSocket identity connId (runEvents evs)) = true
       ∧ identity ∉ getUniqueOnlineUsers
                      (fst (removeUserSocket identity connId (runEvents evs)))).
Proof.
  pose proof (registry_agrees evs identity) as Hag. unfold agrees in Hag.
  split; [split|split; [|split]].
  - unfold getUniqueOnlineUsers. rewrite elem_of_okeys. intros [set Hset].
    rewrite Hset in Hag. destruct Hag as [Hne Hmem].
    destruct set as [|c rest]; [done|]. exists c. apply Hmem. by left.
  - intros [c Hc]. unfold getUniqueOnlineUsers. rewrite elem_of_okeys.
    destruct (oget identity (runEvents evs)); [eauto|].
    rewrite Hag in Hc. done.
  - intros set Hset. rewrite Hset in Hag. tauto.
  - intros c. apply addUserSocket_idempotent.
  - intros c Hone. split.
    + unfold removeUserSocket. rewrite Hone. simpl. by rewrite decide_True.
    + unfold getUniqueOnlineUsers. rewrite elem_of_okeys.
      rewrite oget_removeUserSocket, decide_True, Hone by done. simpl.
      rewrite decide_True by done. simpl. intros [? [=]].
Qed.

(** The handlers reach the registry through these two functions only: a
    completed login is an add, a logout or a disconnect is a remove. *)
Lemma completeLogin_registers (env : Env) (conn : Conn) (account : Account)
    (failure : Notice) (st : State) :
  rejects env (DbSaveUserIpHistory (account_displayName account)
                 (clientIp env)) = false →
  userSockets (snd (fst (completeLogin env conn account failure st)))
  = addUserSocket (account_displayName account) (socket_id conn)
      (userSockets st).
Proof.
  intros Hok. unfold completeLogin. rewrite Hok.
  destruct (rejects env DbGetMessages), (getMessagesAnswer env),
    (account_isAdmin account), (truthy (account_statusText account));
    reflexivity.
Qed.

Lemma leaveRoom_unregisters (env : Env) (conn : Conn) (st : State)
    (user : JsString) :
  loggedIn conn = Some user →
  userSockets (snd (fst (leaveRoom env conn st)))
  = fst (removeUserSocket user (socket_id conn) (userSockets st)).
Proof.
  intros Hu. unfold leaveRoom. rewrite Hu. simpl.
  by destruct (removeUserSocket user (socket_id conn) (userSockets st))
    as [us []].
Qed.

(** ** Mute check *)

Lemma ceilDiv_spec (x d : Z) :
  0 < d → d * (ceilDiv x d - 1) < x ≤ d * ceilDiv x d.
Proof.
  intros Hd. unfold ceilDiv.
  pose proof (Z.mul_div_le (- x) d Hd).
  pose proof (Z.mul_succ_div_gt (- x) d Hd).
  lia.
Qed.

Lemma checkMuted_absent (env : Env) (user : JsString) (st : State) :
  mutedUsers st !! user = None → checkMuted env user st = (NotMuted, st).
Proof. intros Hno. unfold checkMuted. by rewrite Hno. Qed.

Lemma checkMuted_before (env : Env) (user : JsString) (st : State)
    (until : Z) :
  mutedUsers st !! user = Some until → nowCheck env < until →
  checkMuted env user st
  = (IsMuted (ceilDiv (until - nowRemaining env) 1000), st).
Proof.
  intros Hm Hlt. unfold checkMuted. rewrite Hm.
  by rewrite (proj2 (Z.ltb_lt _ _) Hlt).
Qed.

Lemma checkMuted_after (env : Env) (user : JsString) (st : State)
    (until : Z) :
  mutedUsers st !! user = Some until → until ≤ nowCheck env →
  checkMuted env user st
  = (NotMuted, set_mutedUsers (delete user (mutedUsers st)) st).
Proof.
  intros Hm Hge. unfold checkMuted. rewrite Hm.
  by rewrite (proj2 (Z.ltb_ge _ _) Hge).
Qed.

(** C3. With a mute stored for [user] with expiry [t0 + d * 1000]: a check
    whose clock reading is before the expiry answers muted, with the
    remaining milliseconds rounded up to seconds, and changes nothing; a
    check at or after the expiry answers not muted and deletes the entry;
    a check of an identity without an entry answers not muted and changes
    nothing. *)
Theorem mute_expiry (env : Env) (st : State) (user : JsString) (t0 d : Z) :
  let expiry := t0 + d * 1000 in
  let muted := set_mutedUsers (<[user := expiry]> (mutedUsers st)) st in
  let remaining := ceilDiv (expiry - nowRemaining env) 1000 in
  (nowCheck env < expiry →
     checkMuted env user muted = (IsMuted remaining, muted)
     ∧ 1000 * (remaining - 1) < expiry - nowRemaining env ≤ 1000 * remaining)
  ∧ (expiry ≤ nowCheck env →
     checkMuted env user muted
     = (NotMuted, set_mutedUsers (delete user (mutedUsers muted)) muted)
     ∧ mutedUsers (snd (checkMuted env user muted)) !! user = None)
  ∧ (∀ other s0,
       mutedUsers s0 !! other = None →
       checkMuted env other s0 = (NotMuted, s0)).
Proof.
  intros expiry muted remaining.
  assert (Hm : mutedUsers muted !! user = Some expiry).
  { unfold muted. simpl. apply lookup_insert_eq. }
  split; [|split].
  - intros Hlt. split; [by apply checkMuted_before|].
    apply ceilDiv_spec. lia.
  - intros Hge. rewrite (checkMuted_after env user muted expiry Hm Hge).
    split; [done|]. simpl. apply lookup_delete_eq.
  - intros other s0. apply checkMuted_absent.
Qed.

(** The [/mute] handler stores exactly that expiry. *)
Lemma mute_stores_expiry (env : Env) (command actor socket : JsString)
    (st : State) (target seconds : JsString) (rest : list JsString)
    (d : Z) (set : list JsString) :
  commandOf (commandWord command) = Some CMute →
  commandArgs command = target :: seconds :: rest →
  parseInt seconds = Some d → 0 < d →
  oget target (userSockets st) = Some set →
  anyAdminSocket st set = false →
  processCommand env command actor socket true st
  = (Returned (Some (ResSystem (NMuted target d))),
     set_mutedUsers (<[target := nowMute env + d * 1000]> (mutedUsers st)) st,
     []).
Proof.
  intros Hc Ha Hp Hd Hset Hadm. unfold processCommand.
  rewrite Hc, Ha, Hp. simpl.
  rewrite (proj2 (Z.leb_gt _ _) Hd).
  rewrite bool_decide_eq_true_2
    by (unfold getUniqueOnlineUsers; apply elem_of_okeys; eauto).
  simpl. by rewrite Hset, Hadm.
Qed.

(** ** Muted senders *)

(** C5. A send by a logged-in, muted identity, chat line or command alike,
    stops at the mute check: the notice goes to the sender's socket, the callback
    reports the mute, and the state is what it was. *)
Theorem muted_send_rejected (env : Env) (conn : Conn) (message : JsString)
    (replyTo : option JsString) (st : State) (user : JsString) (until : Z) :
  loggedIn conn = Some user →
  mutedUsers st !! user = Some until →
  nowCheck env < until →
  sendMessage env conn message replyTo st
  = (st,
     [ToSocket (socket_id conn)
        (PSystemMessage
           (NYouAreMuted (ceilDiv (until - nowRemaining env) 1000)));
      Callback (ReplyError NMutedNow)]).
Proof.
  intros Hu Hm Hlt. unfold sendMessage. rewrite Hu.
  by rewrite (checkMuted_before env user st until Hm Hlt).
Qed.

Lemma muted_send_rejected_witness :
  sendMessage sampleEnv (connOf sidB bob) (u16 "/ban alice") None mutedRoom
  = (mutedRoom,
     [ToSocket sidB (PSystemMessage (NYouAreMuted 5));
      Callback (ReplyError NMutedNow)]).
Proof.
  apply (muted_send_rejected sampleEnv (connOf sidB bob) (u16 "/ban alice")
           None mutedRoom bob 1005000).
  - reflexivity.
  - vm_compute. reflexivity.
  - vm_compute. reflexivity.
Defined.

(** ** Message ring *)

Lemma messages_addMessageToStorage (env : Env) (m : Message) (st : State) :
  messages (snd (fst (addMessageToStorage env m st)))
  = pushMessage (MAX_HISTORY env) m (messages st).
Proof. unfold addMessageToStorage. by destruct (rejects env _). Qed.

(** C6. A ring within the cap stays within the cap after an append; below
    the cap the message is appended, at the cap the oldest entry is
    dropped and the others keep their order. *)
Theorem ring_bounded (env : Env) (m : Message) (st : State) :
  (length (messages st) ≤ MAX_HISTORY env)%nat →
  let after := messages (snd (fst (addMessageToStorage env m st))) in
  (length after ≤ MAX_HISTORY env)%nat
  ∧ ((length (messages st) < MAX_HISTORY env)%nat →
     after = messages st ++ [m])
  ∧ (length (messages st) = MAX_HISTORY env →
     after = tl (messages st ++ [m])
     ∧ ∀ oldest rest, messages st = oldest :: rest → after = rest ++ [m]).
Proof.
  intros Hcap after. unfold after. rewrite messages_addMessageToStorage.
  unfold pushMessage. rewrite length_app. simpl.
  destruct (Nat.ltb_spec (MAX_HISTORY env) (length (messages st) + 1))
    as [Hfull|Hroom].
  - assert (Heq : length (messages st) = MAX_HISTORY env) by lia.
    split; [|split].
    + destruct (messages st) as [|x ring]; simpl in *; [lia|].
      rewrite length_app. simpl. lia.
    + lia.
    + intros _. split; [done|]. by intros oldest rest ->.
  - split; [|split].
    + rewrite length_app. simpl. lia.
    + done.
    + lia.
Qed.

Lemma ring_bounded_witness :
  let after :=
    messages (snd (fst (addMessageToStorage sampleEnv
                          (sampleMessage (u16 "d")) fullRoom))) in
  (length after ≤ 3)%nat
  ∧ ((3 < 3)%nat → after = messages fullRoom ++ [sampleMessage (u16 "d")])
  ∧ (3%nat = 3%nat →
     after = tl (messages fullRoom ++ [sampleMessage (u16 "d")])
     ∧ ∀ oldest rest,
         messages fullRoom = oldest :: rest →
         after = rest ++ [sampleMessage (u16 "d")]).
Proof.
  apply (ring_bounded sampleEnv (sampleMessage (u16 "d")) fullRoom).
  simpl. lia.
Defined.

(** ** Private messages *)

Lemma lookupUser_missing (u : UsersObject) (name : JsString) :
  own u !! name = None → name ∉ objectPrototypeNames → name ≠ u16 "color" →
  lookupUser u name = Missing.
Proof.
  intros Hown Hproto Hcolor. unfold lookupUser. rewrite Hown.
  by rewrite !bool_decide_eq_false_2.
Qed.

Lemma elem_of_flat_map {A B : Type} (f : A → list B) (l : list A) (y : B) :
  y ∈ flat_map f l ↔ ∃ x, x ∈ l ∧ y ∈ f x.
Proof.
  rewrite list_elem_of_In, in_flat_map. split; intros [x [Hx Hy]]; exists x.
  - by rewrite !list_elem_of_In.
  - by rewrite <- !list_elem_of_In.
Qed.

Lemma elem_of_emitToUser (env : Env) (st : State) (name : JsString)
    (p : Packet) (e : Effect) :
  e ∈ emitToUser env st name p
  ↔ ∃ set sid, oget name (userSockets st) = Some set ∧ sid ∈ set
               ∧ sid ∈ sockets env ∧ e = ToSocket sid p.
Proof.
  unfold emitToUser. destruct (oget name (userSockets st)) as [set|].
  - rewrite elem_of_flat_map. split.
    + intros [sid [Hsid He]]. case_bool_decide; [|by apply elem_of_nil in He].
      apply list_elem_of_singleton in He. eauto 10.
    + intros (set' & sid & [= <-] & Hsid & Hlive & ->). exists sid.
      split; [done|]. rewrite bool_decide_eq_true_2 by done.
      by apply list_elem_of_singleton.
  - rewrite elem_of_nil. split; [done|]. by intros (? & ? & [=] & _).
Qed.

Lemma elem_of_emitToPrivileged (env : Env) (st : State) (p : Packet)
    (e : Effect) :
  e ∈ emitToPrivileged env st p
  ↔ ∃ admin, admin ∈ ADMIN_USERS env ∧ e ∈ emitToUser env st admin p.
Proof. unfold emitToPrivileged. apply elem_of_flat_map. Qed.

(** [/prm] with a recipient that is the sender, or that has no entry in
    the registry, answers an error and changes nothing. Otherwise, when the
    store accepts the message, it is persisted, every registered socket of
    the recipient that the transport still knows gets [privateMessage],
    every such socket of every privileged administrator gets
    [privateMessageMonitor] (the recipient included), the only
    [privateMessageSent] goes to the sending socket, and nothing is
    broadcast. The message carries the fresh id, the sender, the
    recipient, the text, the timestamp and the sender's color from
    [users], black when there is none. *)
Lemma prm_routing (env : Env) (command sender socket : JsString)
    (isAdmin : bool) (st : State) (target word : JsString)
    (more : list JsString) :
  commandOf (commandWord command) = Some CPrm →
  commandArgs command = target :: word :: more →
  let text := join 32 (word :: more) in
  let pm :=
    {| pm_id := prmId env; pm_from := sender; pm_to := target;
       pm_message := text;
       pm_color := orBlack (lookupColor (users st)
                              (lookupUser (users st) sender));
       pm_timestamp := prmTimestamp env |} in
  let sent :=
    ToSocket socket
      (PPrivateMessageSent (prmId env) target text (prmTimestamp env)) in
  let run := processCommand env command sender socket isAdmin st in
  (target = sender ∨ oget target (userSockets st) = None →
   ∃ n, run = (Returned (Some (ResError n)), st, []))
  ∧ (target ≠ sender →
     rejects env (DbAddPrivateMessage pm) = false →
     ∀ set, oget target (userSockets st) = Some set →
     ∃ out,
       run = (Returned (Some (ResPrivate (NPrmSent target))), st, out)
       ∧ out = Store (DbAddPrivateMessage pm)
               :: emitToUser env st target (PPrivateMessage pm)
               ++ emitToPrivileged env st (PPrivateMessageMonitor pm)
               ++ [sent]
       ∧ (∀ sid, sid ∈ set → sid ∈ sockets env →
            ToSocket sid (PPrivateMessage pm) ∈ out)
       ∧ (∀ admin sids sid,
            admin ∈ ADMIN_USERS env →
            oget admin (userSockets st) = Some sids →
            sid ∈ sids → sid ∈ sockets env →
            ToSocket sid (PPrivateMessageMonitor pm) ∈ out)
       ∧ (∀ sid id to body ts,
            ToSocket sid (PPrivateMessageSent id to body ts) ∈ out →
            sid = socket)
       ∧ (∀ p, ToAll p ∉ out))
  ∧ (∀ u c, own (users st) !! sender = Some u → user_color u = Some c →
            truthy c = true → pm_color pm = c)
  ∧ (own (users st) !! sender = None → sender ∉ objectPrototypeNames →
     sender ≠ u16 "color" → pm_color pm = black).
Proof.
  intros Hc Ha text pm sent run. unfold run, processCommand.
  rewrite Hc, Ha. fold text.
  change (privateMessageData env st sender target text) with pm.
  split; [|split; [|split]].
  - intros [->|Hoff].
    + destruct (oget sender (userSockets st)); [|eauto].
      rewrite bool_decide_eq_true_2 by done. eauto.
    + rewrite Hoff. eauto.
  - intros Hne Hok set Hset. rewrite Hset.
    rewrite bool_decide_eq_false_2 by done. rewrite Hok.
    eexists. split; [reflexivity|]. split; [reflexivity|].
    repeat split.
    + intros sid Hsid Hlive. apply elem_of_cons. right.
      apply elem_of_app. left. apply elem_of_emitToUser. eauto 10.
    + intros admin sids sid Hadm Hsids Hsid Hlive. apply elem_of_cons. right.
      apply elem_of_app. right. apply elem_of_app. left.
      apply elem_of_emitToPrivileged. exists admin. split; [done|].
      apply elem_of_emitToUser. eauto 10.
    + intros sid id to body ts Hin.
      apply elem_of_cons in Hin as [[=]|Hin].
      apply elem_of_app in Hin as [Hin|Hin].
      { apply elem_of_emitToUser in Hin as (? & ? & _ & _ & _ & [=]). }
      apply elem_of_app in Hin as [Hin|Hin].
      { apply elem_of_emitToPrivileged in Hin as (? & _ & Hin).
        apply elem_of_emitToUser in Hin as (? & ? & _ & _ & _ & [=]). }
      apply list_elem_of_singleton in Hin. unfold sent in Hin. congruence.
    + intros p Hin.
      apply elem_of_cons in Hin as [[=]|Hin].
      apply elem_of_app in Hin as [Hin|Hin].
      { apply elem_of_emitToUser in Hin as (? & ? & _ & _ & _ & [=]). }
      apply elem_of_app in Hin as [Hin|Hin].
      { apply elem_of_emitToPrivileged in Hin as (? & _ & Hin).
        apply elem_of_emitToUser in Hin as (? & ? & _ & _ & _ & [=]). }
      apply list_elem_of_singleton in Hin. unfold sent in Hin. congruence.
  - intros u c Hown Hcol Ht. unfold pm. simpl. unfold lookupUser.
    rewrite Hown. simpl. rewrite Hcol. simpl. unfold colorOr. by rewrite Ht.
  - intros Hown Hproto Hcolor. unfold pm. simpl.
    by rewrite (lookupUser_missing _ _ Hown Hproto Hcolor).
Qed.

Example prm_routing_example :
  ∃ out,
    processCommand sampleEnv (u16 "/prm root hello there") bob sidB false
      roomState
    = (Returned (Some (ResPrivate (NPrmSent root))), roomState, out)
    ∧ ToSocket sidR
        (PPrivateMessage
           (privateMessageData sampleEnv roomState bob root
              (u16 "hello there"))) ∈ out
    ∧ ToSocket sidR
        (PPrivateMessageMonitor
           (privateMessageData sampleEnv roomState bob root
              (u16 "hello there"))) ∈ out.
Proof.
  destruct (prm_routing sampleEnv (u16 "/prm root hello there") bob sidB false
              roomState root (u16 "hello") [u16 "there"]
              eq_refl eq_refl) as (_ & Hok & _).
  destruct (Hok ltac:(vm_compute; congruence) eq_refl [sidR] eq_refl)
    as (out & Hrun & _ & Hdeliver & Hmonitor & _ & _).
  exists out. split; [exact Hrun|]. split.
  - apply Hdeliver; [by apply list_elem_of_singleton|].
    apply (bool_decide_unpack (sidR ∈ sockets sampleEnv)).
    vm_compute. exact I.
  - apply (Hmonitor root [sidR]).
    + by apply list_elem_of_singleton.
    + reflexivity.
    + by apply list_elem_of_singleton.
    + apply (bool_decide_unpack (sidR ∈ sockets sampleEnv)).
      vm_compute. exact I.
Qed.

(** C7. The claim fails on the code for a recipient whose registry entry
    holds closed sockets only (an entry that a login under another name on
    the same socket leaves behind): the recipient has no active connection, yet [/prm] answers success,
    the message is persisted, the sender gets the confirmation, and no
    [privateMessage] is delivered to anyone. The check of line 363 is
    [userSockets.has], not a look at the sockets. *)
Theorem prm_to_closed_recipient (env : Env)
    (command sender socket : JsString) (isAdmin : bool) (st : State)
    (target word : JsString) (more set : list JsString) :
  commandOf (commandWord command) = Some CPrm →
  commandArgs command = target :: word :: more →
  target ≠ sender →
  oget target (userSockets st) = Some set →
  (∀ sid, sid ∈ set → sid ∉ sockets env) →
  let text := join 32 (word :: more) in
  let pm :=
    {| pm_id := prmId env; pm_from := sender; pm_to := target;
       pm_message := text;
       pm_color := orBlack (lookupColor (users st)
                              (lookupUser (users st) sender));
       pm_timestamp := prmTimestamp env |} in
  rejects env (DbAddPrivateMessage pm) = false →
  ∃ out,
    processCommand env command sender socket isAdmin st
    = (Returned (Some (ResPrivate (NPrmSent target))), st, out)
    ∧ Store (DbAddPrivateMessage pm) ∈ out
    ∧ ToSocket socket
        (PPrivateMessageSent (prmId env) target text (prmTimestamp env))
      ∈ out
    ∧ (∀ sid delivered, ToSocket sid (PPrivateMessage delivered) ∉ out).
Proof.
  intros Hc Ha Hne Hset Hclosed text pm Hok. unfold processCommand.
  rewrite Hc, Ha, Hset. fold text.
  change (privateMessageData env st sender target text) with pm.
  rewrite bool_decide_eq_false_2 by done. rewrite Hok.
  eexists. split; [reflexivity|]. split; [apply list_elem_of_here|]. split.
  - apply list_elem_of_further. rewrite !elem_of_app. right. right.
    apply list_elem_of_here.
  - intros sid delivered Hin.
    apply elem_of_cons in Hin as [[=]|Hin].
    apply elem_of_app in Hin as [Hin|Hin].
    { apply elem_of_emitToUser in Hin as (set' & sid' & Hset' & Hsid & Hlive & _).
      rewrite Hset in Hset'. injection Hset' as <-.
      by apply (Hclosed sid'). }
    apply elem_of_app in Hin as [Hin|Hin].
    { apply elem_of_emitToPrivileged in Hin as (? & _ & Hin).
      apply elem_of_emitToUser in Hin as (? & ? & _ & _ & _ & [=]). }
    apply list_elem_of_singleton in Hin. discriminate.
Qed.

(** ** The [/color] command *)

Lemma testColor_spec (s : JsString) :
  testColor s = true
  ↔ ∃ digits, s = 35%N :: digits ∧ (3 ≤ length digits ≤ 6)%nat
              ∧ forallb isHexDigit digits = true.
Proof.
  unfold testColor. destruct s as [|c r].
  - split; [done | by intros (? & [=] & _)].
  - rewrite !andb_true_iff, N.eqb_eq, !Nat.leb_le. split.
    + intros [[[-> ?] ?] ?]. exists r. auto.
    + intros (digits & [= -> ->] & [? ?] & ?). auto.
Qed.

Lemma testColor_truthy (s : JsString) : testColor s = true → truthy s = true.
Proof. by destruct s. Qed.

(** The notice of a color change goes to the whole room, and a sender
    without an entry in [users] is answered with the usage text. *)
Lemma color_notice_is_broadcast :
  ¬ sentOnlyTo sidA
      (snd (sendMessage sampleEnv (connOf sidA alice) (u16 "/color #ff0000")
              None roomState))
  ∧ testColor (u16 "#ff0000") = true
  ∧ sendMessage sampleEnv (connOf sidB bob) (u16 "/color #ff0000") None
      roomState
    = (roomState, [ToSocket sidB (PSystemMessage NUsageColor);
                   Callback ReplyOk]).
Proof.
  split; [|split; [reflexivity | vm_compute; reflexivity]].
  intros Hall.
  apply (Hall (ToAll (PSystemMessage (NColorChanged alice (u16 "#ff0000"))))).
  vm_compute. do 2 apply list_elem_of_further. apply list_elem_of_here.
Qed.

(** What [/color] does for a sender with an own entry in [users], and with
    a malformed argument. *)
Lemma color_with_entry (env : Env) (conn : Conn) (message : JsString)
    (replyTo : option JsString) (st st1 : State) (user : JsString) :
  loggedIn conn = Some user →
  checkMuted env user st = (NotMuted, st1) →
  startsWith message (u16 "/") = true →
  commandOf (commandWord message) = Some CColor →
  let sid := socket_id conn in
  (∀ color rest u,
     commandArgs message = color :: rest →
     testColor color = true →
     own (users st1) !! user = Some u →
     rejects env (DbUpdateUser user color) = false →
     sendMessage env conn message replyTo st
     = (set_users
          {| own := <[user := {| user_color := Some color |}]>
                      (own (users st1));
             builtinColor := builtinColor (users st1) |} st1,
        [Store (DbUpdateUser user color);
         ToSocket sid (PProfileUpdated color);
         ToAll (PSystemMessage (NColorChanged user color));
         Callback ReplyOk]))
  ∧ (commandArgs message = []
     ∨ (∃ color rest, commandArgs message = color :: rest
                      ∧ testColor color = false) →
     sendMessage env conn message replyTo st
     = (st1, [ToSocket sid (PSystemMessage NUsageColor); Callback ReplyOk]))
  ∧ (∀ color,
       testColor color = true
       ↔ ∃ digits, color = 35%N :: digits ∧ (3 ≤ length digits ≤ 6)%nat
                   ∧ forallb isHexDigit digits = true).
Proof.
  intros Hu Hm Hs Hc sid. split; [|split].
  - intros color rest u Ha Ht Hrec Hok.
    unfold sendMessage. rewrite Hu, Hm, Hs. unfold processCommand.
    rewrite Hc, Ha, Ht, (testColor_truthy _ Ht). unfold lookupUser.
    rewrite Hrec. simpl. rewrite Hok. reflexivity.
  - intros Hbad. unfold sendMessage. rewrite Hu, Hm, Hs.
    unfold processCommand. rewrite Hc.
    destruct (commandArgs message) as [|color rest] eqn:Ha; [reflexivity|].
    destruct Hbad as [[=]|(color' & rest' & [= <- <-] & Ht)].
    rewrite Ht, andb_false_r. reflexivity.
  - apply testColor_spec.
Qed.

(** C8. The claim fails on the code for every logged-in sender whose name
    has no entry in [users], the table that is filled at start-up only: a
    [/color] line with a well-formed color is answered with the usage
    text, sent to the sending socket, and nothing is stored or persisted.
    (Names that [Object.prototype] answers for are another matter: see
    [color_on_inherited_name].) *)
Theorem color_needs_table_entry (env : Env) (conn : Conn)
    (message : JsString) (replyTo : option JsString) (st st1 : State)
    (user color : JsString) (rest : list JsString) :
  loggedIn conn = Some user →
  checkMuted env user st = (NotMuted, st1) →
  startsWith message (u16 "/") = true →
  commandOf (commandWord message) = Some CColor →
  commandArgs message = color :: rest →
  testColor color = true →
  own (users st1) !! user = None →
  user ∉ objectPrototypeNames →
  user ≠ u16 "color" →
  sendMessage env conn message replyTo st
  = (st1, [ToSocket (socket_id conn) (PSystemMessage NUsageColor);
           Callback ReplyOk]).
Proof.
  intros Hu Hm Hs Hc Ha Ht Hown Hproto Hcolor.
  unfold sendMessage. rewrite Hu, Hm, Hs. unfold processCommand.
  rewrite Hc, Ha, Ht, (testColor_truthy _ Ht).
  rewrite (lookupUser_missing _ _ Hown Hproto Hcolor). reflexivity.
Qed.

Lemma color_needs_table_entry_witness :
  let run :=
    tokenLogin (envFor carol) (freshConn sidB0) (u16 "t-carol") emptyState in
  sendMessage sampleEnv (fst (fst run)) (u16 "/color #ff0000") None
    (snd (fst run))
  = (snd (fst run),
     [ToSocket sidB0 (PSystemMessage NUsageColor); Callback ReplyOk]).
Proof.
  intros run.
  apply (color_needs_table_entry sampleEnv (fst (fst run))
           (u16 "/color #ff0000") None (snd (fst run)) (snd (fst run)) carol
           (u16 "#ff0000") []); try (vm_compute; reflexivity).
  - apply (bool_decide_unpack (carol ∉ objectPrototypeNames)).
    vm_compute. exact I.
  - vm_compute. congruence.
Defined.

(** The same line from a sender named after a property of
    [Object.prototype] is accepted without an entry: under [constructor]
    the color lands on that function; under [__proto__] it lands on the
    prototype itself, and from then on is the color of every private
    message of a sender whose entry has no color of its own. *)
Example color_on_inherited_name :
  let ctor := u16 "constructor" in
  let proto := u16 "__proto__" in
  let red := u16 "#ff0000" in
  let dave := u16 "dave" in
  let st0 :=
    set_users {| own := {[ dave := {| user_color := None |} ]};
                 builtinColor := ∅ |} emptyState in
  let '(_, st1, out1) :=
    processCommand sampleEnv (u16 "/color #ff0000") ctor sidA false st0 in
  let '(_, st2, _) :=
    processCommand sampleEnv (u16 "/color #ff0000") proto sidB false st0 in
  out1 = [Store (DbUpdateUser ctor red); ToSocket sidA (PProfileUpdated red)]
  ∧ own (users st1) = own (users st0)
  ∧ builtinColor (users st1) !! ctor = Some red
  ∧ prototypeColor (users st2) = Some red
  ∧ pm_color (privateMessageData sampleEnv st0 dave bob []) = black
  ∧ pm_color (privateMessageData sampleEnv st2 dave bob []) = red.
Proof. vm_compute. by split_and!. Qed.

(** ** Signup *)

Lemma includes_app_r (a b pat : JsString) :
  includes b pat = true → includes (a ++ b) pat = true.
Proof.
  intros Hb. induction a as [|c a IH]; simpl; [done|].
  rewrite IH. apply orb_true_r.
Qed.

(** C9. [signup] answers a failure, without asking the store, for every
    name that contains the admin marker, every name outside 1 to 20 code
    units and every password under 4 code units; so whatever run of
    signups reaches the store, no name handed to it contains the marker,
    while the name shown for an admin always does and the name shown for
    anyone else is the registered name itself. *)
Theorem signup_rejects_marker (env : Env) (username password : JsString) :
  (includes username kanrisha = true
   ∨ (length username < 1)%nat ∨ (20 < length username)%nat
   ∨ (length password < 4)%nat →
   ∃ r, signup env username password = [Callback r] ∧ isFailure r = true)
  ∧ (∀ u p, Store (DbSignup u p) ∈ signup env username password →
            u = username ∧ p = password
            ∧ includes u kanrisha = false
            ∧ (1 ≤ length u ≤ 20)%nat ∧ (4 ≤ length p)%nat)
  ∧ (∀ (requests : list (Env * JsString * JsString)) u p,
       Store (DbSignup u p)
         ∈ flat_map (λ '(e, name, pw), signup e name pw) requests →
       includes u kanrisha = false)
  ∧ (∀ name, includes (shownName true name) kanrisha = true)
  ∧ (∀ name, shownName false name = name).
Proof.
  assert (Hone : ∀ e name pw u p,
            Store (DbSignup u p) ∈ signup e name pw →
            u = name ∧ p = pw ∧ includes u kanrisha = false
            ∧ (1 ≤ length u ≤ 20)%nat ∧ (4 ≤ length p)%nat).
  { intros e name pw u p. unfold signup.
    destruct (isUsingDatabase e); simpl.
    2:{ intros Hin. apply list_elem_of_singleton in Hin. done. }
    destruct (Nat.ltb_spec (length name) 1); simpl.
    { rewrite orb_true_r. simpl. intros Hin.
      apply list_elem_of_singleton in Hin. done. }
    destruct (Nat.ltb_spec 20 (length name)); simpl.
    { rewrite orb_true_r. simpl. intros Hin.
      apply list_elem_of_singleton in Hin. done. }
    destruct (truthy name); simpl.
    2:{ intros Hin. apply list_elem_of_singleton in Hin. done. }
    destruct (Nat.ltb_spec (length pw) 4); simpl.
    { rewrite orb_true_r. simpl. intros Hin.
      apply list_elem_of_singleton in Hin. done. }
    destruct (truthy pw); simpl.
    2:{ intros Hin. apply list_elem_of_singleton in Hin. done. }
    destruct (includes name kanrisha) eqn:Hinc.
    { intros Hin. apply list_elem_of_singleton in Hin. done. }
    destruct (rejects e (DbSignup name pw)); intros Hin;
      apply elem_of_cons in Hin as [[= -> ->]|Hin];
      try (apply list_elem_of_singleton in Hin; done);
      repeat split; auto; lia. }
  split; [|split; [|split; [|split]]].
  - intros Hbad. unfold signup.
    destruct (isUsingDatabase env); simpl; [|eauto].
    destruct (Nat.ltb_spec (length username) 1); simpl.
    { rewrite orb_true_r. simpl. eauto. }
    destruct (Nat.ltb_spec 20 (length username)); simpl.
    { rewrite orb_true_r. simpl. eauto. }
    destruct (truthy username); simpl; [|eauto].
    destruct (Nat.ltb_spec (length password) 4); simpl.
    { rewrite orb_true_r. simpl. eauto. }
    destruct (truthy password); simpl; [|eauto].
    destruct Hbad as [Hinc|[?|[?|?]]]; try lia.
    rewrite Hinc. eauto.
  - apply Hone.
  - intros requests u p Hin.
    apply elem_of_flat_map in Hin as ([[e name] pw] & _ & Hin).
    by apply Hone in Hin as (_ & _ & ? & _).
  - intros name. unfold shownName.
    apply includes_app_r. reflexivity.
  - done.
Qed.

(** ** Logins of banned identities *)

(** C10. When the store authenticates a login, by password or by token, as
    an identity that is in the ban set, the handler fails and leaves the
    connection and the whole in-memory state as they were; when the checks
    that precede authentication pass and the store call returns, the
    failure is the ban error. *)
Theorem banned_login_rejected (env : Env) (conn : Conn)
    (username password adminPassword token : JsString) (adminLogin : bool)
    (st : State) (account : Account) :
  account_displayName account ∈ bannedUsers st →
  (loginAnswer env = LoginOk account →
   (∃ out r,
      accountLogin env conn username password adminLogin adminPassword st
      = (conn, st, out ++ [Callback r]) ∧ isFailure r = true)
   ∧ (accountLoginGuards env username password adminLogin adminPassword
      = None →
      rejects env (DbLogin username password) = false →
      accountLogin env conn username password adminLogin adminPassword st
      = (conn, st,
         [Store (DbIsIpBanned (clientIp env));
          Store (DbLogin username password);
          Callback (ReplyError NBannedFromChat)])))
  ∧ (tokenAnswer env = LoginOk account →
     (∃ out r,
        tokenLogin env conn token st = (conn, st, out ++ [Callback r])
        ∧ isFailure r = true)
     ∧ (tokenLoginGuards env token = None →
        rejects env (DbLoginWithToken token) = false →
        tokenLogin env conn token st
        = (conn, st,
           [Store (DbIsIpBanned (clientIp env));
            Store (DbLoginWithToken token);
            Callback (ReplyError NBannedFromChat)]))).
Proof.
  intros Hban. split.
  - intros Hans. split.
    + unfold accountLogin.
      destruct (accountLoginGuards _ _ _ _ _) as [out|] eqn:Hg.
      * unfold accountLoginGuards in Hg.
        repeat match type of Hg with
               | (if ?b then _ else _) = _ => destruct b
               end;
          try discriminate; injection Hg as <-;
          first [ by exists []; eexists | by eexists [_]; eexists ].
      * destruct (rejects env (DbLogin username password)).
        { by eexists [_; _]; eexists. }
        rewrite Hans, bool_decide_eq_true_2 by done.
        by eexists [_; _]; eexists.
    + intros Hg Hok. unfold accountLogin.
      by rewrite Hg, Hok, Hans, bool_decide_eq_true_2.
  - intros Hans. split.
    + unfold tokenLogin.
      destruct (tokenLoginGuards _ _) as [out|] eqn:Hg.
      * unfold tokenLoginGuards in Hg.
        repeat match type of Hg with
               | (if ?b then _ else _) = _ => destruct b
               end;
          try discriminate; injection Hg as <-;
          first [ by exists []; eexists | by eexists [_]; eexists ].
      * destruct (rejects env (DbLoginWithToken token)).
        { by eexists [_; _]; eexists. }
        rewrite Hans, bool_decide_eq_true_2 by done.
        by eexists [_; _]; eexists.
    + intros Hg Hok. unfold tokenLogin.
      by rewrite Hg, Hok, Hans, bool_decide_eq_true_2.
Qed.

Lemma banned_login_rejected_witness :
  accountLogin sampleEnv (freshConn sidB) bob (u16 "hunter2") false []
    bannedRoom
  = (freshConn sidB, bannedRoom,
     [Store (DbIsIpBanned (clientIp sampleEnv));
      Store (DbLogin bob (u16 "hunter2"));
      Callback (ReplyError NBannedFromChat)])
  ∧ tokenLogin sampleEnv (freshConn sidB) (u16 "t-bob") bannedRoom
    = (freshConn sidB, bannedRoom,
       [Store (DbIsIpBanned (clientIp sampleEnv));
        Store (DbLoginWithToken (u16 "t-bob"));
        Callback (ReplyError NBannedFromChat)]).
Proof.
  assert (Hban : account_displayName (accountOf bob) ∈ bannedUsers bannedRoom).
  { apply (bool_decide_unpack
             (account_displayName (accountOf bob) ∈ bannedUsers bannedRoom)).
    vm_compute. exact I. }
  destruct (banned_login_rejected sampleEnv (freshConn sidB) bob
              (u16 "hunter2") [] (u16 "t-bob") false bannedRoom
              (accountOf bob) Hban) as [Hpw Htok].
  split.
  - apply (proj2 (Hpw eq_refl)); reflexivity.
  - apply (proj2 (Htok eq_refl)); reflexivity.
Defined.

(** ** Moderation commands *)

Lemma dropSockets_fields (sids : list JsString) (st : State) :
  let st' := fold_left dropSocket sids st in
  users st' = users st ∧ messages st' = messages st
  ∧ userSockets st' = userSockets st ∧ mutedUsers st' = mutedUsers st
  ∧ bannedUsers st' = bannedUsers st ∧ userStatusMap st' = userStatusMap st
  ∧ userIpMap st' = userIpMap st.
Proof.
  revert st. induction sids as [|sid sids IH]; intros st; simpl; [done|].
  specialize (IH (dropSocket st sid)). simpl in IH. exact IH.
Qed.

Lemma closeSockets_disconnects (env : Env) (why : Notice)
    (sids : list JsString) (st : State) (sid : JsString) :
  sid ∈ sids → sid ∈ sockets env →
  Disconnect sid ∈ snd (closeSockets env why sids st).
Proof.
  intros Hsid Hlive. unfold closeSockets. simpl.
  apply elem_of_flat_map. exists sid. split; [done|].
  rewrite bool_decide_eq_true_2 by done.
  apply list_elem_of_further, list_elem_of_here.
Qed.

(** What a successful [/ban] does, and what it leaves alone: the target
    joins the ban set, every socket of the target that the transport knows
    is closed, the registry and status entries go, the room is told; the
    branch itself does not touch the address cache. *)
Lemma ban_success (env : Env) (command actor socket : JsString) (st : State)
    (target : JsString) (rest set : list JsString) :
  commandOf (commandWord command) = Some CBan →
  commandArgs command = target :: rest →
  oget target (userSockets st) = Some set →
  anyAdminSocket st set && negb (isPrivileged env actor) = false →
  ∃ st' out,
    processCommand env command actor socket true st
    = (Returned (Some (ResSystem (NBanned target))), st', out)
    ∧ target ∈ bannedUsers st'
    ∧ (∀ sid, sid ∈ set → sid ∈ sockets env → Disconnect sid ∈ out)
    ∧ oget target (userSockets st') = None
    ∧ oget target (userStatusMap st') = None
    ∧ (∃ before users,
         out = before ++ [ToAll (PUserLeft target (length users) users)]
         ∧ users = getUniqueOnlineUsers (userSockets st'))
    ∧ userIpMap st' = userIpMap st.
Proof.
  intros Hc Ha Hset Hguard. unfold processCommand. rewrite Hc, Ha. simpl.
  rewrite Hset, Hguard. unfold closeSockets.
  pose proof (dropSockets_fields set
                (set_bannedUsers ({[target]} ∪ bannedUsers st) st)) as Hf.
  simpl in Hf. destruct Hf as (_ & _ & Hus & _ & Hb & Hsm & Hip).
  eexists _, _. split; [reflexivity|]. simpl. repeat split.
  - rewrite Hb. apply elem_of_union. left. by apply elem_of_singleton.
  - intros sid Hsid Hlive. apply elem_of_app. left.
    apply (closeSockets_disconnects env NKicked set st sid Hsid Hlive).
  - rewrite oget_odelete. by rewrite decide_True.
  - rewrite oget_odelete. by rewrite decide_True.
  - eexists _, _. split; reflexivity.
  - exact Hip.
Qed.

(** C1 as stated fails on [/mute] and [/ban]: a session
    administrator mutes and bans the privileged administrator [root], none
    of whose sockets holds the admin flag; and against an offline
    privileged administrator the answer is the not-online notice, which is
    no authorization error. *)
Lemma privileged_target_not_immune :
  isPrivileged sampleEnv moderator = false
  ∧ isPrivileged sampleEnv root = true
  ∧ processCommand sampleEnv (u16 "/mute root 60") moderator sidM true
      roomState
    = (Returned (Some (ResSystem (NMuted root 60))),
       set_mutedUsers (<[root := 1060000]> (mutedUsers roomState)) roomState,
       [])
  ∧ (∃ st' out,
       processCommand sampleEnv (u16 "/ban root") moderator sidM true
         roomState
       = (Returned (Some (ResSystem (NBanned root))), st', out)
       ∧ root ∈ bannedUsers st'
       ∧ oget root (userSockets st') = None)
  ∧ processCommand sampleEnv (u16 "/mute root 60") moderator sidM true
      emptyState
    = (Returned (Some (ResError NNotOnline)), emptyState, [])
  ∧ isAuthorizationError NNotOnline = false.
Proof.
  split; [reflexivity|]. split; [reflexivity|].
  split; [vm_compute; reflexivity|]. split.
  - destruct (ban_success sampleEnv (u16 "/ban root") moderator sidM roomState
                root [] [sidR] eq_refl eq_refl eq_refl eq_refl)
      as (st' & out & Hrun & Hban & _ & Hgone & _).
    eauto.
  - split; reflexivity.
Qed.

Lemma error_answer_inv (n n' : Notice) (st st' : State) (out : list Effect) :
  answer (ResError n') st = (Returned (Some (ResError n)), st', out) →
  st' = st ∧ out = [].
Proof. unfold answer. by intros [= _ <- <-]. Qed.

(** C1, amended. For an actor outside the privileged list: [/ipban]
    always answers the privileged-only error; [/mute] and [/ban] answer the
    admin-only error when the actor's connection lacks the admin flag;
    issued by a session administrator with well-formed arguments against a
    target that is online and has a socket holding the admin flag, they
    answer the cannot-mute and cannot-ban errors. Each of these answers is
    an authorization error, and whenever one of the three commands answers
    an error, the state is what it was and nothing was done to the outside
    world. *)
Theorem moderation_guards (env : Env) (command actor socket : JsString)
    (isAdmin : bool) (st : State) :
  isPrivileged env actor = false →
  let cmd := commandOf (commandWord command) in
  let run := processCommand env command actor socket isAdmin st in
  (cmd = Some CIpban →
   run = (Returned (Some (ResError NPrivilegedOnly)), st, []))
  ∧ (isAdmin = false → cmd = Some CMute ∨ cmd = Some CBan →
     run = (Returned (Some (ResError NAdminOnly)), st, []))
  ∧ (isAdmin = true → cmd = Some CMute →
     ∀ target seconds rest d set,
       commandArgs command = target :: seconds :: rest →
       parseInt seconds = Some d → 0 < d →
       oget target (userSockets st) = Some set →
       anyAdminSocket st set = true →
       run = (Returned (Some (ResError NCannotMuteAdmin)), st, []))
  ∧ (isAdmin = true → cmd = Some CBan →
     ∀ target rest set,
       commandArgs command = target :: rest →
       oget target (userSockets st) = Some set →
       anyAdminSocket st set = true →
       run = (Returned (Some (ResError NCannotBanAdmin)), st, []))
  ∧ (cmd = Some CMute ∨ cmd = Some CBan ∨ cmd = Some CIpban →
     ∀ n st' out,
       run = (Returned (Some (ResError n)), st', out) → st' = st ∧ out = [])
  ∧ isAuthorizationError NPrivilegedOnly = true
  ∧ isAuthorizationError NAdminOnly = true
  ∧ isAuthorizationError NCannotMuteAdmin = true
  ∧ isAuthorizationError NCannotBanAdmin = true.
Proof.
  intros Hactor cmd run. unfold run, cmd, processCommand.
  split; [|split; [|split; [|split; [|split]]]].
  - intros ->. by rewrite Hactor.
  - intros -> [-> | ->]; reflexivity.
  - intros -> -> target seconds rest d set Ha Hp Hd Hset Hadm.
    rewrite Ha, Hp. simpl. rewrite (proj2 (Z.leb_gt _ _) Hd).
    rewrite bool_decide_eq_true_2
      by (unfold getUniqueOnlineUsers; apply elem_of_okeys; eauto).
    simpl. by rewrite Hset, Hadm, Hactor.
  - intros -> -> target rest set Ha Hset Hadm.
    rewrite Ha. simpl. by rewrite Hset, Hadm, Hactor.
  - intros [-> | [-> | ->]] n st' out.
    + destruct isAdmin; simpl; [|apply error_answer_inv].
      destruct (commandArgs command) as [|target [|seconds rest]];
        try apply error_answer_inv.
      destruct (parseInt seconds) as [d|]; [|apply error_answer_inv].
      destruct (d <=? 0); [apply error_answer_inv|].
      destruct (negb _); [apply error_answer_inv|].
      destruct (_ && _); [apply error_answer_inv|].
      unfold answer. intros [=].
    + destruct isAdmin; simpl; [|apply error_answer_inv].
      destruct (commandArgs command) as [|target rest];
        [apply error_answer_inv|].
      destruct (oget target (userSockets st)); [|apply error_answer_inv].
      destruct (_ && _); [apply error_answer_inv|].
      intros [=].
    + rewrite Hactor. simpl. apply error_answer_inv.
  - repeat split; reflexivity.
Qed.

Lemma moderation_guards_witness :
  processCommand sampleEnv (u16 "/ipban root") moderator sidM true roomState
  = (Returned (Some (ResError NPrivilegedOnly)), roomState, [])
  ∧ processCommand sampleEnv (u16 "/ban mod") alice sidA true roomState
    = (Returned (Some (ResError NCannotBanAdmin)), roomState, []).
Proof.
  split.
  - apply (proj1 (moderation_guards sampleEnv (u16 "/ipban root") moderator
                    sidM true roomState eq_refl)).
    reflexivity.
  - destruct (moderation_guards sampleEnv (u16 "/ban mod") alice sidA true
                roomState eq_refl) as (_ & _ & _ & Hban & _).
    apply (Hban eq_refl eq_refl moderator [] [sidM]); reflexivity.
Defined.

(** ** The address cache after a ban *)

Lemma ban_keeps_userIpMap (env : Env) (command actor socket : JsString)
    (isAdmin : bool) (st : State) :
  commandOf (commandWord command) = Some CBan →
  userIpMap (snd (fst (processCommand env command actor socket isAdmin st)))
  = userIpMap st.
Proof.
  intros Hc. unfold processCommand. rewrite Hc.
  destruct isAdmin; simpl; [|done].
  destruct (commandArgs command) as [|target rest]; [done|].
  destruct (oget target (userSockets st)) as [set|]; [|done].
  destruct (_ && _); [done|].
  unfold closeSockets. simpl.
  apply (dropSockets_fields set
           (set_bannedUsers ({[target]} ∪ bannedUsers st) st)).
Qed.

(** C4, at an input where the code departs from it. In [staleRoom] the
    session administrator [mod] bans [bob]. The ban set, the registry, the
    status cache, the closed socket and the room-wide [userLeft] are as
    claimed, but [bob] keeps his entry in the address cache; the
    [disconnect] handler of the closed socket does not remove it either,
    run before or after the ban; the identity-based [/ipban] run by [root]
    on the same state does remove it. *)
Theorem ban_leaves_ip_entry :
  userSockets staleRoom = [(bob, [sidB0; sidB]); (moderator, [sidM])]
  ∧ oget bob (userIpMap staleRoom) = Some (u16 "10.0.0.5")
  ∧ (∃ st',
       sendMessage sampleEnv (connOf sidM moderator) (u16 "/ban bob") None
         staleRoom
       = (st',
          [ToSocket sidB (PBanned NKicked); Disconnect sidB;
           ToAll (PUserLeft bob 1 [moderator]);
           ToAll (PSystemMessage (NBanned bob)); Callback ReplyOk])
       ∧ bob ∈ bannedUsers st'
       ∧ oget bob (userSockets st') = None
       ∧ oget bob (userStatusMap st') = None
       ∧ oget bob (userIpMap st') = Some (u16 "10.0.0.5")
       ∧ oget bob (userIpMap
                     (snd (fst (disconnect sampleEnv (connOf sidB bob) st'))))
         = Some (u16 "10.0.0.5"))
  ∧ oget bob (userIpMap
                (snd (fst (disconnect sampleEnv (connOf sidB bob) staleRoom))))
    = Some (u16 "10.0.0.5")
  ∧ oget bob (userIpMap
                (fst (sendMessage sampleEnv (connOf sidR root)
                        (u16 "/ipban bob") None staleRoom)))
    = None.
Proof.
  split; [vm_compute; reflexivity|].
  split; [vm_compute; reflexivity|].
  split.
  - eexists. split; [vm_compute; reflexivity|].
    split; [|repeat split; vm_compute; reflexivity].
    apply (bool_decide_unpack _). vm_compute. exact I.
  - split; vm_compute; reflexivity.
Qed.

(** ** Worked examples *)

Example commandParts_example :
  commandParts (u16 "  /Mute  bob 60 ")
  = [u16 "/Mute"; []; u16 "bob"; u16 "60"]
  ∧ commandWord (u16 "  /Mute  bob 60 ") = u16 "/mute"
  ∧ commandOf (commandWord (u16 "/IPBAN" )) = Some CIpban
  ∧ commandOf (u16 "/ip" ++ kana_ban ++ kana_risuto) = Some CIpbanlist
  ∧ commandOf (commandWord (u16 "/omi" ++ [8490%N] ++ u16 "uji")) = Some COmi
  ∧ commandOf (commandWord (u16 "/shrug")) = None.
Proof. repeat split; reflexivity. Qed.

Example parseInt_example :
  parseInt (u16 " 60s") = Some 60
  ∧ parseInt (u16 "-5") = Some (-5)
  ∧ parseInt (u16 "+07") = Some 7
  ∧ parseInt (u16 "s60") = None
  ∧ parseInt [] = None.
Proof. repeat split; reflexivity. Qed.

Example tests_example :
  testIpv4 (u16 "192.168.0.1") = true
  ∧ testIpv4 (u16 "192.168.0") = false
  ∧ testIpv4 (u16 "1920.168.0.1") = false
  ∧ testColor (u16 "#fff") = true
  ∧ testColor (u16 "#ffff") = true
  ∧ testColor (u16 "#ff") = false
  ∧ testColor (u16 "#fffffff") = false
  ∧ testColor (u16 "#ggg") = false
  ∧ testColor (u16 "fff") = false.
Proof. repeat split; reflexivity. Qed.

Example registry_example :
  runEvents [ConnAdd alice sidA; ConnAdd bob sidB; ConnAdd bob sidB0;
             ConnAdd alice sidA; ConnRemove alice sidA; ConnRemove bob sidB]
  = [(bob, [sidB0])]
  ∧ addedLast [ConnAdd alice sidA; ConnAdd bob sidB; ConnAdd bob sidB0;
                 ConnAdd alice sidA; ConnRemove alice sidA;
                 ConnRemove bob sidB] bob sidB0 = true
  ∧ removeUserSocket bob sidB0 [(bob, [sidB0])] = ([], true)
  ∧ removeUserSocket bob sidB [(bob, [sidB0])] = ([(bob, [sidB0])], false)
  ∧ removeUserSocket alice sidA [(bob, [sidB0])] = ([(bob, [sidB0])], false).
Proof. repeat split; reflexivity. Qed.

Example checkMuted_example :
  fst (checkMuted sampleEnv bob mutedRoom) = IsMuted 5
  ∧ fst (checkMuted sampleEnv alice mutedRoom) = NotMuted
  ∧ mutedUsers (snd (checkMuted sampleEnv bob
                       (set_mutedUsers (<[bob := 1000000]> ∅) roomState)))
    = ∅
  ∧ ceilDiv 4001 1000 = 5 ∧ ceilDiv 4000 1000 = 4 ∧ ceilDiv (-1) 1000 = 0.
Proof. repeat split; vm_compute; reflexivity. Qed.

Example drawFortune_example :
  totalWeight = 100 ∧ drawFortune sampleEnv = Shokichi.
Proof. split; reflexivity. Qed.

Example signup_example :
  signup sampleEnv (u16 "x" ++ kanrisha) (u16 "secret")
  = [Callback (ReplyError NNameForbidden)]
  ∧ signup sampleEnv (u16 "dave") (u16 "abc")
    = [Callback (ReplyError NPasswordLength)]
  ∧ signup sampleEnv (u16 "dave") (u16 "secret")
    = [Store (DbSignup (u16 "dave") (u16 "secret")); Callback (ReplySignup [])].
Proof. repeat split; reflexivity. Qed.

(** * Further properties of the code *)

(** ** Splitting and joining *)

Lemma split_not_nil (sep : N) (s : JsString) : split sep s ≠ [].
Proof.
  destruct s as [|c r]; simpl; [done|].
  destruct (c =? sep)%N; [done|]. by destruct (split sep r).
Qed.

Lemma join_cons (sep : N) (p : JsString) (rest : list JsString) :
  rest ≠ [] → join sep (p :: rest) = p ++ sep :: join sep rest.
Proof. by destruct rest. Qed.

(** Joining what [split] produced gives the string back. *)
Lemma join_split (sep : N) (s : JsString) : join sep (split sep s) = s.
Proof.
  induction s as [|c r IH]; simpl; [done|].
  destruct (N.eqb_spec c sep) as [->|Hne].
  - rewrite join_cons by apply split_not_nil. simpl. by rewrite IH.
  - pose proof (split_not_nil sep r) as Hnil.
    destruct (split sep r) as [|h t]; [done|].
    destruct t as [|h' t'].
    + simpl in *. by rewrite IH.
    + rewrite join_cons by done. rewrite join_cons in IH by done.
      rewrite <- IH. reflexivity.
Qed.

(** X1. The body of a private message is the text of the command line as
    typed: the trimmed line is the command word, a space, the recipient, a
    space, and the delivered message, spaces inside the message
    included. *)
Theorem prm_body_verbatim (env : Env) (command sender socket : JsString)
    (isAdmin : bool) (st : State) (word0 target word : JsString)
    (more : list JsString) :
  commandParts command = word0 :: target :: word :: more →
  commandOf (commandWord command) = Some CPrm →
  target ≠ sender →
  ohas target (userSockets st) = true →
  let body := join 32 (word :: more) in
  trim command = word0 ++ 32%N :: target ++ 32%N :: body
  ∧ Store (DbAddPrivateMessage
             (privateMessageData env st sender target body))
    ∈ snd (processCommand env command sender socket isAdmin st)
  ∧ pm_message (privateMessageData env st sender target body) = body.
Proof.
  intros Hparts Hc Hne Hon body. split; [|split; [|done]].
  - pose proof (join_split 32 (trim command)) as Hj.
    fold (commandParts command) in Hj. rewrite Hparts in Hj.
    rewrite join_cons in Hj by done. rewrite join_cons in Hj by done.
    by rewrite <- Hj.
  - unfold processCommand, commandArgs. rewrite Hc, Hparts. simpl.
    apply ohas_true in Hon as [set Hset]. rewrite Hset.
    rewrite bool_decide_eq_false_2 by done. fold body.
    destruct (rejects env _); apply list_elem_of_here.
Qed.

Lemma prm_body_verbatim_witness :
  trim (u16 "  /PRM bob  two  spaces ")
  = u16 "/PRM" ++ 32%N :: bob ++ 32%N :: u16 " two  spaces"
  ∧ Store (DbAddPrivateMessage
             (privateMessageData sampleEnv roomState alice bob
                (u16 " two  spaces")))
    ∈ snd (processCommand sampleEnv (u16 "  /PRM bob  two  spaces ") alice
             sidA false roomState)
  ∧ pm_message (privateMessageData sampleEnv roomState alice bob
                  (u16 " two  spaces")) = u16 " two  spaces".
Proof.
  apply (prm_body_verbatim sampleEnv (u16 "  /PRM bob  two  spaces ") alice
           sidA false roomState (u16 "/PRM") bob [] [u16 "two"; []; u16 "spaces"]).
  - reflexivity.
  - reflexivity.
  - vm_compute. congruence.
  - reflexivity.
Defined.

(** ** Random commands *)

Ltac q_cases :=
  repeat match goal with
         | |- context [Qle_bool ?a ?b] =>
             let E := fresh "E" in
             destruct (Qle_bool a b) eqn:E;
             [apply Qle_bool_iff in E
             |apply not_true_iff_false in E; rewrite Qle_bool_iff in E]
         end.

(** Rounding to the nearest double. *)

Lemma pow2_pos k : (0 < pow2 k)%Q.
Proof. apply Qpower_0_lt. reflexivity. Qed.

Lemma pow2_plus a b : (pow2 (a + b) == pow2 a * pow2 b)%Q.
Proof. apply Qpower_plus. discriminate. Qed.

Lemma pow2_inject k : 0 <= k -> (pow2 k == inject_Z (2 ^ k))%Q.
Proof. intros Hk. unfold pow2. rewrite Zpower_Qpower by exact Hk. reflexivity. Qed.

Lemma pow2_le a b : a <= b -> (pow2 a <= pow2 b)%Q.
Proof. intros H. apply Qpower_le_compat_l; [exact H | discriminate]. Qed.

Lemma pow2_lt a b : a < b -> (pow2 a < pow2 b)%Q.
Proof. intros H. apply Qpower_lt_compat_l; [exact H | reflexivity]. Qed.

Lemma pow2_lt_inv a b : (pow2 a < pow2 b)%Q -> a < b.
Proof. intros H. apply (Qpower_lt_compat_l_inv 2); [exact H | reflexivity]. Qed.

Lemma roundEven_floor t : Qfloor t <= roundEven t <= Qfloor t + 1.
Proof.
  unfold roundEven. destruct (Qcompare _ _); [destruct (Z.even _)| |]; lia.
Qed.

Lemma roundEven_inject n : roundEven (inject_Z n) = n.
Proof.
  unfold roundEven. rewrite Qfloor_Z.
  replace (Qcompare (inject_Z n - inject_Z n) (1 # 2)) with Lt; [reflexivity|].
  symmetry. apply (proj1 (Qlt_alt _ _)). lra.
Qed.

Lemma roundEven_ge n t : (inject_Z n <= t)%Q -> n <= roundEven t.
Proof.
  intros H. apply Qfloor_resp_le in H. rewrite Qfloor_Z in H.
  pose proof (roundEven_floor t). lia.
Qed.

Lemma roundEven_le n t : (t <= inject_Z n)%Q -> roundEven t <= n.
Proof.
  intros H. destruct (Qlt_le_dec t (inject_Z n)) as [Hlt|Hge].
  - assert (Qfloor t < n).
    { rewrite Zlt_Qlt. eapply Qle_lt_trans; [apply Qfloor_le | exact Hlt]. }
    pose proof (roundEven_floor t). lia.
  - assert (Heq : (t == inject_Z n)%Q) by lra.
    assert (Hf : Qfloor t = n)
      by (rewrite (Qfloor_comp t (inject_Z n) Heq); apply Qfloor_Z).
    unfold roundEven. rewrite Hf.
    replace (Qcompare (t - inject_Z n) (1 # 2)) with Lt; [lia|].
    symmetry. apply (proj1 (Qlt_alt _ _)). lra.
Qed.

Lemma ilog2_spec q :
  (0 < q)%Q -> (pow2 (ilog2 q) <= q)%Q /\ (q < pow2 (ilog2 q + 1))%Q.
Proof.
  intros Hq. destruct q as [n d]. unfold ilog2. cbn [Qnum Qden].
  assert (Hn : 0 < n) by (unfold Qlt in Hq; simpl in Hq; lia).
  set (a := Z.log2 n). set (b := Z.log2 (Z.pos d)).
  destruct (Z.log2_spec n Hn) as [Ha1 Ha2]. fold a in Ha1, Ha2.
  destruct (Z.log2_spec (Z.pos d) ltac:(lia)) as [Hb1 Hb2].
  fold b in Hb1, Hb2.
  assert (Ha0 : 0 <= a) by apply Z.log2_nonneg.
  assert (Hb0 : 0 <= b) by apply Z.log2_nonneg.
  assert (Hqd : (n # d == inject_Z n / inject_Z (Z.pos d))%Q)
    by (rewrite Qmake_Qdiv; reflexivity).
  assert (Hdpos : (0 < inject_Z (Z.pos d))%Q)
    by reflexivity.
  (* bounds in Q *)
  assert (HA1 : (pow2 a <= inject_Z n)%Q)
    by (rewrite pow2_inject by lia; rewrite <- Zle_Qle; lia).
  assert (HA2 : (inject_Z n < pow2 (a + 1))%Q)
    by (rewrite pow2_inject by lia; rewrite <- Zlt_Qlt;
        replace (a + 1) with (Z.succ a) by lia; lia).
  assert (HB1 : (pow2 b <= inject_Z (Z.pos d))%Q)
    by (rewrite pow2_inject by lia; rewrite <- Zle_Qle; lia).
  assert (HB2 : (inject_Z (Z.pos d) < pow2 (b + 1))%Q)
    by (rewrite pow2_inject by lia; rewrite <- Zlt_Qlt;
        replace (b + 1) with (Z.succ b) by lia; lia).
  (* upper: q < 2^(a-b+1) ; lower: 2^(a-b-1) < q *)
  assert (Hup : (n # d < pow2 (a - b + 1))%Q).
  { rewrite Hqd. apply Qlt_shift_div_r; [exact Hdpos|].
    assert (E : (pow2 (a + 1) == pow2 (a - b + 1) * pow2 b)%Q).
    { rewrite <- pow2_plus. replace (a - b + 1 + b) with (a + 1) by lia.
      reflexivity. }
    pose proof (pow2_pos (a - b + 1)). nra. }
  assert (Hlow : (pow2 (a - b - 1) < n # d)%Q).
  { rewrite Hqd. apply Qlt_shift_div_l; [exact Hdpos|].
    assert (E : (pow2 a == pow2 (a - b - 1) * pow2 (b + 1))%Q).
    { rewrite <- pow2_plus. replace (a - b - 1 + (b + 1)) with a by lia.
      reflexivity. }
    pose proof (pow2_pos (a - b - 1)). nra. }
  destruct (Qle_bool (pow2 (a - b)) (n # d)) eqn:E.
  - apply Qle_bool_iff in E. split; [exact E | exact Hup].
  - assert (Hlt : (n # d < pow2 (a - b))%Q).
    { apply Qnot_le_lt. intros H. apply Qle_bool_iff in H. congruence. }
    replace (a - b - 1 + 1) with (a - b) by lia.
    split; [apply Qlt_le_weak; exact Hlow | exact Hlt].
Qed.

Lemma roundEven_comp a b : (a == b)%Q -> roundEven a = roundEven b.
Proof.
  intros H. unfold roundEven. rewrite (Qfloor_comp a b H).
  assert (E : Qcompare (a - inject_Z (Qfloor b)) (1 # 2)
              = Qcompare (b - inject_Z (Qfloor b)) (1 # 2))
    by (apply Qcompare_comp; [rewrite H|]; reflexivity).
  rewrite E. reflexivity.
Qed.

Lemma roundDouble_comp a b : (a == b)%Q -> roundDouble a = roundDouble b.
Proof. intros H. unfold roundDouble. rewrite (Qred_complete a b H). reflexivity. Qed.

Lemma roundDouble_unfold x :
  (0 < x)%Q ->
  roundDouble x
  = (inject_Z (roundEven (Qred x / pow2 (ulpExponent (Qred x))))
     * pow2 (ulpExponent (Qred x)))%Q.
Proof.
  intros Hx. unfold roundDouble.
  destruct (Qeq_bool (Qred x) 0) eqn:E; [|reflexivity].
  apply Qeq_bool_iff in E. rewrite Qred_correct in E. lra.
Qed.

Lemma ulpExponent_spec q :
  (0 < q)%Q ->
  let k := ulpExponent q in
  -1074 <= k /\ (q < pow2 (k + 53))%Q /\ (-1074 < k -> (pow2 (k + 52) <= q)%Q).
Proof.
  intros Hq k. unfold k, ulpExponent.
  assert (Habs : (Qabs q == q)%Q) by (apply Qabs_pos; lra).
  assert (Hpos : (0 < Qabs q)%Q) by lra.
  destruct (ilog2_spec (Qabs q) Hpos) as [Hlo Hhi].
  set (l := ilog2 (Qabs q)) in *.
  split; [lia|]. split.
  - eapply Qlt_le_trans; [rewrite <- Habs; exact Hhi|].
    apply pow2_le. lia.
  - intros Hk. replace (Z.max (-1074) (l - 52) + 52) with l by lia.
    rewrite <- Habs. exact Hlo.
Qed.

Lemma roundDouble_form x :
  (0 < x)%Q ->
  exists m k,
    (roundDouble x == inject_Z m * pow2 k)%Q
    /\ 0 <= m <= 2 ^ 53 /\ -1074 <= k /\ (-1074 < k -> 2 ^ 52 <= m).
Proof.
  intros Hx. rewrite (roundDouble_unfold x Hx).
  assert (Hq : (0 < Qred x)%Q) by (rewrite Qred_correct; exact Hx).
  set (q := Qred x) in *.
  destruct (ulpExponent_spec q Hq) as (Hk & Hhi & Hlo).
  set (k := ulpExponent q) in *.
  pose proof (pow2_pos k) as Hp.
  exists (roundEven (q / pow2 k)), k. split; [reflexivity|].
  split; [split|split; [exact Hk|]].
  - apply roundEven_ge. apply Qle_shift_div_l; [exact Hp|].
    change (inject_Z 0) with 0%Q. lra.
  - apply roundEven_le. apply Qle_shift_div_r; [exact Hp|].
    rewrite <- pow2_inject by lia. rewrite <- pow2_plus.
    replace (53 + k) with (k + 53) by lia. lra.
  - intros Hk'. apply roundEven_ge. apply Qle_shift_div_l; [exact Hp|].
    rewrite <- pow2_inject by lia. rewrite <- pow2_plus.
    replace (52 + k) with (k + 52) by lia. exact (Hlo Hk').
Qed.

Lemma roundDouble_exact x m j :
  (x == inject_Z m * pow2 j)%Q -> 0 < m < 2 ^ 53 -> -1074 <= j ->
  (roundDouble x == x)%Q.
Proof.
  intros Hx Hm Hj.
  pose proof (pow2_pos j) as Hpj.
  assert (Hmq : (0 < inject_Z m)%Q)
    by (change 0%Q with (inject_Z 0); rewrite <- Zlt_Qlt; lia).
  assert (Hm53 : (inject_Z m < pow2 53)%Q)
    by (rewrite pow2_inject by lia; rewrite <- Zlt_Qlt; lia).
  assert (Hpos : (0 < x)%Q) by (rewrite Hx; nra).
  rewrite (roundDouble_unfold x Hpos).
  assert (Hq : (Qred x == x)%Q) by apply Qred_correct.
  assert (Hq0 : (0 < Qred x)%Q) by lra.
  set (q := Qred x) in *.
  destruct (ulpExponent_spec q Hq0) as (Hk & Hhi & Hlo).
  set (k := ulpExponent q) in *.
  pose proof (pow2_pos k) as Hp.
  assert (Hkj : k <= j).
  { destruct (Z_le_gt_dec k j) as [H|H]; [exact H|exfalso].
    assert (Hk' : -1074 < k) by lia. specialize (Hlo Hk').
    assert (Hlt : (pow2 (k + 52) < pow2 (53 + j))%Q).
    { eapply Qle_lt_trans; [exact Hlo|]. rewrite Hq, Hx, pow2_plus. nra. }
    apply pow2_lt_inv in Hlt. lia. }
  assert (Hint : (q / pow2 k == inject_Z (m * 2 ^ (j - k)))%Q).
  { rewrite inject_Z_mult, <- pow2_inject by lia. rewrite Hq, Hx.
    assert (E : (pow2 j == pow2 (j - k) * pow2 k)%Q).
    { rewrite <- pow2_plus. replace (j - k + k) with j by lia. reflexivity. }
    rewrite E. field. lra. }
  rewrite (roundEven_comp _ _ Hint), roundEven_inject.
  rewrite inject_Z_mult, <- pow2_inject by lia.
  rewrite Hx.
  assert (E : (pow2 j == pow2 (j - k) * pow2 k)%Q).
  { rewrite <- pow2_plus. replace (j - k + k) with j by lia. reflexivity. }
  rewrite E. ring.
Qed.

Lemma roundDouble_nonpos x : (x <= 0)%Q -> (roundDouble x <= 0)%Q.
Proof.
  intros Hx. unfold roundDouble.
  destruct (Qeq_bool (Qred x) 0); [lra|].
  assert (Hq : (Qred x <= 0)%Q) by (rewrite Qred_correct; exact Hx).
  set (q := Qred x) in *. set (k := ulpExponent q).
  pose proof (pow2_pos k) as Hp.
  assert (Hr : roundEven (q / pow2 k) <= 0).
  { apply roundEven_le. apply Qle_shift_div_r; [exact Hp|].
    change (inject_Z 0) with 0%Q. lra. }
  rewrite Zle_Qle in Hr. change (inject_Z 0) with 0%Q in Hr. nra.
Qed.

Lemma roundDouble_le_int x n :
  (0 < x)%Q -> (x <= inject_Z n)%Q -> n < 2 ^ 53 ->
  (roundDouble x <= inject_Z n)%Q.
Proof.
  intros Hx Hn Hb. rewrite (roundDouble_unfold x Hx).
  assert (Hq : (Qred x == x)%Q) by apply Qred_correct.
  assert (Hq0 : (0 < Qred x)%Q) by lra.
  set (q := Qred x) in *.
  destruct (ulpExponent_spec q Hq0) as (Hk & Hhi & Hlo).
  set (k := ulpExponent q) in *.
  pose proof (pow2_pos k) as Hp.
  assert (Hk0 : k <= 0).
  { destruct (Z_le_gt_dec k 0) as [H|H]; [exact H|exfalso].
    assert (Hk' : -1074 < k) by lia. specialize (Hlo Hk').
    assert (Hlt : (pow2 (k + 52) < pow2 53)%Q).
    { eapply Qle_lt_trans; [exact Hlo|]. rewrite Hq.
      eapply Qle_lt_trans; [exact Hn|].
      rewrite pow2_inject by lia. rewrite <- Zlt_Qlt. exact Hb. }
    apply pow2_lt_inv in Hlt. lia. }
  assert (E : (pow2 (- k) * pow2 k == 1)%Q).
  { rewrite <- pow2_plus. replace (- k + k) with 0 by lia. reflexivity. }
  assert (Hr : roundEven (q / pow2 k) <= n * 2 ^ (- k)).
  { apply roundEven_le. apply Qle_shift_div_r; [exact Hp|].
    rewrite inject_Z_mult, <- pow2_inject by lia.
    rewrite <- Qmult_assoc, E. lra. }
  rewrite Zle_Qle in Hr. rewrite inject_Z_mult, <- pow2_inject in Hr by lia.
  assert (H2 : (inject_Z (roundEven (q / pow2 k)) * pow2 k
                <= inject_Z n * pow2 (- k) * pow2 k)%Q) by nra.
  rewrite <- Qmult_assoc, E in H2. lra.
Qed.

(** On small doubles the loop of [drawFortune] loses nothing to rounding. *)

Lemma Qle_bool_comp a b c : (a == b)%Q -> Qle_bool a c = Qle_bool b c.
Proof.
  intros H. destruct (Qle_bool b c) eqn:E.
  - apply Qle_bool_iff. apply Qle_bool_iff in E. lra.
  - apply not_true_iff_false. intros E'. apply Qle_bool_iff in E'.
    apply not_true_iff_false in E. apply E. apply Qle_bool_iff. lra.
Qed.

Lemma exactLoop_comp fs : forall a b, (a == b)%Q -> exactLoop a fs = exactLoop b fs.
Proof.
  induction fs as [|[f w] rest IH]; intros a b H; simpl; [reflexivity|].
  assert (E : (a - inject_Z w == b - inject_Z w)%Q) by lra.
  rewrite (Qle_bool_comp _ _ _ E), (IH _ _ E). reflexivity.
Qed.

Lemma drawLoop_comp fs a b : (a == b)%Q -> drawLoop a fs = drawLoop b fs.
Proof.
  intros H. destruct fs as [|[f w] rest]; simpl; [reflexivity|].
  unfold fsub. assert (E : (a - inject_Z w == b - inject_Z w)%Q) by lra.
  rewrite (roundDouble_comp _ _ E). reflexivity.
Qed.

Lemma fsub_small d w :
  smallDouble d -> 1 <= w -> (inject_Z w < d)%Q ->
  (fsub d (inject_Z w) == d - inject_Z w)%Q
  /\ smallDouble (d - inject_Z w).
Proof.
  intros (m & k & Hd & Hm & Hk) Hw Hlt.
  pose proof (pow2_pos k) as Hp.
  assert (E : (pow2 (- k) * pow2 k == 1)%Q).
  { rewrite <- pow2_plus. replace (- k + k) with 0 by lia. reflexivity. }
  assert (Hform : (d - inject_Z w
                   == inject_Z (m - w * 2 ^ (- k)) * pow2 k)%Q).
  { unfold Zminus. rewrite inject_Z_plus, inject_Z_opp, inject_Z_mult.
    rewrite <- pow2_inject by lia. rewrite Hd.
    setoid_replace ((inject_Z m + - (inject_Z w * pow2 (- k))) * pow2 k)%Q
      with (inject_Z m * pow2 k - inject_Z w * (pow2 (- k) * pow2 k))%Q
      using relation Qeq by ring.
    rewrite E. ring. }
  assert (Hpos : 0 < m - w * 2 ^ (- k)).
  { rewrite Zlt_Qlt. change (inject_Z 0) with 0%Q.
    assert (H : (0 < inject_Z (m - w * 2 ^ (- k)) * pow2 k)%Q)
      by (rewrite <- Hform; lra).
    destruct (Qlt_le_dec 0 (inject_Z (m - w * 2 ^ (- k)))) as [H1|H1];
      [exact H1|nra]. }
  assert (Hpw : 0 < 2 ^ (- k)) by (apply Z.pow_pos_nonneg; lia).
  assert (Hlt53 : m - w * 2 ^ (- k) < 2 ^ 53) by nia.
  split.
  - unfold fsub.
    apply (roundDouble_exact _ (m - w * 2 ^ (- k)) k Hform); lia.
  - exists (m - w * 2 ^ (- k)), k. split; [exact Hform|]. lia.
Qed.

Lemma drawLoop_exact fs :
  Forall (fun fw => 1 <= snd fw) fs ->
  forall d, (d <= 0)%Q \/ smallDouble d -> drawLoop d fs = exactLoop d fs.
Proof.
  induction 1 as [|[f w] rest Hw _ IH]; intros d Hd; [reflexivity|].
  simpl in Hw. cbn [drawLoop exactLoop].
  assert (Hwq : (1 <= inject_Z w)%Q)
    by (change 1%Q with (inject_Z 1); rewrite <- Zle_Qle; exact Hw).
  destruct (Qlt_le_dec (inject_Z w) d) as [Hlt|Hle].
  - destruct Hd as [Hd|Hd]; [lra|].
    destruct (fsub_small d w Hd Hw Hlt) as [Hex Hsm].
    rewrite (Qle_bool_comp _ _ _ Hex).
    rewrite (drawLoop_comp rest _ _ Hex).
    rewrite (IH _ (or_intror Hsm)). reflexivity.
  - assert (H1 : Qle_bool (fsub d (inject_Z w)) (inject_Z 0) = true).
    { apply Qle_bool_iff. change (inject_Z 0) with 0%Q.
      apply roundDouble_nonpos. lra. }
    assert (H2 : Qle_bool (d - inject_Z w) (inject_Z 0) = true).
    { apply Qle_bool_iff. change (inject_Z 0) with 0%Q. lra. }
    rewrite H1, H2. reflexivity.
Qed.

Lemma fmul_small a b :
  (fmul a b < pow2 53)%Q -> (fmul a b <= 0)%Q \/ smallDouble (fmul a b).
Proof.
  intros Hb. unfold fmul in *.
  destruct (Qlt_le_dec 0 (a * b)) as [Hpos|Hneg].
  2:{ left. apply roundDouble_nonpos. exact Hneg. }
  right. destruct (roundDouble_form (a * b) Hpos) as (m & k & Hx & Hm & Hk & Hn).
  exists m, k. split; [exact Hx|]. split; [exact Hm|]. split; [exact Hk|].
  destruct (Z_le_gt_dec k 0) as [H|H]; [exact H|exfalso].
  assert (Hm52 : 2 ^ 52 <= m) by (apply Hn; lia).
  rewrite Hx in Hb.
  assert (Hp1 : (pow2 1 <= pow2 k)%Q) by (apply pow2_le; lia).
  assert (Hq52 : (pow2 52 <= inject_Z m)%Q)
    by (rewrite pow2_inject by lia; rewrite <- Zle_Qle; exact Hm52).
  assert (E : (pow2 53 == pow2 52 * pow2 1)%Q) by reflexivity.
  pose proof (pow2_pos 52). pose proof (pow2_pos 1). nra.
Qed.

(** X2. [/omi] answers the entry of the table whose cumulative weight is
    the first to reach the product [Math.random() * 100] as the double the
    multiplication gives: each entry is drawn on an interval of such
    products as long as its weight. The subtractions of the loop lose
    nothing to rounding. For a random number from 0 to below 1 the product
    is at most 100, so the loop returns and the fallback after it is not
    reached. The state is not touched. *)
Theorem fortune_by_cumulative_weight (env : Env)
    (command username socket : JsString) (isAdmin : bool) (st : State) :
  let x := fmul (mathRandom env) 100 in
  (commandOf (commandWord command) = Some COmi →
   processCommand env command username socket isAdmin st
   = (Returned (Some (ResCommand NDrewOmikuji OmikujiBot
                        (NFortune (drawFortune env)) (u16 "#e74c3c"))),
      st, []))
  ∧ ((x <= 8)%Q → drawFortune env = Daikichi)
  ∧ ((8 < x)%Q → (x <= 20)%Q → drawFortune env = Chukichi)
  ∧ ((20 < x)%Q → (x <= 40)%Q → drawFortune env = Shokichi)
  ∧ ((40 < x)%Q → (x <= 55)%Q → drawFortune env = Kichi)
  ∧ ((55 < x)%Q → (x <= 75)%Q → drawFortune env = Kyo)
  ∧ ((75 < x)%Q → (x <= 90)%Q → drawFortune env = Daikyo)
  ∧ ((90 < x)%Q → (x <= 93)%Q → drawFortune env = Arere)
  ∧ ((93 < x)%Q → (x <= 96)%Q → drawFortune env = Gokudaikichi)
  ∧ ((96 < x)%Q → (x <= 97)%Q → drawFortune env = Miracle)
  ∧ ((97 < x)%Q → (x <= 100)%Q → drawFortune env = Hatena)
  ∧ ((0 <= mathRandom env)%Q → (mathRandom env < 1)%Q → (x <= 100)%Q).
Proof.
  intros x. split.
  { intros Hc. unfold processCommand. by rewrite Hc. }
  assert (Hloop : (x <= 100)%Q →
                  drawFortune env
                  = match exactLoop x fortunes with
                    | Some f => f
                    | None => Daikichi
                    end).
  { intros Hx. unfold drawFortune.
    replace totalWeight with 100 by reflexivity.
    change (fmul (mathRandom env) (inject_Z 100)) with x.
    rewrite drawLoop_exact; [reflexivity| |].
    - unfold fortunes. repeat constructor; simpl; lia.
    - apply fmul_small. fold x. eapply Qle_lt_trans; [exact Hx|].
      reflexivity. }
  assert (Hlast : (0 <= mathRandom env)%Q → (mathRandom env < 1)%Q →
                  (x <= 100)%Q).
  { intros H0 H1. unfold x, fmul.
    destruct (Qlt_le_dec 0 (mathRandom env * 100)) as [Hpos|Hneg].
    - apply (roundDouble_le_int _ 100 Hpos); [|reflexivity].
      unfold inject_Z. lra.
    - apply roundDouble_nonpos in Hneg. lra. }
  generalize dependent x. intros x Hloop Hlast.
  repeat split; try exact Hlast; intros;
    (rewrite Hloop by lra); unfold fortunes, exactLoop;
    q_cases; try reflexivity; exfalso; unfold inject_Z in *; lra.
Qed.

(** At [0.2] and [0.4] the product is exactly 20 and 40, where the exact
    product of the two doubles lies above: the draw is the entry that ends
    there. *)
Example fortune_at_a_boundary :
  Qeq_bool (fmul oneFifth 100) 20 = true
  ∧ (20 < oneFifth * 100)%Q
  ∧ drawFortune (envWithRandom oneFifth) = Chukichi
  ∧ drawFortune (envWithRandom (oneFifth * 2)) = Shokichi.
Proof. vm_compute. by split_and!. Qed.

(** [roundDouble] on some decimal fractions, on two ties and across zero:
    the values IEEE arithmetic gives. *)
Example roundDouble_values :
  Qeq_bool (roundDouble (1 # 10))
    (3602879701896397 # 36028797018963968) = true
  ∧ Qeq_bool (fmul (1 # 3) 3) 1 = true
  ∧ Qeq_bool (roundDouble (inject_Z (2 ^ 53 + 1))) (inject_Z (2 ^ 53)) = true
  ∧ Qeq_bool (roundDouble (inject_Z (2 ^ 53 + 3))) (inject_Z (2 ^ 53 + 4))
    = true
  ∧ Qeq_bool (fsub (1 # 4) 8) (- (31 # 4)) = true
  ∧ Qeq_bool (roundDouble (- (1 # 10)))
      (- (3602879701896397 # 36028797018963968)) = true.
Proof. vm_compute. by split_and!. Qed.




(** ** The dispatcher as a whole *)

Ltac split_matches :=
  repeat match goal with
         | |- context [match ?x with _ => _ end] => destruct x eqn:?
         end.

(** X4. Whatever the command, an error answer means the in-memory state is
    what it was, and nothing was done to the outside world except, for
    [/ipunban], the store call that found no such ban. *)
Theorem command_errors_change_nothing (env : Env)
    (command username socket : JsString) (isAdmin : bool)
    (st st' : State) (n : Notice) (out : list Effect) :
  processCommand env command username socket isAdmin st
  = (Returned (Some (ResError n)), st', out) →
  st' = st ∧ (out = [] ∨ ∃ ip, out = [Store (DbRemoveIpBan ip)]).
Proof.
  unfold processCommand, answer.
  destruct (commandOf (commandWord command)) as [[]|];
    split_matches; intros [=]; subst; eauto.
Qed.

Lemma lookupUser_inherited (u : UsersObject) (name n : JsString) :
  lookupUser u name = Inherited n → n = name.
Proof.
  unfold lookupUser. destruct (own u !! name); [done|].
  case_bool_decide; [by intros [= ->]|].
  case_bool_decide; [|done]. by destruct (prototypeColor u).
Qed.

(** A command from a sender whose connection lacks the admin flag and whose
    name is not privileged: what [processCommand] itself changes and
    does. *)
Lemma processCommand_plain (env : Env)
    (command username socket : JsString) (st st' : State)
    (r : Outcome (option CommandResult)) (out : list Effect) :
  isPrivileged env username = false →
  processCommand env command username socket false st = (r, st', out) →
  sameButUsers st' st
  ∧ (∀ other, other ≠ username →
       own (users st') !! other = own (users st) !! other
       ∧ builtinColor (users st') !! other = builtinColor (users st) !! other)
  ∧ (∀ e, e ∈ out → userLevelEffect e = true).
Proof.
  intros Hp. unfold processCommand, answer. rewrite Hp.
  assert (Hsame : sameButUsers st st) by (repeat split).
  destruct (commandOf (commandWord command)) as [[]|]; simpl;
    try (intros [= <- <- <-]; split; [done|split; [done|]];
         by intros e ?%elem_of_nil).
  - (* /prm *)
    destruct (commandArgs command) as [|target [|word more]];
      try (intros [= <- <- <-]; split; [done|split; [done|]];
           by intros e ?%elem_of_nil).
    destruct (oget target (userSockets st));
      [|intros [= <- <- <-]; split; [done|split; [done|]];
        by intros e ?%elem_of_nil].
    case_bool_decide;
      [intros [= <- <- <-]; split; [done|split; [done|]];
       by intros e ?%elem_of_nil|].
    destruct (rejects env _); intros [= <- <- <-];
      (split; [done|split; [done|]]); intros e He.
    + by apply list_elem_of_singleton in He as ->.
    + apply elem_of_cons in He as [->|He]; [done|].
      apply elem_of_app in He as [He|He].
      { by apply elem_of_emitToUser in He as (? & ? & _ & _ & _ & ->). }
      apply elem_of_app in He as [He|He].
      { apply elem_of_emitToPrivileged in He as (? & _ & He).
        by apply elem_of_emitToUser in He as (? & ? & _ & _ & _ & ->). }
      by apply list_elem_of_singleton in He as ->.
  - (* /color *)
    destruct (commandArgs command) as [|color rest];
      [intros [= <- <- <-]; split; [done|split; [done|]];
       by intros e ?%elem_of_nil|].
    destruct (truthy color && testColor color);
      [|intros [= <- <- <-]; split; [done|split; [done|]];
        by intros e ?%elem_of_nil].
    destruct (lookupUser (users st) username) as [rec|n|c|] eqn:Hfound;
      simpl;
      try (intros [= <- <- <-]; split; [done|split; [done|]];
           by intros e ?%elem_of_nil).
    + destruct (rejects env _); intros [= <- <- <-];
        (split; [repeat split|split]).
      * intros other Hne. simpl. by rewrite lookup_insert_ne.
      * intros e He. by apply list_elem_of_singleton in He as ->.
      * intros other Hne. simpl. by rewrite lookup_insert_ne.
      * intros e He. apply elem_of_cons in He as [->|He]; [done|].
        by apply list_elem_of_singleton in He as ->.
    + apply lookupUser_inherited in Hfound as ->.
      destruct (rejects env _); intros [= <- <- <-];
        (split; [repeat split|split]).
      * intros other Hne. simpl. by rewrite lookup_insert_ne.
      * intros e He. by apply list_elem_of_singleton in He as ->.
      * intros other Hne. simpl. by rewrite lookup_insert_ne.
      * intros e He. apply elem_of_cons in He as [->|He]; [done|].
        by apply list_elem_of_singleton in He as ->.
    + destruct (truthy c);
        [|intros [= <- <- <-]; split; [done|split; [done|]];
          by intros e ?%elem_of_nil].
      destruct (rejects env _); intros [= <- <- <-];
        (split; [repeat split|split]); try done.
      * intros e He. by apply list_elem_of_singleton in He as ->.
      * intros e He. apply elem_of_cons in He as [->|He]; [done|].
        by apply list_elem_of_singleton in He as ->.
Qed.

Lemma state_eta (st : State) :
  {| users := users st; messages := messages st; onlineUsers := onlineUsers st;
     userSockets := userSockets st; adminUsers := adminUsers st;
     mutedUsers := mutedUsers st; bannedUsers := bannedUsers st;
     userStatusMap := userStatusMap st; userIpMap := userIpMap st |} = st.
Proof. by destruct st. Qed.



(** X7. A successful [/mute] of an identity without a mute entry, followed
    by [/unmute], gives back the state before the mute; [/unmute] of an
    identity without an entry is an error. *)
Theorem mute_unmute_roundtrip (env env2 : Env)
    (cmdMute cmdUnmute actor actor2 socket socket2 : JsString) (st : State)
    (target seconds : JsString) (rest rest2 set : list JsString) (d : Z) :
  commandOf (commandWord cmdMute) = Some CMute →
  commandArgs cmdMute = target :: seconds :: rest →
  commandOf (commandWord cmdUnmute) = Some CUnmute →
  commandArgs cmdUnmute = target :: rest2 →
  parseInt seconds = Some d → 0 < d →
  oget target (userSockets st) = Some set →
  anyAdminSocket st set && negb (isPrivileged env actor) = false →
  mutedUsers st !! target = None →
  ∃ st1,
    processCommand env cmdMute actor socket true st
    = (Returned (Some (ResSystem (NMuted target d))), st1, [])
    ∧ mutedUsers st1 !! target = Some (nowMute env + d * 1000)
    ∧ processCommand env2 cmdUnmute actor2 socket2 true st1
      = (Returned (Some (ResSystem (NUnmuted target))), st, [])
    ∧ processCommand env2 cmdUnmute actor2 socket2 true st
      = (Returned (Some (ResError NNotMuted)), st, []).
Proof.
  intros Hc1 Ha1 Hc2 Ha2 Hp Hd Hset Hguard Hfresh.
  eexists. split; [|split; [|split]].
  - unfold processCommand. rewrite Hc1, Ha1, Hp. simpl.
    rewrite (proj2 (Z.leb_gt _ _) Hd).
    rewrite bool_decide_eq_true_2
      by (unfold getUniqueOnlineUsers; apply elem_of_okeys; eauto).
    simpl. rewrite Hset, Hguard. reflexivity.
  - simpl. apply lookup_insert_eq.
  - unfold processCommand. rewrite Hc2, Ha2. simpl.
    rewrite lookup_insert_eq. unfold answer, set_mutedUsers. simpl.
    rewrite delete_insert_id by done. by rewrite state_eta.
  - unfold processCommand. rewrite Hc2, Ha2. simpl. by rewrite Hfresh.
Qed.

Lemma command_errors_change_nothing_witness :
  roomState = roomState
  ∧ ([Store (DbRemoveIpBan (u16 "1.2.3.4"))] = []
     ∨ ∃ ip, [Store (DbRemoveIpBan (u16 "1.2.3.4"))]
             = [Store (DbRemoveIpBan ip)]).
Proof.
  apply (command_errors_change_nothing sampleEnv (u16 "/ipunban 1.2.3.4")
           root sidR true roomState roomState NIpNotBanned
           [Store (DbRemoveIpBan (u16 "1.2.3.4"))]).
  reflexivity.
Defined.


Lemma mute_unmute_roundtrip_witness :
  ∃ st1,
    processCommand sampleEnv (u16 "/mute bob 60") moderator sidM true roomState
    = (Returned (Some (ResSystem (NMuted bob 60))), st1, [])
    ∧ mutedUsers st1 !! bob = Some 1060000
    ∧ processCommand sampleEnv (u16 "/unmute bob") moderator sidM true st1
      = (Returned (Some (ResSystem (NUnmuted bob))), roomState, []).
Proof.
  destruct (mute_unmute_roundtrip sampleEnv sampleEnv (u16 "/mute bob 60")
              (u16 "/unmute bob") moderator moderator sidM sidM roomState bob
              (u16 "60") [] [] [sidB] 60
              eq_refl eq_refl eq_refl eq_refl eq_refl)
    as (st1 & Hmute & Hentry & Hunmute & _).
  - lia.
  - reflexivity.
  - reflexivity.
  - vm_compute. reflexivity.
  - exists st1. auto.
Defined.


(** ** Address bans *)

Lemma closeSockets_no_store (env : Env) (why : Notice) (sids : list JsString)
    (st : State) (c : StoreCall) :
  Store c ∉ snd (closeSockets env why sids st).
Proof.
  unfold closeSockets. simpl. intros (sid & _ & Hin)%elem_of_flat_map.
  case_bool_decide; [|by apply elem_of_nil in Hin].
  apply elem_of_cons in Hin as [[=]|Hin].
  by apply list_elem_of_singleton in Hin.
Qed.

Lemma emitToPrivileged_no_store (env : Env) (st : State) (p : Packet)
    (c : StoreCall) :
  Store c ∉ emitToPrivileged env st p.
Proof.
  intros (? & _ & Hin)%elem_of_emitToPrivileged.
  by apply elem_of_emitToUser in Hin as (? & ? & _ & _ & _ & [=]).
Qed.

Lemma ipBanKick_fields (env : Env) (target : JsString) (st : State) :
  bannedUsers (fst (ipBanKick env target st)) = bannedUsers st
  ∧ mutedUsers (fst (ipBanKick env target st)) = mutedUsers st
  ∧ messages (fst (ipBanKick env target st)) = messages st
  ∧ users (fst (ipBanKick env target st)) = users st
  ∧ ∀ c, Store c ∉ snd (ipBanKick env target st).
Proof.
  unfold ipBanKick. destruct (oget target (userSockets st)) as [set|]; simpl.
  - pose proof (dropSockets_fields set st) as Hf. simpl in Hf.
    destruct Hf as (Hu & Hm & _ & Hmu & Hb & _ & _).
    repeat split; try done.
    intros c Hin. apply elem_of_app in Hin as [Hin|Hin].
    { by apply (closeSockets_no_store env NYourIpBanned set st c). }
    apply elem_of_cons in Hin as [[=]|Hin].
    by apply emitToPrivileged_no_store in Hin.
  - repeat split. intros c. apply not_elem_of_nil.
Qed.

Lemma find_snd (ip : JsString) (m : list (JsString * JsString)) name ip' :
  find (λ e, bool_decide (snd e = ip)) m = Some (name, ip') → ip' = ip.
Proof.
  intros Hf. apply find_some in Hf as [_ Hf].
  by apply bool_decide_eq_true_1 in Hf.
Qed.

Ltac no_calls :=
  intros [= <- <- <-]; split_and!; try done;
  try (let Hin := fresh in intros ? ? ? Hin; by apply elem_of_nil in Hin).

(** X8. [/ipban] never touches the in-memory ban set, the mute map, the
    ring or the [users] table, and every call of [db.addIpBan] it makes is
    made for a privileged actor, in the actor's name, and either for a
    named target that is not privileged, with the address cached for that
    name, or for a literal address whose first holder in the address
    cache, if any, is not privileged. *)
Theorem ipban_store_calls (env : Env) (command actor socket : JsString)
    (isAdmin : bool) (st st' : State) (r : Outcome (option CommandResult))
    (out : list Effect) :
  commandOf (commandWord command) = Some CIpban →
  processCommand env command actor socket isAdmin st = (r, st', out) →
  bannedUsers st' = bannedUsers st ∧ mutedUsers st' = mutedUsers st
  ∧ messages st' = messages st ∧ users st' = users st
  ∧ ∀ ip banner reason,
      Store (DbAddIpBan ip banner reason) ∈ out →
      banner = actor ∧ isPrivileged env actor = true
      ∧ ipBanJustified env st ip reason.
Proof.
  intros Hc. unfold processCommand, answer. rewrite Hc.
  destruct (isPrivileged env actor) eqn:Hp; simpl; [|no_calls].
  destruct (commandArgs command) as [|target rest]; [no_calls|].
  destruct (testIpv4 target || includes target (u16 ":")) eqn:Hip.
  - destruct (find _ (userIpMap st)) as [[name ip']|] eqn:Hfind.
    + pose proof (find_snd _ _ _ _ Hfind) as ->.
      destruct (isPrivileged env name) eqn:Hn; [no_calls|].
      assert (Hjust : ipBanJustified env st target
                        (NReasonDirect
                           (if truthy name then Some name else None))).
      { split; [done|]. intros name' Hn'.
        destruct (truthy name); [|done]. by injection Hn' as <-. }
      destruct (rejects env _).
      * intros [= <- <- <-]. split_and!; try done.
        intros ip banner reason Hin.
        apply list_elem_of_singleton in Hin. by injection Hin as -> -> ->.
      * pose proof (ipBanKick_fields env name st) as (Hb & Hm & Hms & Hu & Hns).
        destruct (truthy name) eqn:Ht.
        -- destruct (ipBanKick env name st) as [st1 out1]. simpl in *.
           intros [= <- <- <-]. split_and!; try done.
           intros ip banner reason Hin.
           apply elem_of_cons in Hin as [Hin|Hin]; [|by apply Hns in Hin].
           by injection Hin as -> -> ->.
        -- intros [= <- <- <-]. split_and!; try done.
           intros ip banner reason Hin.
           apply list_elem_of_singleton in Hin. by injection Hin as -> -> ->.
    + assert (Hjust : ipBanJustified env st target (NReasonDirect None)).
      { split; [done|]. by intros name' [=]. }
      destruct (rejects env _); intros [= <- <- <-]; split_and!; try done;
        intros ip banner reason Hin;
        apply list_elem_of_singleton in Hin; by injection Hin as -> -> ->.
  - destruct (oget target (userIpMap st)) as [targetIp|] eqn:Hget;
      [|no_calls].
    destruct (truthy targetIp); simpl; [|no_calls].
    destruct (isPrivileged env target) eqn:Ht; [no_calls|].
    assert (Hjust : ipBanJustified env st targetIp (NReasonUser target))
      by done.
    destruct (rejects env _).
    + intros [= <- <- <-]. split_and!; try done.
      intros ip banner reason Hin.
      apply list_elem_of_singleton in Hin. by injection Hin as -> -> ->.
    + pose proof (ipBanKick_fields env target st) as (Hb & Hm & Hms & Hu & Hns).
      destruct (ipBanKick env target st) as [st1 out1]. simpl in *.
      intros [= <- <- <-]. split_and!; try done.
      intros ip banner reason Hin.
      apply elem_of_cons in Hin as [Hin|Hin]; [|by apply Hns in Hin].
      by injection Hin as -> -> ->.
Qed.

Lemma ipban_store_calls_witness :
  let run :=
    processCommand sampleEnv (u16 "/ipban bob") root sidR true roomState in
  bannedUsers (snd (fst run)) = bannedUsers roomState
  ∧ mutedUsers (snd (fst run)) = mutedUsers roomState
  ∧ messages (snd (fst run)) = messages roomState
  ∧ users (snd (fst run)) = users roomState
  ∧ ∀ ip banner reason,
      Store (DbAddIpBan ip banner reason) ∈ snd run →
      banner = root ∧ isPrivileged sampleEnv root = true
      ∧ ipBanJustified sampleEnv roomState ip reason.
Proof.
  intros run.
  apply (ipban_store_calls sampleEnv (u16 "/ipban bob") root sidR true
           roomState (snd (fst run)) (fst (fst run)) (snd run) eq_refl).
  unfold run.
  by destruct (processCommand sampleEnv (u16 "/ipban bob") root sidR true
                 roomState) as [[? ?] ?].
Defined.


(** ** Chat lines *)

Lemma checkMuted_fields (env : Env) (user : JsString) (st st1 : State)
    (r : MuteCheck) :
  checkMuted env user st = (r, st1) →
  users st1 = users st ∧ messages st1 = messages st
  ∧ onlineUsers st1 = onlineUsers st ∧ userSockets st1 = userSockets st
  ∧ adminUsers st1 = adminUsers st ∧ bannedUsers st1 = bannedUsers st
  ∧ userStatusMap st1 = userStatusMap st ∧ userIpMap st1 = userIpMap st.
Proof.
  unfold checkMuted. destruct (mutedUsers st !! user); [|by intros [= _ <-]].
  destruct (_ <? _); by intros [= _ <-].
Qed.

Lemma accountColor_users (conn : Conn) (a b : State) :
  users a = users b → accountColor conn a = accountColor conn b.
Proof. intros Heq. unfold accountColor. by rewrite Heq. Qed.

Lemma sendMessage_plain (env : Env) (conn : Conn) (message : JsString)
    (replyTo : option JsString) (st st1 : State) (user : JsString) :
  loggedIn conn = Some user →
  checkMuted env user st = (NotMuted, st1) →
  startsWith message (u16 "/") = false
  ∨ commandOf (commandWord message) = None →
  let m := chatLine env conn st user message replyTo in
  sendMessage env conn message replyTo st
  = (set_messages (pushMessage (MAX_HISTORY env) m (messages st1)) st1,
     Store (DbAddMessage m)
     :: (if rejects env (DbAddMessage m)
         then [Callback (ReplyError NSendError)]
         else [ToAll (PMessage m); Callback (ReplyOkId (msgId env))])).
Proof.
  intros Hu Hm Hplain m. unfold sendMessage. rewrite Hu, Hm.
  assert (Hrun :
    (let '(o, st', out) := addMessageToStorage env m st1 in
     match o with
     | Threw => (st', [] ++ out ++ [Callback (ReplyError NSendError)])
     | Returned _ =>
         (st', [] ++ out ++ [ToAll (PMessage m);
                             Callback (ReplyOkId (msg_id m))])
     end)
    = (set_messages (pushMessage (MAX_HISTORY env) m (messages st1)) st1,
       Store (DbAddMessage m)
       :: (if rejects env (DbAddMessage m)
           then [Callback (ReplyError NSendError)]
           else [ToAll (PMessage m); Callback (ReplyOkId (msgId env))]))).
  { unfold addMessageToStorage. by destruct (rejects env _). }
  pose proof (checkMuted_fields env user st st1 NotMuted Hm) as (Husers & _).
  destruct (startsWith message (u16 "/")) eqn:Hs.
  - destruct Hplain as [[=]|Hnone].
    unfold processCommand. rewrite Hnone. cbv beta zeta.
    rewrite (accountColor_users conn st1 st Husers). exact Hrun.
  - cbv beta zeta. rewrite (accountColor_users conn st1 st Husers).
    exact Hrun.
Qed.

(** X9. A line from a logged-in sender who passes the mute check, that does
    not start with a slash or whose first word is no known command, is a
    chat line: it is appended to the ring under the cap rule and handed to
    the store; when the store accepts it, it is broadcast to the whole room
    as typed and the callback carries its id; when the store rejects it, it
    stays in the ring but is not broadcast and the callback reports a send
    error. The reply reference is kept when it is truthy and is none
    otherwise ([data.replyTo || null]). The name shown carries the admin
    marker exactly when the sending socket holds the admin flag. Nothing
    else of the state changes. *)
Theorem chat_line_delivery (env : Env) (conn : Conn) (message : JsString)
    (replyTo : option JsString) (st st1 : State) (user : JsString) :
  loggedIn conn = Some user →
  checkMuted env user st = (NotMuted, st1) →
  startsWith message (u16 "/") = false
  ∨ commandOf (commandWord message) = None →
  let m := chatLine env conn st user message replyTo in
  let run := sendMessage env conn message replyTo st in
  messages (fst run) = pushMessage (MAX_HISTORY env) m (messages st)
  ∧ sameButMessages (fst run) st1
  ∧ (rejects env (DbAddMessage m) = false →
     snd run = [Store (DbAddMessage m); ToAll (PMessage m);
                Callback (ReplyOkId (msgId env))])
  ∧ (rejects env (DbAddMessage m) = true →
     snd run = [Store (DbAddMessage m); Callback (ReplyError NSendError)])
  ∧ msg_message m = Typed message
  ∧ msg_replyTo m = orNull replyTo
  ∧ (∀ reference, replyTo = Some reference → truthy reference = true →
       msg_replyTo m = Some reference)
  ∧ (replyTo = None ∨ replyTo = Some [] → msg_replyTo m = None)
  ∧ (socket_id conn ∈ adminUsers st →
     msg_username m = Person (user ++ 32%N :: kanrisha))
  ∧ (socket_id conn ∉ adminUsers st → msg_username m = Person user).
Proof.
  intros Hu Hm Hplain m run. unfold run.
  rewrite (sendMessage_plain env conn message replyTo st st1 user Hu Hm Hplain).
  fold m. cbn [fst snd].
  pose proof (checkMuted_fields env user st st1 NotMuted Hm)
    as (_ & Hmsg & _).
  split; [simpl; by rewrite Hmsg|].
  split; [by unfold sameButMessages|].
  split; [by intros ->|]. split; [by intros ->|].
  split; [done|]. split; [done|].
  split; [intros reference -> Ht; unfold m, chatLine; simpl; by rewrite Ht|].
  split; [by intros [->| ->]|].
  split; intros Ha; unfold m, chatLine; simpl.
  - by rewrite bool_decide_eq_true_2.
  - by rewrite bool_decide_eq_false_2.
Qed.

(** X10. The first chat line sent at or after the expiry of a mute is
    delivered to the room, and the mute entry is deleted by that send. *)
Theorem expired_mute_send (env : Env) (conn : Conn) (message : JsString)
    (replyTo : option JsString) (st : State) (user : JsString) (expiry : Z) :
  loggedIn conn = Some user →
  mutedUsers st !! user = Some expiry →
  expiry ≤ nowCheck env →
  startsWith message (u16 "/") = false →
  let m := chatLine env conn st user message replyTo in
  rejects env (DbAddMessage m) = false →
  let run := sendMessage env conn message replyTo st in
  snd run = [Store (DbAddMessage m); ToAll (PMessage m);
             Callback (ReplyOkId (msgId env))]
  ∧ mutedUsers (fst run) = delete user (mutedUsers st)
  ∧ mutedUsers (fst run) !! user = None
  ∧ messages (fst run) = pushMessage (MAX_HISTORY env) m (messages st).
Proof.
  intros Hu Hentry Hexp Hs m Hok run. unfold run.
  rewrite (sendMessage_plain env conn message replyTo st _ user Hu
             (checkMuted_after env user st expiry Hentry Hexp)
             (or_introl Hs)).
  fold m. rewrite Hok. simpl. split_and!; try done.
  apply lookup_delete_eq.
Qed.

Lemma pushMessage_cap (cap : nat) (m : Message) (ring : list Message) :
  (length ring ≤ cap)%nat → (length (pushMessage cap m ring) ≤ cap)%nat.
Proof.
  intros Hcap. unfold pushMessage. rewrite length_app. simpl.
  destruct (Nat.ltb_spec cap (length ring + 1)).
  - destruct ring; simpl in *; [lia|]. rewrite length_app. simpl. lia.
  - rewrite length_app. simpl. lia.
Qed.

Lemma addMessageToStorage_cap (env : Env) (m : Message) (st : State) :
  (length (messages st) ≤ MAX_HISTORY env)%nat →
  (length (messages (snd (fst (addMessageToStorage env m st))))
   ≤ MAX_HISTORY env)%nat.
Proof.
  intros Hcap. rewrite messages_addMessageToStorage. by apply pushMessage_cap.
Qed.

Lemma processCommand_messages (env : Env) (command username socket : JsString)
    (isAdmin : bool) (st : State) :
  let st' := snd (fst (processCommand env command username socket isAdmin st)) in
  messages st' = messages st ∨ messages st' = [].
Proof.
  unfold processCommand, answer.
  destruct (commandOf (commandWord command)) as [[]|]; simpl;
    try (split_matches; simpl; auto; fail).
  - (* /ban *)
    destruct isAdmin; simpl; [|auto].
    destruct (commandArgs command) as [|target rest]; [auto|].
    destruct (oget target (userSockets st)) as [set|]; [|auto].
    destruct (_ && _); [auto|]. unfold closeSockets. simpl. left.
    apply (dropSockets_fields set
             (set_bannedUsers ({[target]} ∪ bannedUsers st) st)).
  - (* /ipban *)
    destruct (isPrivileged env username); simpl; [|auto].
    destruct (commandArgs command) as [|target rest]; [auto|].
    destruct (_ || _).
    + destruct (find _ _) as [[name ip]|]; [|destruct (rejects env _); auto].
      destruct (isPrivileged env name); [auto|].
      destruct (rejects env _); [auto|].
      destruct (truthy name); [|auto].
      pose proof (ipBanKick_fields env name st) as (_ & _ & Hm & _).
      destruct (ipBanKick env name st). simpl in *. auto.
    + destruct (oget target (userIpMap st)) as [ip|]; [|auto].
      destruct (truthy ip); simpl; [|auto].
      destruct (isPrivileged env target); [auto|].
      destruct (rejects env _); [auto|].
      pose proof (ipBanKick_fields env target st) as (_ & _ & Hm & _).
      destruct (ipBanKick env target st). simpl in *. auto.
Qed.

(** X11. [sendMessage] keeps the ring within the cap, whatever the line:
    chat, any command (the two messages of a game command included), a
    muted or logged-out sender, a store that rejects. *)
Theorem sendMessage_keeps_cap (env : Env) (conn : Conn) (message : JsString)
    (replyTo : option JsString) (st : State) :
  (length (messages st) ≤ MAX_HISTORY env)%nat →
  (length (messages (fst (sendMessage env conn message replyTo st)))
   ≤ MAX_HISTORY env)%nat.
Proof.
  intros Hcap. unfold sendMessage.
  destruct (loggedIn conn) as [user|]; [|done].
  destruct (checkMuted env user st) as [r st1] eqn:Hm.
  pose proof (checkMuted_fields env user st st1 r Hm) as (_ & Hmsg & _).
  assert (Hcap1 : (length (messages st1) ≤ MAX_HISTORY env)%nat)
    by (by rewrite Hmsg).
  destruct r; [done|].
  assert (Hplain : ∀ s0 before m,
    (length (messages s0) ≤ MAX_HISTORY env)%nat →
    (length (messages
       (fst (let '(o, st', out) := addMessageToStorage env m s0 in
             match o with
             | Threw => (st', before ++ out ++ [Callback (ReplyError NSendError)])
             | Returned _ =>
                 (st', before ++ out ++ [ToAll (PMessage m);
                                         Callback (ReplyOkId (msg_id m))])
             end))) ≤ MAX_HISTORY env)%nat).
  { intros s0 before m Hs0.
    pose proof (addMessageToStorage_cap env m s0 Hs0) as Hc.
    destruct (addMessageToStorage env m s0) as [[[] st'] out]; exact Hc. }
  destruct (startsWith message (u16 "/")); [|by apply Hplain].
  pose proof (processCommand_messages env message user (socket_id conn)
                (bool_decide (socket_id conn ∈ adminUsers st)) st1) as Hpc.
  simpl in Hpc.
  destruct (processCommand env message user (socket_id conn) _ st1)
    as [[o st2] out]. simpl in Hpc.
  assert (Hcap2 : (length (messages st2) ≤ MAX_HISTORY env)%nat).
  { destruct Hpc as [-> | ->]; [done | simpl; lia]. }
  destruct o as [[res|]|]; [|by apply Hplain|done].
  destruct res as [n|n|n|um rs rm rc]; try done.
  set (m1 := {| msg_id := msgId env |}).
  set (m2 := {| msg_id := resultId env |}).
  pose proof (addMessageToStorage_cap env m1 st2 Hcap2) as Hc3.
  destruct (addMessageToStorage env m1 st2) as [[[] st3] out3]; [|exact Hc3].
  simpl in Hc3.
  pose proof (addMessageToStorage_cap env m2 st3 Hc3) as Hc4.
  destruct (addMessageToStorage env m2 st3) as [[[] st4] out4]; exact Hc4.
Qed.

Lemma chat_line_delivery_witness :
  let m := chatLine sampleEnv (connOf sidM moderator) roomState moderator
             (u16 "/shrug hi") (Some []) in
  snd (sendMessage sampleEnv (connOf sidM moderator) (u16 "/shrug hi")
         (Some []) roomState)
  = [Store (DbAddMessage m); ToAll (PMessage m);
     Callback (ReplyOkId (msgId sampleEnv))]
  ∧ msg_replyTo m = None
  ∧ msg_username m = Person (moderator ++ 32%N :: kanrisha).
Proof.
  intros m.
  destruct (chat_line_delivery sampleEnv (connOf sidM moderator)
              (u16 "/shrug hi") (Some []) roomState roomState moderator
              eq_refl eq_refl (or_intror eq_refl))
    as (_ & _ & Hok & _ & _ & _ & _ & Hnull & Hadmin & _).
  split; [|split].
  - apply Hok. reflexivity.
  - apply Hnull. by right.
  - apply Hadmin.
    apply (bool_decide_unpack (sidM ∈ adminUsers roomState)).
    vm_compute. exact I.
Defined.

Lemma expired_mute_send_witness :
  let m := chatLine sampleEnv (connOf sidB bob) expiredRoom bob (u16 "hello")
             None in
  let run := sendMessage sampleEnv (connOf sidB bob) (u16 "hello") None
               expiredRoom in
  snd run = [Store (DbAddMessage m); ToAll (PMessage m);
             Callback (ReplyOkId (msgId sampleEnv))]
  ∧ mutedUsers (fst run) = delete bob (mutedUsers expiredRoom)
  ∧ mutedUsers (fst run) !! bob = None
  ∧ messages (fst run)
    = pushMessage (MAX_HISTORY sampleEnv) m (messages expiredRoom).
Proof.
  apply (expired_mute_send sampleEnv (connOf sidB bob) (u16 "hello") None
           expiredRoom bob 999000).
  - reflexivity.
  - vm_compute. reflexivity.
  - vm_compute. congruence.
  - reflexivity.
  - reflexivity.
Defined.

Lemma sendMessage_keeps_cap_witness :
  (length (messages (fst (sendMessage sampleEnv (connOf sidB bob) (u16 "/omi")
                            None fullRoom))) ≤ 3)%nat.
Proof.
  apply (sendMessage_keeps_cap sampleEnv (connOf sidB bob) (u16 "/omi") None
           fullRoom).
  simpl. lia.
Defined.


(** ** Logins, logouts and disconnects *)

(** The state a completed login leaves. *)
Lemma completeLogin_fields (env : Env) (conn : Conn) (account : Account)
    (failure : Notice) (st : State) :
  let user := account_displayName account in
  let sid := socket_id conn in
  rejects env (DbSaveUserIpHistory user (clientIp env)) = false →
  let '(conn', st', out) := completeLogin env conn account failure st in
  conn' = {| socket_id := sid; currentUser := Some user;
             currentAccount := Some account |}
  ∧ onlineUsers st' = <[sid := user]> (onlineUsers st)
  ∧ userIpMap st' = oset user (clientIp env) (userIpMap st)
  ∧ userSockets st' = addUserSocket user sid (userSockets st)
  ∧ adminUsers st'
    = (if account_isAdmin account then {[sid]} ∪ adminUsers st
       else adminUsers st)
  ∧ userStatusMap st'
    = (if truthy (account_statusText account)
       then oset user (account_statusText account) (userStatusMap st)
       else userStatusMap st)
  ∧ mutedUsers st' = mutedUsers st ∧ bannedUsers st' = bannedUsers st
  ∧ users st' = users st
  ∧ messages st'
    = (if rejects env DbGetMessages then messages st
       else default (messages st) (getMessagesAnswer env)).
Proof.
  intros user sid Hok. unfold completeLogin. fold user sid. rewrite Hok.
  destruct (rejects env DbGetMessages), (getMessagesAnswer env),
    (account_isAdmin account), (truthy (account_statusText account));
    simpl; split_and!; reflexivity.
Qed.

Lemma leaveRoom_fields (env : Env) (conn : Conn) (st : State) :
  let '(conn', st', out) := leaveRoom env conn st in
  conn' = conn
  ∧ mutedUsers st' = mutedUsers st ∧ bannedUsers st' = bannedUsers st
  ∧ users st' = users st ∧ messages st' = messages st.
Proof.
  unfold leaveRoom. destruct (loggedIn conn) as [user|]; [|done].
  destruct (removeUserSocket user (socket_id conn) _) as [us []]; done.
Qed.



Lemma tokenLogin_success (env : Env) (conn : Conn) (token : JsString)
    (st : State) (account : Account) :
  tokenLoginGuards env token = None →
  rejects env (DbLoginWithToken token) = false →
  tokenAnswer env = LoginOk account →
  account_displayName account ∉ bannedUsers st →
  tokenLogin env conn token st
  = (let '(conn', st', out) := completeLogin env conn account NTokenFailed st in
     (conn', st',
      [Store (DbIsIpBanned (clientIp env)); Store (DbLoginWithToken token)]
      ++ out)).
Proof.
  intros Hg Hok Hans Hfree. unfold tokenLogin.
  by rewrite Hg, Hok, Hans, bool_decide_eq_false_2.
Qed.

Lemma accountLogin_success (env : Env) (conn : Conn)
    (username password adminPassword : JsString) (adminLogin : bool)
    (st : State) (account : Account) :
  accountLoginGuards env username password adminLogin adminPassword = None →
  rejects env (DbLogin username password) = false →
  loginAnswer env = LoginOk account →
  account_displayName account ∉ bannedUsers st →
  accountLogin env conn username password adminLogin adminPassword st
  = (let '(conn', st', out) :=
       completeLogin env conn
         {| account_displayName := account_displayName account;
            account_isAdmin := account_isAdmin account || adminLogin;
            account_color := account_color account;
            account_statusText := account_statusText account |}
         NLoginFailed st in
     (conn', st',
      [Store (DbIsIpBanned (clientIp env)); Store (DbLogin username password)]
      ++ out)).
Proof.
  intros Hg Hok Hans Hfree. unfold accountLogin.
  rewrite Hg, Hok, Hans, bool_decide_eq_false_2 by done.
  assert (Hpw : adminLogin = true →
                bool_decide (Some adminPassword = EXTRA_ADMIN_PASSWORD env)
                = true).
  { intros ->. unfold accountLoginGuards in Hg.
    repeat match type of Hg with
           | (if ?b then _ else _) = _ => destruct b eqn:?; try discriminate
           end.
    simpl in *.
    match goal with
    | H : _ || negb ?b = false |- _ =>
        apply orb_false_iff in H as [_ H]; by apply negb_false_iff in H
    end. }
  destruct adminLogin; simpl.
  - rewrite Hpw by done. by rewrite orb_true_r.
  - rewrite orb_false_r. by destruct account.
Qed.

(** X13. After a completed login the socket holds the admin flag exactly
    when the account is an admin account, or (password login only) the
    admin login was asked for, which the guards let through only with the
    configured, non-empty admin password, or the socket already held the
    flag before: a login never takes the flag away. *)
Theorem admin_flag_grant (env : Env) (conn : Conn)
    (username password adminPassword token : JsString) (adminLogin : bool)
    (st : State) (account : Account) :
  account_displayName account ∉ bannedUsers st →
  rejects env (DbSaveUserIpHistory (account_displayName account)
                 (clientIp env)) = false →
  let sid := socket_id conn in
  (accountLoginGuards env username password adminLogin adminPassword = None →
   rejects env (DbLogin username password) = false →
   loginAnswer env = LoginOk account →
   (sid ∈ adminUsers
            (snd (fst (accountLogin env conn username password adminLogin
                         adminPassword st)))
    ↔ account_isAdmin account = true ∨ adminLogin = true
      ∨ sid ∈ adminUsers st)
   ∧ (adminLogin = true →
      Some adminPassword = EXTRA_ADMIN_PASSWORD env
      ∧ truthy adminPassword = true))
  ∧ (tokenLoginGuards env token = None →
     rejects env (DbLoginWithToken token) = false →
     tokenAnswer env = LoginOk account →
     (sid ∈ adminUsers (snd (fst (tokenLogin env conn token st)))
      ↔ account_isAdmin account = true ∨ sid ∈ adminUsers st)).
Proof.
  intros Hfree Hsave sid. split.
  - intros Hg Hok Hans. split.
    + rewrite (accountLogin_success env conn username password adminPassword
                 adminLogin st account Hg Hok Hans Hfree).
      pose proof (completeLogin_fields env conn
                    {| account_displayName := account_displayName account;
                       account_isAdmin := account_isAdmin account || adminLogin;
                       account_color := account_color account;
                       account_statusText := account_statusText account |}
                    NLoginFailed st Hsave) as Hf.
      destruct (completeLogin env conn _ NLoginFailed st) as [[c s] o].
      destruct Hf as (_ & _ & _ & _ & Hadm & _). simpl in *. rewrite Hadm.
      fold sid.
      destruct (account_isAdmin account), adminLogin; simpl;
        rewrite ?elem_of_union, ?elem_of_singleton; intuition congruence.
    + intros ->. unfold accountLoginGuards in Hg.
      repeat match type of Hg with
             | (if ?b then _ else _) = _ => destruct b eqn:?; try discriminate
             end.
      simpl in *.
      match goal with
      | H : negb _ || negb _ = false |- _ =>
          apply orb_false_iff in H as [H1 H2];
          apply negb_false_iff in H1; apply negb_false_iff in H2
      end.
      split; [by apply bool_decide_eq_true_1 in H2 | done].
  - intros Hg Hok Hans.
    rewrite (tokenLogin_success env conn token st account Hg Hok Hans Hfree).
    pose proof (completeLogin_fields env conn account NTokenFailed st Hsave)
      as Hf.
    destruct (completeLogin env conn account NTokenFailed st) as [[c s] o].
    destruct Hf as (_ & _ & _ & _ & Hadm & _). simpl in *. rewrite Hadm.
    fold sid.
    destruct (account_isAdmin account);
      rewrite ?elem_of_union, ?elem_of_singleton; intuition congruence.
Qed.

Lemma odelete_fresh {K V : Type} `{EqDecision K} (m : list (K * V)) (k : K) :
  oget k m = None → odelete k m = m.
Proof.
  induction m as [|[k0 v0] m IH]; simpl; [done|].
  case_decide; [done|]. by intros ->%IH.
Qed.

Lemma odelete_oset_fresh {K V : Type} `{EqDecision K} (m : list (K * V))
    (k : K) (v : V) :
  oget k m = None → odelete k (oset k v m) = m.
Proof.
  induction m as [|[k0 v0] m IH]; simpl.
  - by rewrite decide_True.
  - case_decide; [done|]. intros Hm. simpl.
    rewrite decide_False by done. by rewrite IH.
Qed.

Lemma oset_fresh {K V : Type} `{EqDecision K} (m : list (K * V)) (k : K)
    (v : V) :
  oget k m = None → oset k v m = m ++ [(k, v)].
Proof.
  induction m as [|[k0 v0] m IH]; simpl; [done|].
  case_decide; [done|]. by intros ->%IH.
Qed.

Lemma oget_app_fresh {K V : Type} `{EqDecision K} (m : list (K * V)) (k : K)
    (v : V) :
  oget k m = None → oget k (m ++ [(k, v)]) = Some v.
Proof.
  induction m as [|[k0 v0] m IH]; simpl.
  - by rewrite decide_True.
  - case_decide; [done|]. apply IH.
Qed.

Lemma oset_app_fresh {K V : Type} `{EqDecision K} (m : list (K * V)) (k : K)
    (v v' : V) :
  oget k m = None → oset k v' (m ++ [(k, v)]) = m ++ [(k, v')].
Proof.
  induction m as [|[k0 v0] m IH]; simpl.
  - by rewrite decide_True.
  - case_decide; [done|]. by intros ->%IH.
Qed.

Lemma odelete_app_fresh {K V : Type} `{EqDecision K} (m : list (K * V))
    (k : K) (v : V) :
  oget k m = None → odelete k (m ++ [(k, v)]) = m.
Proof.
  induction m as [|[k0 v0] m IH]; simpl.
  - by rewrite decide_True.
  - case_decide; [done|]. by intros ->%IH.
Qed.

Lemma add_fresh (regs : Registry) (user sid : JsString) :
  oget user regs = None →
  addUserSocket user sid regs = regs ++ [(user, [sid])].
Proof.
  intros Hfresh. unfold addUserSocket, ohas. rewrite Hfresh.
  rewrite (oset_fresh regs user []) by done.
  rewrite oget_app_fresh by done. by rewrite oset_app_fresh.
Qed.

Lemma remove_add_fresh (regs : Registry) (user sid : JsString) :
  oget user regs = None →
  removeUserSocket user sid (addUserSocket user sid regs) = (regs, true).
Proof.
  intros Hfresh. rewrite add_fresh by done.
  unfold removeUserSocket. rewrite oget_app_fresh by done. simpl.
  rewrite decide_True by done. simpl.
  rewrite oset_app_fresh by done. by rewrite odelete_app_fresh.
Qed.

(** X14. For an identity and a socket the state knows nothing of, a token
    login followed by the disconnect of that connection gives back the
    state before the login, but for the ring (which the login may have
    reloaded from the store); in between the identity is online. *)
Theorem login_disconnect_roundtrip (env env' : Env) (conn : Conn)
    (token : JsString) (st : State) (account : Account) :
  let user := account_displayName account in
  let sid := socket_id conn in
  tokenLoginGuards env token = None →
  rejects env (DbLoginWithToken token) = false →
  tokenAnswer env = LoginOk account →
  user ∉ bannedUsers st →
  rejects env (DbSaveUserIpHistory user (clientIp env)) = false →
  truthy user = true →
  oget user (userSockets st) = None →
  oget user (userIpMap st) = None →
  oget user (userStatusMap st) = None →
  onlineUsers st !! sid = None →
  sid ∉ adminUsers st →
  let '(conn1, st1, _) := tokenLogin env conn token st in
  let '(_, st2, _) := disconnect env' conn1 st1 in
  user ∈ getUniqueOnlineUsers (userSockets st1)
  ∧ sameButMessages st2 st.
Proof.
  intros user sid Hg Hok Hans Hfree Hsave Htruthy Hreg Hip Hstatus Hon Hadm.
  rewrite (tokenLogin_success env conn token st account Hg Hok Hans Hfree).
  pose proof (completeLogin_fields env conn account NTokenFailed st Hsave) as Hf.
  destruct (completeLogin env conn account NTokenFailed st) as [[conn1 st1] o].
  destruct Hf as (-> & Hou & Him & Hus & Had & Hsm & Hmu & Hb & Hu & _).
  fold user sid in Hou, Him, Hus, Had, Hsm.
  unfold disconnect, leaveRoom, loggedIn. simpl. fold user sid.
  rewrite Htruthy.
  change (userSockets (dropSocket st1 sid)) with (userSockets st1).
  rewrite Hus, remove_add_fresh by done. simpl.
  split.
  - unfold getUniqueOnlineUsers. rewrite elem_of_okeys, oget_addUserSocket.
    rewrite decide_True by done. eauto.
  - unfold sameButMessages. simpl. rewrite Hu, Hou, Hmu, Hb, Had, Hsm, Him.
    split_and!; try done.
    + by apply delete_insert_id.
    + destruct (account_isAdmin account); apply set_eq; intros x;
        rewrite ?elem_of_difference, ?elem_of_union, ?elem_of_singleton;
        split; intuition congruence.
    + destruct (truthy (account_statusText account));
        [by apply odelete_oset_fresh | by apply odelete_fresh].
    + by apply odelete_oset_fresh.
Qed.

Ltac in_cases H :=
  repeat first
    [ apply elem_of_nil in H; destruct H
    | apply elem_of_app in H; destruct H as [H|H]
    | apply elem_of_cons in H; destruct H as [H|H] ].

Lemma emitToPrivileged_sockets (env : Env) (st : State) (p : Packet)
    (e : Effect) :
  e ∈ emitToPrivileged env st p →
  ∃ sid admin set,
    e = ToSocket sid p ∧ sid ∈ sockets env ∧ admin ∈ ADMIN_USERS env
    ∧ oget admin (userSockets st) = Some set ∧ sid ∈ set.
Proof.
  intros (admin & Hadm & Hin)%elem_of_emitToPrivileged.
  apply elem_of_emitToUser in Hin as (set & sid & Hset & Hsid & Hlive & ->).
  eauto 10.
Qed.

Lemma broadcastUserIpHistory_sockets (env : Env) (st : State) (e : Effect) :
  e ∈ broadcastUserIpHistory env st →
  e = Store DbGetAllUserIpHistory
  ∨ e ∈ emitToPrivileged env st (PUserIpHistory (userIpHistoryAnswer env)).
Proof.
  unfold broadcastUserIpHistory. destruct (rejects env _); intros Hin.
  - apply list_elem_of_singleton in Hin. auto.
  - apply elem_of_cons in Hin as [->|Hin]; auto.
Qed.

(** What a completed login sends, effect by effect. *)
Lemma completeLogin_out (env : Env) (conn : Conn) (account : Account)
    (failure : Notice) (st : State) (e : Effect) :
  let user := account_displayName account in
  let '(_, st', out) := completeLogin env conn account failure st in
  e ∈ out →
  (∃ c, e = Store c) ∨ (∃ r, e = Callback r)
  ∨ (oget user (userSockets st) = None
     ∧ e = ToOthers (socket_id conn)
             (PUserJoined user
                (length (getUniqueOnlineUsers (userSockets st')))
                (getUniqueOnlineUsers (userSockets st'))))
  ∨ e ∈ emitToPrivileged env st' (PUserIpList (userIpMap st'))
  ∨ e ∈ emitToPrivileged env st' (PUserIpHistory (userIpHistoryAnswer env)).
Proof.
  intros user. unfold completeLogin. fold user.
  destruct (rejects env (DbSaveUserIpHistory _ _)).
  { intros Hin. in_cases Hin; subst; eauto. }
  set (st5 := if truthy (account_statusText account) then _ else _).
  set (st6c := if rejects env DbGetMessages then _ else _).
  assert (Hus : userSockets (fst st6c) = userSockets st5
                ∧ userIpMap (fst st6c) = userIpMap st5
                ∧ userStatusMap (fst st6c) = userStatusMap st5).
  { unfold st6c. destruct (rejects env DbGetMessages); [done|].
    by destruct (getMessagesAnswer env). }
  destruct st6c as [st6 cur]. simpl in Hus.
  intros Hin. unfold broadcastUserIpList in Hin.
  apply elem_of_app in Hin as [Hin|Hin].
  { in_cases Hin; subst; eauto. }
  apply elem_of_app in Hin as [Hin|Hin].
  { destruct (isPrivileged env user); [|in_cases Hin].
    destruct (rejects env DbGetAllPrivateMessages);
      in_cases Hin; subst; eauto. }
  apply elem_of_app in Hin as [Hin|Hin].
  { in_cases Hin; subst; eauto. }
  apply elem_of_app in Hin as [Hin|Hin].
  { unfold ohas in Hin.
    destruct (oget user (userSockets _)) eqn:Hreg; simpl in Hin;
      in_cases Hin. subst. right. right. left. split; [reflexivity|].
    by rewrite (proj1 Hus). }
  apply elem_of_app in Hin as [Hin|Hin]; [eauto 6|].
  apply broadcastUserIpHistory_sockets in Hin as [->|Hin]; eauto 6.
Qed.

(** X15. A completed token login tells the room only when it is the
    identity's first connection: then [userJoined] goes to every socket but
    the new one; for a further connection of an identity already online
    nothing is broadcast. No login broadcasts to the whole room. *)
Theorem second_tab_is_silent (env : Env) (conn : Conn) (token : JsString)
    (st : State) (account : Account) :
  let user := account_displayName account in
  let sid := socket_id conn in
  tokenLoginGuards env token = None →
  rejects env (DbLoginWithToken token) = false →
  tokenAnswer env = LoginOk account →
  user ∉ bannedUsers st →
  rejects env (DbSaveUserIpHistory user (clientIp env)) = false →
  let '(_, st', out) := tokenLogin env conn token st in
  let online := getUniqueOnlineUsers (userSockets st') in
  (oget user (userSockets st) = None →
   ToOthers sid (PUserJoined user (length online) online) ∈ out)
  ∧ (is_Some (oget user (userSockets st)) →
     ∀ e, e ∈ out →
          match e with ToAll _ | ToOthers _ _ => False | _ => True end)
  ∧ (∀ p, ToAll p ∉ out)
  ∧ (∀ s p, ToOthers s p ∈ out →
            s = sid ∧ p = PUserJoined user (length online) online)
  ∧ user ∈ online.
Proof.
  intros user sid Hg Hok Hans Hfree Hsave.
  rewrite (tokenLogin_success env conn token st account Hg Hok Hans Hfree).
  pose proof (completeLogin_fields env conn account NTokenFailed st Hsave) as Hf.
  pose proof (λ e, completeLogin_out env conn account NTokenFailed st e) as Ho.
  assert (Hjoin : oget user (userSockets st) = None →
    let '(_, st', out) := completeLogin env conn account NTokenFailed st in
    ToOthers sid (PUserJoined user
                    (length (getUniqueOnlineUsers (userSockets st')))
                    (getUniqueOnlineUsers (userSockets st'))) ∈ out).
  { intros Hreg. unfold completeLogin. fold user sid. rewrite Hsave.
    unfold ohas. simpl. rewrite Hreg. simpl.
    destruct (rejects env DbGetMessages); [|destruct (getMessagesAnswer env)];
      simpl; do 3 apply list_elem_of_further; apply elem_of_app; right;
      apply list_elem_of_further, list_elem_of_here. }
  destruct (completeLogin env conn account NTokenFailed st) as [[c st'] out].
  destruct Hf as (_ & _ & _ & Hus & _).
  fold user sid in Hus. simpl in Ho. fold user in Ho.
  assert (Hclass : ∀ e, e ∈ [Store (DbIsIpBanned (clientIp env));
                             Store (DbLoginWithToken token)] ++ out →
            (∃ c0, e = Store c0) ∨ (∃ r, e = Callback r)
            ∨ (oget user (userSockets st) = None
               ∧ e = ToOthers sid
                       (PUserJoined user
                          (length (getUniqueOnlineUsers (userSockets st')))
                          (getUniqueOnlineUsers (userSockets st'))))
            ∨ (∃ s p, e = ToSocket s p)).
  { intros e Hin. apply elem_of_app in Hin as [Hin|Hin].
    { in_cases Hin; subst; eauto. }
    apply Ho in Hin as [?|[?|[?|[Hin|Hin]]]]; auto;
      apply emitToPrivileged_sockets in Hin as (? & ? & ? & -> & _);
      eauto 10. }
  split_and!.
  - intros Hreg. apply elem_of_app. right. by apply Hjoin.
  - intros [set Hset] e Hin.
    apply Hclass in Hin as [[? ->]|[[? ->]|[[Hnone _]|(? & ? & ->)]]];
      try done. congruence.
  - intros p Hin.
    apply Hclass in Hin as [[? [=]]|[[? [=]]|[[_ [=]]|(? & ? & [=])]]].
  - intros s p Hin.
    apply Hclass in Hin as [[? [=]]|[[? [=]]|[[_ Heq]|(? & ? & [=])]]].
    by injection Heq as -> ->.
  - unfold getUniqueOnlineUsers. rewrite elem_of_okeys, Hus.
    rewrite oget_addUserSocket, decide_True by done. eauto.
Qed.

(** X16. When a connection logged in as one identity logs in again as
    another without logging out, its socket id stays in the first
    identity's set; the later disconnect removes it from the second
    identity only, so the first identity is still listed online and no
    [userLeft] is sent for it. *)
Theorem relogin_leaves_stale_id (env env' : Env) (conn : Conn)
    (token : JsString) (st : State) (account : Account)
    (first : JsString) (set : list JsString) :
  let second := account_displayName account in
  let sid := socket_id conn in
  loggedIn conn = Some first →
  oget first (userSockets st) = Some set →
  sid ∈ set →
  second ≠ first →
  truthy second = true →
  tokenLoginGuards env token = None →
  rejects env (DbLoginWithToken token) = false →
  tokenAnswer env = LoginOk account →
  second ∉ bannedUsers st →
  rejects env (DbSaveUserIpHistory second (clientIp env)) = false →
  let '(conn1, st1, _) := tokenLogin env conn token st in
  let '(_, st2, out2) := disconnect env' conn1 st1 in
  loggedIn conn1 = Some second
  ∧ oget first (userSockets st1) = Some set
  ∧ oget first (userSockets st2) = Some set
  ∧ first ∈ getUniqueOnlineUsers (userSockets st2)
  ∧ (∀ sids, oget second (userSockets st2) = Some sids → sid ∉ sids)
  ∧ (∀ n online, ToAll (PUserLeft first n online) ∉ out2).
Proof.
  intros second sid Hin Hreg Hsid Hne Htruthy Hg Hok Hans Hfree Hsave.
  rewrite (tokenLogin_success env conn token st account Hg Hok Hans Hfree).
  pose proof (completeLogin_fields env conn account NTokenFailed st Hsave) as Hf.
  destruct (completeLogin env conn account NTokenFailed st) as [[conn1 st1] o].
  destruct Hf as (-> & _ & _ & Hus & _). fold second sid in Hus.
  assert (Hfirst1 : oget first (userSockets st1) = Some set).
  { rewrite Hus, oget_addUserSocket. by rewrite decide_False. }
  unfold disconnect, leaveRoom, loggedIn. simpl. fold second sid.
  rewrite Htruthy.
  change (userSockets (dropSocket st1 sid)) with (userSockets st1).
  pose proof (oget_removeUserSocket (userSockets st1) second sid) as Hget.
  destruct (removeUserSocket second sid (userSockets st1)) as [us isLast].
  simpl in Hget.
  assert (Hfirst2 : oget first us = Some set).
  { rewrite Hget. by rewrite decide_False. }
  assert (Hsecond : ∀ sids, oget second us = Some sids → sid ∉ sids).
  { intros sids. rewrite Hget, decide_True by done.
    destruct (oget second (userSockets st1)) as [s1|]; [|done].
    destruct (sdelete sid s1) eqn:Hd; [done|]. intros [= <-].
    rewrite <- Hd. rewrite elem_of_sdelete. tauto. }
  destruct isLast; simpl; split_and!; try done.
  - unfold getUniqueOnlineUsers. rewrite elem_of_okeys. eauto.
  - intros n online Hx. apply elem_of_cons in Hx as [[=]|Hx]; [congruence|].
    unfold broadcastUserIpList in Hx.
    by apply emitToPrivileged_sockets in Hx as (? & ? & ? & [=] & _).
  - unfold getUniqueOnlineUsers. rewrite elem_of_okeys. eauto.
  - intros n online Hx. by apply elem_of_nil in Hx.
Qed.


Lemma admin_flag_grant_witness :
  sidM ∈ adminUsers
           (snd (fst (accountLogin (envFor moderator) (freshConn sidM)
                        moderator (u16 "pw") true (u16 "sesame") emptyState)))
  ∧ sidB ∉ adminUsers
             (snd (fst (tokenLogin (envFor bob) (freshConn sidB) (u16 "t-bob")
                          emptyState))).
Proof.
  assert (Hfree : ∀ name, account_displayName (accountOf name)
                          ∉ bannedUsers emptyState).
  { intros name. apply not_elem_of_empty. }
  split.
  - destruct (admin_flag_grant (envFor moderator) (freshConn sidM) moderator
                (u16 "pw") (u16 "sesame") (u16 "t") true emptyState
                (accountOf moderator) (Hfree moderator) eq_refl) as [Hpw _].
    apply (proj1 (Hpw eq_refl eq_refl eq_refl)). right. by left.
  - destruct (admin_flag_grant (envFor bob) (freshConn sidB) bob
                (u16 "pw") (u16 "sesame") (u16 "t-bob") false emptyState
                (accountOf bob) (Hfree bob) eq_refl) as [_ Htok].
    intros Hin. apply (proj1 (Htok eq_refl eq_refl eq_refl)) in Hin.
    destruct Hin as [[=]|Hin]. by apply not_elem_of_empty in Hin.
Defined.

Lemma login_disconnect_roundtrip_witness :
  let '(conn1, st1, _) :=
    tokenLogin (envFor carol) (freshConn sidB0) (u16 "t-carol") roomState in
  let '(_, st2, _) := disconnect sampleEnv conn1 st1 in
  carol ∈ getUniqueOnlineUsers (userSockets st1)
  ∧ sameButMessages st2 roomState.
Proof.
  apply (login_disconnect_roundtrip (envFor carol) sampleEnv (freshConn sidB0)
           (u16 "t-carol") roomState (accountOf carol));
    try reflexivity.
  - apply not_elem_of_empty.
  - simpl. intros Hin%elem_of_singleton. revert Hin. vm_compute. congruence.
Defined.

Lemma second_tab_is_silent_witness :
  let '(_, st', out) :=
    tokenLogin (envFor bob) (freshConn sidB0) (u16 "t-bob") roomState in
  (∀ e, e ∈ out →
        match e with ToAll _ | ToOthers _ _ => False | _ => True end)
  ∧ bob ∈ getUniqueOnlineUsers (userSockets st').
Proof.
  pose proof (second_tab_is_silent (envFor bob) (freshConn sidB0)
                (u16 "t-bob") roomState (accountOf bob)
                eq_refl eq_refl eq_refl) as Hlogin.
  cbv zeta in Hlogin.
  specialize (Hlogin ltac:(apply not_elem_of_empty) eq_refl).
  destruct (tokenLogin (envFor bob) (freshConn sidB0) (u16 "t-bob") roomState)
    as [[c st'] out].
  destruct Hlogin as (_ & Hsilent & _ & _ & Hon).
  split; [apply Hsilent; eauto | exact Hon].
Defined.

Lemma relogin_leaves_stale_id_witness :
  let '(conn1, st1, _) :=
    tokenLogin (envFor carol) (connOf sidA alice) (u16 "t-carol") roomState in
  let '(_, st2, out2) := disconnect sampleEnv conn1 st1 in
  loggedIn conn1 = Some carol
  ∧ oget alice (userSockets st2) = Some [sidA]
  ∧ alice ∈ getUniqueOnlineUsers (userSockets st2).
Proof.
  pose proof (relogin_leaves_stale_id (envFor carol) sampleEnv
                (connOf sidA alice) (u16 "t-carol") roomState
                (accountOf carol) alice [sidA] eq_refl eq_refl) as Hstale.
  cbv zeta in Hstale.
  specialize (Hstale ltac:(by apply list_elem_of_singleton)
                     ltac:(vm_compute; congruence) eq_refl eq_refl eq_refl
                     eq_refl ltac:(apply not_elem_of_empty) eq_refl).
  destruct (tokenLogin (envFor carol) (connOf sidA alice) (u16 "t-carol")
              roomState) as [[conn1 st1] o1].
  destruct (disconnect sampleEnv conn1 st1) as [[c2 st2] out2].
  destruct Hstale as (Hid & _ & Hkept & Hon & _). by split_and!.
Defined.

(** ** Failed logins, reconnects and logouts *)

(** X17. When [saveUserIpHistory] rejects during a token login, the client
    is told that the login failed, yet the connection's closure variables,
    [onlineUsers] and the address cache were already set (lines 742-747)
    and are not rolled back; the registry is untouched. The connection then
    is logged in for [sendMessage]: a plain line from it is stored and
    broadcast to the room. *)
Theorem failed_login_still_speaks (env env2 : Env) (conn : Conn)
    (token message : JsString) (replyTo : option JsString) (st : State)
    (account : Account) :
  let user := account_displayName account in
  let sid := socket_id conn in
  tokenLoginGuards env token = None →
  rejects env (DbLoginWithToken token) = false →
  tokenAnswer env = LoginOk account →
  user ∉ bannedUsers st →
  rejects env (DbSaveUserIpHistory user (clientIp env)) = true →
  truthy user = true →
  let '(conn1, st1, out1) := tokenLogin env conn token st in
  out1 = [Store (DbIsIpBanned (clientIp env)); Store (DbLoginWithToken token);
          Store (DbSaveUserIpHistory user (clientIp env));
          Callback (ReplyError NTokenFailed)]
  ∧ loggedIn conn1 = Some user
  ∧ onlineUsers st1 !! sid = Some user
  ∧ oget user (userIpMap st1) = Some (clientIp env)
  ∧ userSockets st1 = userSockets st
  ∧ (mutedUsers st !! user = None →
     startsWith message (u16 "/") = false →
     let m := chatLine env2 conn1 st1 user message replyTo in
     rejects env2 (DbAddMessage m) = false →
     snd (sendMessage env2 conn1 message replyTo st1)
     = [Store (DbAddMessage m); ToAll (PMessage m);
        Callback (ReplyOkId (msgId env2))]).
Proof.
  intros user sid Hg Hok Hans Hfree Hsave Htruthy.
  rewrite (tokenLogin_success env conn token st account Hg Hok Hans Hfree).
  unfold completeLogin. fold user sid. rewrite Hsave. simpl.
  split; [done|]. split; [unfold loggedIn; simpl; by rewrite Htruthy|].
  split; [apply lookup_insert_eq|].
  split; [rewrite oget_oset; by rewrite decide_True|].
  split; [done|].
  intros Hmute Hs Hstore.
  match goal with
  | |- snd (sendMessage _ ?c _ _ ?s) = _ =>
      rewrite (sendMessage_plain env2 c message replyTo s s user)
  end.
  - cbv zeta. by rewrite Hstore.
  - unfold loggedIn. simpl. by rewrite Htruthy.
  - by apply checkMuted_absent.
  - by left.
Qed.

Lemma tokenLogin_keeps_mutes (env : Env) (conn : Conn) (token : JsString)
    (st : State) :
  mutedUsers (snd (fst (tokenLogin env conn token st))) = mutedUsers st.
Proof.
  unfold tokenLogin. destruct (tokenLoginGuards env token); [done|].
  destruct (rejects env _); [done|].
  destruct (tokenAnswer env) as [account|]; [|done].
  case_bool_decide; [done|].
  unfold completeLogin.
  destruct (rejects env (DbSaveUserIpHistory _ _)); [done|].
  destruct (rejects env DbGetMessages), (getMessagesAnswer env),
    (account_isAdmin account), (truthy (account_statusText account));
    reflexivity.
Qed.

(** X18. A mute is keyed by the name, not by the connection: after the
    muted identity disconnects and logs in again on another socket, a line
    sent before the expiry is still refused with the mute notice and
    changes nothing. *)
Theorem mute_survives_reconnect (env1 env2 env3 : Env) (conn fresh : Conn)
    (token message : JsString) (replyTo : option JsString) (st : State)
    (account : Account) (expiry : Z) :
  let user := account_displayName account in
  loggedIn conn = Some user →
  mutedUsers st !! user = Some expiry →
  user ∉ bannedUsers st →
  tokenLoginGuards env2 token = None →
  rejects env2 (DbLoginWithToken token) = false →
  tokenAnswer env2 = LoginOk account →
  rejects env2 (DbSaveUserIpHistory user (clientIp env2)) = false →
  nowCheck env3 < expiry →
  let '(_, st1, _) := disconnect env1 conn st in
  let '(conn2, st2, _) := tokenLogin env2 fresh token st1 in
  sendMessage env3 conn2 message replyTo st2
  = (st2,
     [ToSocket (socket_id fresh)
        (PSystemMessage
           (NYouAreMuted (ceilDiv (expiry - nowRemaining env3) 1000)));
      Callback (ReplyError NMutedNow)]).
Proof.
  intros user Hin Hmute Hfree Hg Hok Hans Hsave Hnow.
  assert (Htruthy : truthy user = true).
  { unfold loggedIn in Hin. destruct (currentUser conn) as [u|]; [|done].
    destruct (truthy u) eqn:Ht; [|done]. by injection Hin as ->. }
  pose proof (leaveRoom_fields env1 conn st) as Hl.
  unfold disconnect.
  destruct (leaveRoom env1 conn st) as [[c1 st1] o1].
  destruct Hl as (_ & Hm1 & Hb1 & _).
  assert (Hfree1 : user ∉ bannedUsers st1) by (by rewrite Hb1).
  pose proof (tokenLogin_keeps_mutes env2 fresh token st1) as Hm2.
  rewrite (tokenLogin_success env2 fresh token st1 account Hg Hok Hans Hfree1)
    in *.
  pose proof (completeLogin_fields env2 fresh account NTokenFailed st1 Hsave)
    as Hf.
  destruct (completeLogin env2 fresh account NTokenFailed st1)
    as [[conn2 st2] o2].
  destruct Hf as (-> & _). simpl in Hm2.
  unfold sendMessage, loggedIn. simpl. fold user. rewrite Htruthy.
  rewrite (checkMuted_before env3 user st2 expiry); [done| |done].
  by rewrite Hm2, Hm1.
Qed.

(** X19. [accountLogout] with a store that accepts the call (or with no
    token) clears the closure variables and unregisters the socket, after
    which [sendMessage] on the connection does nothing at all; when
    [db.logout] rejects, nothing but the store call happened and the
    connection stays logged in. *)
Theorem logout_then_silence (env env2 : Env) (conn : Conn)
    (token message : JsString) (replyTo : option JsString) (st : State)
    (user : JsString) :
  loggedIn conn = Some user →
  (truthy token && rejects env (DbLogout token) = false →
   let '(conn1, st1, _) := accountLogout env conn token st in
   loggedIn conn1 = None
   ∧ userSockets st1
     = fst (removeUserSocket user (socket_id conn) (userSockets st))
   ∧ sendMessage env2 conn1 message replyTo st1 = (st1, []))
  ∧ (truthy token && rejects env (DbLogout token) = true →
     accountLogout env conn token st = (conn, st, [Store (DbLogout token)])).
Proof.
  intros Hin. split.
  - intros Hok. unfold accountLogout. rewrite Hok, Hin.
    pose proof (leaveRoom_unregisters env conn st user Hin) as Hus.
    destruct (leaveRoom env conn st) as [[c st1] out]. simpl in Hus.
    split_and!; try done.
  - intros Hrej. unfold accountLogout. rewrite Hrej.
    apply andb_true_iff in Hrej as [-> _]. done.
Qed.

Lemma failed_login_still_speaks_witness :
  let '(conn1, st1, out1) :=
    tokenLogin (envSaveFails carol) (freshConn sidB0) (u16 "t-carol")
      roomState in
  List.last out1 (Store DbGetMessages) = Callback (ReplyError NTokenFailed)
  ∧ loggedIn conn1 = Some carol
  ∧ ∃ m, snd (sendMessage sampleEnv conn1 (u16 "hello") None st1)
         = [Store (DbAddMessage m); ToAll (PMessage m);
            Callback (ReplyOkId (msgId sampleEnv))].
Proof.
  pose proof (failed_login_still_speaks (envSaveFails carol) sampleEnv
                (freshConn sidB0) (u16 "t-carol") (u16 "hello") None roomState
                (accountOf carol)) as Hlogin.
  cbv zeta in Hlogin.
  specialize (Hlogin eq_refl eq_refl eq_refl ltac:(apply not_elem_of_empty)
                eq_refl eq_refl).
  destruct (tokenLogin (envSaveFails carol) (freshConn sidB0) (u16 "t-carol")
              roomState) as [[conn1 st1] out1].
  destruct Hlogin as (-> & Hin & _ & _ & _ & Hsend).
  split; [reflexivity|]. split; [exact Hin|].
  eexists. apply Hsend; reflexivity.
Defined.

Lemma mute_survives_reconnect_witness :
  let '(_, st1, _) := disconnect sampleEnv (connOf sidB bob) mutedRoom in
  let '(conn2, st2, _) :=
    tokenLogin (envFor bob) (freshConn sidB0) (u16 "t-bob") st1 in
  sendMessage sampleEnv conn2 (u16 "hello") None st2
  = (st2,
     [ToSocket sidB0 (PSystemMessage (NYouAreMuted 5));
      Callback (ReplyError NMutedNow)]).
Proof.
  apply (mute_survives_reconnect sampleEnv (envFor bob) sampleEnv
           (connOf sidB bob) (freshConn sidB0) (u16 "t-bob") (u16 "hello")
           None mutedRoom (accountOf bob) 1005000).
  - reflexivity.
  - vm_compute. reflexivity.
  - apply not_elem_of_empty.
  - reflexivity.
  - reflexivity.
  - reflexivity.
  - reflexivity.
  - reflexivity.
Defined.

Lemma logout_then_silence_witness :
  let '(conn1, st1, _) :=
    accountLogout sampleEnv (connOf sidB bob) (u16 "t-bob") roomState in
  loggedIn conn1 = None
  ∧ userSockets st1
    = fst (removeUserSocket bob sidB (userSockets roomState))
  ∧ sendMessage sampleEnv conn1 (u16 "hello") None st1 = (st1, []).
Proof.
  apply (proj1 (logout_then_silence sampleEnv sampleEnv (connOf sidB bob)
                  (u16 "t-bob") (u16 "hello") None roomState bob eq_refl)).
  reflexivity.
Defined.

(** ** Client addresses *)


Lemma emitToPrivileged_same_registry (env : Env) (a b : State) (p : Packet) :
  userSockets a = userSockets b →
  emitToPrivileged env a p = emitToPrivileged env b p.
Proof.
  intros Heq. unfold emitToPrivileged, emitToUser. by rewrite Heq.
Qed.






Lemma addMessageToStorage_shape (env : Env) (m : Message) (st : State) :
  ∃ o, addMessageToStorage env m st
       = (o, set_messages (pushMessage (MAX_HISTORY env) m (messages st)) st,
          [Store (DbAddMessage m)]).
Proof.
  unfold addMessageToStorage. destruct (rejects env _); eauto.
Qed.





(** ** Game commands, [/delete] and refused commands *)

Lemma game_answer (env : Env) (command username socket : JsString)
    (isAdmin : bool) (st : State) (c : Command) :
  commandOf (commandWord command) = Some c → isGame c = true →
  ∃ um rs rm rc,
    processCommand env command username socket isAdmin st
    = (Returned (Some (ResCommand um rs rm rc)), st, [])
    ∧ ∀ name, rs ≠ Person name.
Proof.
  intros Hc Hg. unfold processCommand. rewrite Hc.
  destruct c; try discriminate; unfold answer; do 4 eexists; split;
    try reflexivity; done.
Qed.

Lemma two_lines (env : Env) (m1 m2 : Message) (st0 : State)
    (before : list Effect) :
  match addMessageToStorage env m1 st0 with
  | (Threw, st3, out3) =>
      (st3, before ++ out3 ++ [Callback (ReplyError NSendError)])
  | (Returned _, st3, out3) =>
      match addMessageToStorage env m2 st3 with
      | (Threw, st4, out4) =>
          (st4, before ++ out3 ++ [ToAll (PMessage m1)]
                ++ out4 ++ [Callback (ReplyError NSendError)])
      | (Returned _, st4, out4) =>
          (st4, before ++ out3 ++ [ToAll (PMessage m1)]
                ++ out4 ++ [ToAll (PMessage m2); Callback ReplyOk])
      end
  end
  = let ring1 := pushMessage (MAX_HISTORY env) m1 (messages st0) in
    let ring2 := pushMessage (MAX_HISTORY env) m2 ring1 in
    if rejects env (DbAddMessage m1)
    then (set_messages ring1 st0,
          before ++ [Store (DbAddMessage m1);
                     Callback (ReplyError NSendError)])
    else (set_messages ring2 st0,
          before ++ [Store (DbAddMessage m1); ToAll (PMessage m1);
                     Store (DbAddMessage m2)]
          ++ (if rejects env (DbAddMessage m2)
              then [Callback (ReplyError NSendError)]
              else [ToAll (PMessage m2); Callback ReplyOk])).
Proof.
  unfold addMessageToStorage.
  destruct (rejects env (DbAddMessage m1)); [reflexivity|]. simpl.
  destruct (rejects env (DbAddMessage m2)); reflexivity.
Qed.

(** X21. A game command ([/omi], [/dice], [/coin]) from a logged-in sender
    who passes the mute check leaves two lines: one under the sender's
    name with a canned text (never the typed line, never a reply
    reference) and one under a bot's name with the outcome. Each is pushed
    to the ring before the store is asked and broadcast only after the
    store accepted it: a rejected first call leaves the first line in the
    ring unannounced; a rejected second call leaves both in the ring with
    only the first announced. *)
Theorem game_command_chain (env : Env) (conn : Conn) (message : JsString)
    (replyTo : option JsString) (st st1 : State) (user : JsString)
    (c : Command) :
  loggedIn conn = Some user →
  checkMuted env user st = (NotMuted, st1) →
  startsWith message (u16 "/") = true →
  commandOf (commandWord message) = Some c →
  isGame c = true →
  ∃ said bot result color,
    let m1 := commandLine env conn st user said in
    let m2 := resultLine env bot result color in
    let run := sendMessage env conn message replyTo st in
    let ring1 := pushMessage (MAX_HISTORY env) m1 (messages st) in
    let ring2 := pushMessage (MAX_HISTORY env) m2 ring1 in
    (∀ name, bot ≠ Person name)
    ∧ (rejects env (DbAddMessage m1) = true →
       run = (set_messages ring1 st1,
              [Store (DbAddMessage m1); Callback (ReplyError NSendError)]))
    ∧ (rejects env (DbAddMessage m1) = false →
       rejects env (DbAddMessage m2) = true →
       run = (set_messages ring2 st1,
              [Store (DbAddMessage m1); ToAll (PMessage m1);
               Store (DbAddMessage m2); Callback (ReplyError NSendError)]))
    ∧ (rejects env (DbAddMessage m1) = false →
       rejects env (DbAddMessage m2) = false →
       run = (set_messages ring2 st1,
              [Store (DbAddMessage m1); ToAll (PMessage m1);
               Store (DbAddMessage m2); ToAll (PMessage m2);
               Callback ReplyOk])).
Proof.
  intros Hu Hm Hs Hc Hg.
  pose proof (checkMuted_fields env user st st1 NotMuted Hm)
    as (Husers & Hmsg & _ & _ & Hadm & _ & Hstat & _).
  destruct (game_answer env message user (socket_id conn)
              (bool_decide (socket_id conn ∈ adminUsers st)) st1 c Hc Hg)
    as (um & rs & rm & rc & Hrun & Hbot).
  exists um, rs, rm, rc. cbv zeta. split; [exact Hbot|].
  assert (Heq : sendMessage env conn message replyTo st
                = _) by
    (unfold sendMessage; rewrite Hu, Hm, Hs, Hrun; cbv beta zeta;
     rewrite (accountColor_users conn st1 st Husers);
     exact (two_lines env (commandLine env conn st user um)
              (resultLine env rs rm rc) st1 [])).
  rewrite Heq. cbv zeta. rewrite Hmsg. split_and!.
  - intros ->. reflexivity.
  - intros -> ->. reflexivity.
  - intros -> ->. reflexivity.
Qed.

(** X22. [/delete] from a socket without the admin flag is refused and
    leaves the state as the mute check left it. From a socket with the flag
    it empties the ring before
    the store is asked: when the store rejects, the ring is empty all the
    same, the room is not told and the callback reports a send error. *)
Theorem delete_empties_ring (env : Env) (conn : Conn) (message : JsString)
    (replyTo : option JsString) (st st1 : State) (user : JsString) :
  loggedIn conn = Some user →
  checkMuted env user st = (NotMuted, st1) →
  startsWith message (u16 "/") = true →
  commandOf (commandWord message) = Some CDelete →
  let sid := socket_id conn in
  let run := sendMessage env conn message replyTo st in
  (sid ∉ adminUsers st →
   run = (st1, [ToSocket sid (PSystemMessage NAdminOnly); Callback ReplyOk]))
  ∧ (sid ∈ adminUsers st →
     fst run = set_messages [] st1
     ∧ (rejects env DbDeleteAllMessages = false →
        snd run = [Store DbDeleteAllMessages; ToAll PAllMessagesDeleted;
                   ToAll (PSystemMessage NAllDeleted); Callback ReplyOk])
     ∧ (rejects env DbDeleteAllMessages = true →
        snd run = [Store DbDeleteAllMessages;
                   Callback (ReplyError NSendError)])).
Proof.
  intros Hu Hm Hs Hc sid run. unfold run, sendMessage, processCommand.
  rewrite Hu, Hm, Hs, Hc. fold sid. split.
  - intros Hno. by rewrite bool_decide_eq_false_2.
  - intros Hyes. rewrite bool_decide_eq_true_2 by done. simpl.
    destruct (rejects env DbDeleteAllMessages); by split_and!.
Qed.

(** X23. A command that [processCommand] answers with an error leaves the
    state as the mute check left it; the notice goes to the sender's socket
    only, nothing is broadcast, and the callback still reports success. *)
Theorem refused_command_reports_success (env : Env) (conn : Conn)
    (message : JsString) (replyTo : option JsString) (st st1 st2 : State)
    (user : JsString) (n : Notice) (out : list Effect) :
  loggedIn conn = Some user →
  checkMuted env user st = (NotMuted, st1) →
  startsWith message (u16 "/") = true →
  processCommand env message user (socket_id conn)
    (bool_decide (socket_id conn ∈ adminUsers st)) st1
  = (Returned (Some (ResError n)), st2, out) →
  let run := sendMessage env conn message replyTo st in
  fst run = st1
  ∧ (∃ asked, snd run = asked ++ [ToSocket (socket_id conn) (PSystemMessage n);
                                  Callback ReplyOk]
              ∧ (asked = [] ∨ ∃ ip, asked = [Store (DbRemoveIpBan ip)]))
  ∧ sentOnlyTo (socket_id conn) (snd run)
  ∧ ∀ r, Callback r ∈ snd run → isFailure r = false.
Proof.
  intros Hu Hm Hs Hrun run. unfold run, sendMessage.
  rewrite Hu, Hm, Hs, Hrun. simpl.
  assert (Hinv : st2 = st1 ∧ (out = [] ∨ ∃ ip, out = [Store (DbRemoveIpBan ip)])).
  { revert Hrun. unfold processCommand, answer.
    destruct (commandOf (commandWord message)) as [[]|];
      split_matches; intros [=]; subst; eauto. }
  destruct Hinv as [-> Hout]. split; [done|]. split; [eauto|].
  split.
  - intros e Hin. destruct Hout as [->|[ip ->]]; simpl in Hin;
      in_cases Hin; by subst.
  - intros r Hin. destruct Hout as [->|[ip ->]]; simpl in Hin;
      in_cases Hin; try discriminate; by simplify_eq.
Qed.

Lemma game_command_chain_witness :
  ∃ said bot result color,
    let m1 := commandLine sampleEnv (connOf sidB bob) roomState bob said in
    let m2 := resultLine sampleEnv bot result color in
    (∀ name, bot ≠ Person name)
    ∧ sendMessage sampleEnv (connOf sidB bob) (u16 "/dice") None roomState
      = (set_messages [m1; m2] roomState,
         [Store (DbAddMessage m1); ToAll (PMessage m1);
          Store (DbAddMessage m2); ToAll (PMessage m2); Callback ReplyOk]).
Proof.
  destruct (game_command_chain sampleEnv (connOf sidB bob) (u16 "/dice") None
              roomState roomState bob CDice)
    as (said & bot & result & color & Hchain); try reflexivity.
  cbv zeta in Hchain. destruct Hchain as (Hbot & _ & _ & Hok).
  exists said, bot, result, color. cbv zeta. split; [exact Hbot|].
  rewrite Hok; reflexivity.
Defined.

Lemma delete_empties_ring_witness :
  let run := sendMessage sampleEnv (connOf sidM moderator) (u16 "/delete")
               None fullRoom in
  fst run = set_messages [] fullRoom
  ∧ snd run = [Store DbDeleteAllMessages; ToAll PAllMessagesDeleted;
               ToAll (PSystemMessage NAllDeleted); Callback ReplyOk].
Proof.
  pose proof (delete_empties_ring sampleEnv (connOf sidM moderator)
                (u16 "/delete") None fullRoom fullRoom moderator
                eq_refl eq_refl eq_refl eq_refl) as Hrun.
  cbv zeta in Hrun. destruct Hrun as [_ Hrun].
  destruct Hrun as (Hring & Hok & _).
  - apply (bool_decide_unpack (sidM ∈ adminUsers fullRoom)).
    vm_compute. exact I.
  - split; [exact Hring | by apply Hok].
Defined.

Lemma refused_command_reports_success_witness :
  let run := sendMessage sampleEnv (connOf sidB bob) (u16 "/ban alice") None
               roomState in
  fst run = roomState
  ∧ (∃ asked, snd run = asked ++ [ToSocket sidB (PSystemMessage NAdminOnly);
                                  Callback ReplyOk]
              ∧ (asked = [] ∨ ∃ ip, asked = [Store (DbRemoveIpBan ip)]))
  ∧ sentOnlyTo sidB (snd run)
  ∧ ∀ r, Callback r ∈ snd run → isFailure r = false.
Proof.
  apply (refused_command_reports_success sampleEnv (connOf sidB bob)
           (u16 "/ban alice") None roomState roomState roomState bob
           NAdminOnly []).
  - reflexivity.
  - reflexivity.
  - reflexivity.
  - vm_compute. reflexivity.
Defined.

(** ** Deleting one message *)

Section SpliceFacts.
Implicit Types (ms : list Message) (id : JsString).

Lemma findIndex_None id ms :
  findIndex id ms = None ↔ id ∉ map msg_id ms.
Proof.
  induction ms as [|m ms IH]; simpl.
  - split; [intros _; apply not_elem_of_nil | done].
  - rewrite not_elem_of_cons. destruct (decide (msg_id m = id)) as [He|Hne].
    + split; [done | intros [Hx _]; by destruct Hx].
    + destruct (findIndex id ms); split; try done.
      * intros [_ Hx]. by apply IH in Hx.
      * intros _. split; [congruence | by apply IH].
Qed.

Lemma findIndex_Some id ms i :
  findIndex id ms = Some i →
  ∃ m, ms !! i = Some m ∧ msg_id m = id
       ∧ id ∉ map msg_id (take i ms).
Proof.
  revert i. induction ms as [|m ms IH]; intros i; simpl; [done|].
  destruct (decide (msg_id m = id)) as [He|Hne].
  - intros [= <-]. exists m. simpl. split_and!; try done.
    apply not_elem_of_nil.
  - destruct (findIndex id ms) as [j|]; [|done]. intros [= <-].
    destruct (IH j eq_refl) as (m' & Hl & Hid & Hbefore).
    exists m'. simpl. split_and!; try done.
    apply not_elem_of_cons. split; [congruence | done].
Qed.

Lemma splice1_split ms i m :
  ms !! i = Some m → ms = take i ms ++ m :: drop (S i) ms.
Proof.
  intros Hl. rewrite <- (take_drop_middle ms i m Hl) at 1. reflexivity.
Qed.

End SpliceFacts.

Lemma othersThan_app id a b :
  othersThan id (a ++ b) = othersThan id a ++ othersThan id b.
Proof. apply List.filter_app. Qed.

Lemma spliceFirst_spec (id : JsString) (ms : list Message) :
  othersThan id (spliceFirst id ms) = othersThan id ms
  ∧ (id ∈ map msg_id ms →
     ∃ before m after,
       ms = before ++ m :: after ∧ msg_id m = id
       ∧ (id ∉ map msg_id before) ∧ spliceFirst id ms = before ++ after)
  ∧ (id ∉ map msg_id ms → spliceFirst id ms = ms)
  ∧ (NoDup (map msg_id ms) → id ∉ map msg_id (spliceFirst id ms)).
Proof.
  unfold spliceFirst. destruct (findIndex id ms) as [i|] eqn:Hf.
  - destruct (findIndex_Some id ms i Hf) as (m & Hl & Hid & Hbefore).
    pose proof (splice1_split ms i m Hl) as Hsplit.
    unfold splice1. split_and!.
    + rewrite Hsplit at 3. rewrite !othersThan_app. simpl.
      rewrite bool_decide_eq_true_2 by done. reflexivity.
    + intros _. exists (take i ms), m, (drop (S i) ms). by split_and!.
    + intros Hno. apply findIndex_None in Hno. congruence.
    + intros Hnd. rewrite Hsplit in Hnd. rewrite map_app in Hnd. simpl in Hnd.
      apply NoDup_app in Hnd as (_ & Hdisj & Hnd).
      apply NoDup_cons in Hnd as [Hafter _]. rewrite Hid in Hafter.
      rewrite map_app. intros [Hin|Hin]%elem_of_app; [by apply Hbefore|].
      by apply Hafter.
  - apply findIndex_None in Hf. by split_and!.
Qed.

Lemma deleteMessage_shape (env : Env) (store : DeleteStore) (conn : Conn)
    (id : JsString) (hasCallback : bool) (st : State) :
  let '(_, st', out) := deleteMessage env store conn id hasCallback st in
  (st' = st ∧ (EmitMessageDeleted id ∉ out)
   ∧ ¬ (∃ user, loggedIn conn = Some user
          ∧ deleteRejects store (DbGetPrivateMessageById id) = false
          ∧ privateMessageFound store = false
          ∧ deleteRejects store
              (DbDeleteMessage id
                 (shownName (bool_decide (socket_id conn ∈ adminUsers st)) user)
                 (isPrivileged env user)) = false
          ∧ deleteSuccess store = true))
  ∨ (sameButMessages st' st
     ∧ messages st' = spliceFirst id (messages st)
     ∧ EmitMessageDeleted id ∈ out
     ∧ ∃ user, loggedIn conn = Some user
          ∧ deleteRejects store (DbGetPrivateMessageById id) = false
          ∧ privateMessageFound store = false
          ∧ deleteRejects store
              (DbDeleteMessage id
                 (shownName (bool_decide (socket_id conn ∈ adminUsers st)) user)
                 (isPrivileged env user)) = false
          ∧ deleteSuccess store = true).
Proof.
  unfold deleteMessage.
  destruct (loggedIn conn) as [user|] eqn:Hu.
  2:{ left. split_and!; [done|apply not_elem_of_nil|].
      by intros (? & [=] & _). }
  destruct (deleteRejects store (DbGetPrivateMessageById id)) eqn:Hg.
  { left. split_and!; [done| |by intros (? & _ & [=] & _)].
    intros Hin. in_cases Hin; discriminate. }
  destruct (privateMessageFound store) eqn:Hp.
  { destruct (deleteRejects store (DbDeletePrivateMessage _ _)).
    { left. split_and!; [done| |by intros (? & _ & _ & [=] & _)].
      intros Hin. in_cases Hin; discriminate. }
    destruct (deletePrivateSuccess store), hasCallback; simpl;
      left; (split_and!; [done| |by intros (? & _ & _ & [=] & _)]);
      intros Hin; in_cases Hin; discriminate. }
  destruct (deleteRejects store (DbDeleteMessage _ _ _)) eqn:Hd.
  { left. split_and!; [done| |].
    - intros Hin. in_cases Hin; discriminate.
    - intros (u & [= <-] & _ & _ & Hd' & _). congruence. }
  destruct (deleteSuccess store) eqn:Hs; simpl.
  2:{ destruct hasCallback; left; (split_and!; [done| |]);
        try (intros Hin; in_cases Hin; discriminate);
        by intros (? & _ & _ & _ & _ & [=]). }
  assert (Hst : ∀ st',
    st' = match findIndex id (messages st) with
          | Some msgIndex => set_messages (splice1 msgIndex (messages st)) st
          | None => st
          end →
    sameButMessages st' st ∧ messages st' = spliceFirst id (messages st)).
  { intros st' ->. unfold spliceFirst.
    destruct (findIndex id (messages st)); split; try done;
      by unfold sameButMessages. }
  destruct hasCallback; right;
    (destruct (Hst _ eq_refl) as [Hsame Hring];
     split; [exact Hsame|]; split; [exact Hring|]; split;
     [do 2 apply list_elem_of_further; apply list_elem_of_here
     |exists user; by split_and!]).
Qed.

(** X24. [deleteMessage] changes nothing of the in-memory state but the
    ring, and of the ring at most one message: the first one with the given
    id, all others staying in order. The ring is touched exactly in the
    runs that announce [messageDeleted]: the sender is logged in, the store
    finds no private message with that id, agrees to the deletion and
    rejects no call; whether the client passed a callback plays no part,
    and the server makes no authorship check of its own. When the ring
    holds no message with the id, the announcement is made all the same;
    when its ids are distinct, the id is gone afterwards. *)
Theorem deleteMessage_ring (env : Env) (store : DeleteStore) (conn : Conn)
    (id : JsString) (hasCallback : bool) (st : State) :
  let '(_, st', out) := deleteMessage env store conn id hasCallback st in
  sameButMessages st' st
  ∧ othersThan id (messages st') = othersThan id (messages st)
  ∧ ((EmitMessageDeleted id ∉ out) → messages st' = messages st)
  ∧ (EmitMessageDeleted id ∈ out ↔
     (∃ user, loggedIn conn = Some user
        ∧ deleteRejects store (DbGetPrivateMessageById id) = false
        ∧ privateMessageFound store = false
        ∧ deleteRejects store
            (DbDeleteMessage id
               (shownName (bool_decide (socket_id conn ∈ adminUsers st)) user)
               (isPrivileged env user)) = false
        ∧ deleteSuccess store = true))
  ∧ (EmitMessageDeleted id ∈ out →
     (id ∈ map msg_id (messages st) →
      ∃ before m after,
        messages st = before ++ m :: after ∧ msg_id m = id
        ∧ (id ∉ map msg_id before) ∧ messages st' = before ++ after)
     ∧ (id ∉ map msg_id (messages st) → messages st' = messages st)
     ∧ (NoDup (map msg_id (messages st)) → id ∉ map msg_id (messages st'))).
Proof.
  pose proof (deleteMessage_shape env store conn id hasCallback st) as Hshape.
  destruct (deleteMessage env store conn id hasCallback st) as [[o st'] out].
  pose proof (spliceFirst_spec id (messages st)) as (Hoth & Hin & Hout & Hnd).
  destruct Hshape as [(-> & Hno & Hcond)|(Hsame & Hring & Hyes & Hcond)].
  - by split_and!.
  - rewrite Hring. split; [done|]. split; [done|].
    split; [by intros Hx|]. split; [by split|]. intros _. by split_and!.
Qed.

(** ** Presence after a second login *)

Lemma play_login (conns : gmap JsString Conn) (st : State)
    (sid name : JsString) :
  name ∉ bannedUsers st →
  socket_id (connAt conns sid) = sid →
  let room := playEvent (conns, st) (Login sid name) in
  connAt (fst room) sid
  = {| socket_id := sid; currentUser := Some name;
       currentAccount := Some (accountOf name) |}
  ∧ userSockets (snd room) = addUserSocket name sid (userSockets st)
  ∧ bannedUsers (snd room) = bannedUsers st.
Proof.
  intros Hfree Hsid. unfold playEvent.
  rewrite (tokenLogin_success (envFor name) (connAt conns sid) (u16 "token")
             st (accountOf name) eq_refl eq_refl eq_refl Hfree).
  pose proof (completeLogin_fields (envFor name) (connAt conns sid)
                (accountOf name) NTokenFailed st eq_refl) as Hf.
  destruct (completeLogin _ _ _ _ _) as [[conn' st'] out].
  destruct Hf as (-> & _ & _ & Hus & _ & _ & _ & Hb & _).
  simpl. unfold connAt at 1. rewrite lookup_insert_eq. simpl.
  rewrite Hsid in *. done.
Qed.

(** C2. The claim fails on the code for a socket that logs in a second
    time under another name and then disconnects or logs out: no
    connection of any identity is open any more, the second identity is
    unregistered, but the first is still listed online, with the id of
    that socket in its set. A login adds the socket to the new identity
    and never removes it from the one the socket was logged in as, and the
    disconnect and the logout remove it under the current identity
    only. *)
Theorem presence_outlives_connection (sid first second : JsString)
    (last : SessionEvent) :
  first ≠ second →
  truthy second = true →
  last = Close sid ∨ last = Logout sid →
  let evs := [Login sid first; Login sid second; last] in
  let st := snd (play evs) in
  (∀ identity, spec_hasOpenConnection evs identity = false)
  ∧ first ∈ getUniqueOnlineUsers (userSockets st)
  ∧ oget first (userSockets st) = Some [sid]
  ∧ oget second (userSockets st) = None.
Proof.
  intros Hne Htruthy Hlast evs st.
  assert (Hregs : oget first (userSockets st) = Some [sid]
                  ∧ oget second (userSockets st) = None).
  2:{ destruct Hregs as [Hfirst Hsecond]. split_and!; try done.
      - intros identity. unfold evs, spec_hasOpenConnection.
        destruct Hlast as [-> | ->]; simpl;
          rewrite decide_True by done; by rewrite bool_decide_eq_false_2.
      - unfold getUniqueOnlineUsers. rewrite elem_of_okeys. eauto. }
  unfold st, evs, play. cbn [fold_left].
  destruct (play_login ∅ emptyState sid first) as (Hc1 & Hus1 & Hb1);
    [apply not_elem_of_empty | by unfold connAt; rewrite lookup_empty|].
  destruct (playEvent (∅, emptyState) (Login sid first)) as [conns1 st1].
  simpl in Hc1, Hus1, Hb1.
  destruct (play_login conns1 st1 sid second) as (Hc2 & Hus2 & Hb2);
    [rewrite Hb1; apply not_elem_of_empty | by rewrite Hc1|].
  destruct (playEvent (conns1, st1) (Login sid second)) as [conns2 st2].
  simpl in Hc2, Hus2, Hb2.
  pose proof (leaveRoom_unregisters sampleEnv (connAt conns2 sid) st2 second)
    as Hleave.
  assert (Hst3 : userSockets (snd (playEvent (conns2, st2) last))
                 = fst (removeUserSocket second sid (userSockets st2))).
  { destruct Hlast as [-> | ->]; unfold playEvent, disconnect, accountLogout;
      rewrite Hc2 in *;
      destruct (leaveRoom sampleEnv _ st2) as [[c3 st3] out3]; simpl in *;
      apply Hleave; unfold loggedIn; simpl; by rewrite Htruthy. }
  rewrite Hst3.
  rewrite !oget_removeUserSocket, Hus2, !oget_addUserSocket, Hus1,
    !oget_addUserSocket.
  assert (Hone : sadd sid (@nil JsString) = [sid]).
  { unfold sadd, shas. rewrite bool_decide_eq_false_2; [done|].
    apply not_elem_of_nil. }
  split; repeat (case_decide; simplify_eq /=); by rewrite ?Hone.
Qed.

Lemma presence_outlives_connection_witness :
  let evs := [Login sidB0 bob; Login sidB0 carol; Close sidB0] in
  let st := snd (play evs) in
  (∀ identity, spec_hasOpenConnection evs identity = false)
  ∧ bob ∈ getUniqueOnlineUsers (userSockets st)
  ∧ oget bob (userSockets st) = Some [sidB0]
  ∧ oget carol (userSockets st) = None.
Proof.
  apply (presence_outlives_connection sidB0 bob carol (Close sidB0)).
  - vm_compute. congruence.
  - reflexivity.
  - by left.
Defined.

(** Without a second login on a socket the two agree: on a run where
    [bob] uses two sockets and [alice] one, and [bob] closes one of his and
    [alice] hers, [bob] alone has an open connection and [bob] alone is
    listed. *)
Example sessions_example :
  let evs := [Login sidB bob; Login sidA alice; Login sidB0 bob; Close sidB;
              Close sidA] in
  spec_hasOpenConnection evs bob = true
  ∧ spec_hasOpenConnection evs alice = false
  ∧ spec_identityOf (rev evs) sidB0 = Some bob
  ∧ spec_identityOf (rev evs) sidB = None
  ∧ getUniqueOnlineUsers (userSockets (snd (play evs))) = [bob]
  ∧ oget bob (userSockets (snd (play evs))) = Some [sidB0]
  ∧ spec_hasOpenConnection [Login sidB bob; Logout sidB] bob = false
  ∧ getUniqueOnlineUsers
      (userSockets (snd (play [Login sidB bob; Logout sidB]))) = [].
Proof. vm_compute. by split_and!. Qed.

Lemma prm_to_closed_recipient_witness :
  spec_hasOpenConnection
    [Login sidB0 bob; Login sidB0 carol; Close sidB0; Login sidA alice] bob
  = false
  ∧ ∃ out,
      processCommand sampleEnv (u16 "/prm bob hello") alice sidA false
        afterRelogin
      = (Returned (Some (ResPrivate (NPrmSent bob))), afterRelogin, out)
      ∧ Store (DbAddPrivateMessage
                 {| pm_id := prmId sampleEnv; pm_from := alice; pm_to := bob;
                    pm_message := u16 "hello"; pm_color := black;
                    pm_timestamp := prmTimestamp sampleEnv |}) ∈ out
      ∧ ToSocket sidA
          (PPrivateMessageSent (prmId sampleEnv) bob (u16 "hello")
             (prmTimestamp sampleEnv)) ∈ out
      ∧ (∀ sid delivered, ToSocket sid (PPrivateMessage delivered) ∉ out).
Proof.
  split; [reflexivity|].
  apply (prm_to_closed_recipient sampleEnv (u16 "/prm bob hello") alice sidA
           false afterRelogin bob (u16 "hello") [] [sidB0]).
  - reflexivity.
  - reflexivity.
  - vm_compute. congruence.
  - vm_compute. reflexivity.
  - intros sid Hin%list_elem_of_singleton. subst sid.
    apply (bool_decide_unpack (sidB0 ∉ sockets sampleEnv)).
    vm_compute. exact I.
  - reflexivity.
Defined.

(** ** What a sender without privilege can do *)

Lemma checkMuted_others (env : Env) (user : JsString) (st st1 : State)
    (r : MuteCheck) :
  checkMuted env user st = (r, st1) →
  ∀ other, other ≠ user → mutedUsers st1 !! other = mutedUsers st !! other.
Proof.
  unfold checkMuted. destruct (mutedUsers st !! user); [|by intros [= _ <-]].
  destruct (_ <? _); intros [= _ <-]; [done|].
  intros other Hne. simpl. by rewrite lookup_delete_ne.
Qed.

(** X5. A line from a logged-in sender whose socket lacks the admin flag
    and whose name is not privileged cannot moderate, whatever the line.
    The registry, [onlineUsers], the admin flags, the ban set and the
    status and address caches are unchanged; of the mute map and of
    [users] only what is stored under the sender's own name can change
    (the own entry, or the color on the object that [Object.prototype]
    answers for that name); the ring only grows, by at most two messages
    pushed under the cap rule.
    No socket is closed, and what reaches the outside is a room message
    persisted and broadcast, a private message with its copies, a color
    update, notices, and the callback. *)
Theorem plain_user_cannot_moderate (env : Env) (conn : Conn)
    (message : JsString) (replyTo : option JsString) (st : State)
    (user : JsString) :
  loggedIn conn = Some user →
  socket_id conn ∉ adminUsers st →
  isPrivileged env user = false →
  let run := sendMessage env conn message replyTo st in
  samePresenceAndBans (fst run) st
  ∧ (∀ other, other ≠ user →
       mutedUsers (fst run) !! other = mutedUsers st !! other
       ∧ own (users (fst run)) !! other = own (users st) !! other
       ∧ builtinColor (users (fst run)) !! other
         = builtinColor (users st) !! other)
  ∧ (∃ added,
       (length added ≤ 2)%nat
       ∧ messages (fst run)
         = fold_left (fun ring m => pushMessage (MAX_HISTORY env) m ring)
             added (messages st))
  ∧ (∀ e, e ∈ snd run → plainSenderEffect e = true).
Proof.
  intros Hu Hflag Hp run. unfold run, sendMessage. rewrite Hu.
  destruct (checkMuted env user st) as [r st1] eqn:Hm.
  pose proof (checkMuted_fields env user st st1 r Hm)
    as (Husers & Hmsg & Hon & Hus & Hadm & Hban & Hstat & Hip).
  pose proof (checkMuted_others env user st st1 r Hm) as Hmute.
  assert (Hbase : samePresenceAndBans st1 st) by (by unfold samePresenceAndBans).
  destruct r as [remaining|].
  { simpl. split; [done|]. split; [intros other Hne; by rewrite Hmute, Husers|].
    split; [exists []; split; [simpl; lia|by rewrite Hmsg]|].
    intros e Hin. in_cases Hin; by subst. }
  assert (Hplain : ∀ s0 before,
    samePresenceAndBans s0 st →
    (∀ other, other ≠ user →
       mutedUsers s0 !! other = mutedUsers st !! other
       ∧ own (users s0) !! other = own (users st) !! other
       ∧ builtinColor (users s0) !! other = builtinColor (users st) !! other) →
    messages s0 = messages st →
    (∀ e, e ∈ before → plainSenderEffect e = true) →
    ∀ m,
    let run :=
      (let '(o, st', out) := addMessageToStorage env m s0 in
       match o with
       | Threw => (st', before ++ out ++ [Callback (ReplyError NSendError)])
       | Returned _ =>
           (st', before ++ out ++ [ToAll (PMessage m);
                                   Callback (ReplyOkId (msg_id m))])
       end) in
    samePresenceAndBans (fst run) st
    ∧ (∀ other, other ≠ user →
         mutedUsers (fst run) !! other = mutedUsers st !! other
         ∧ own (users (fst run)) !! other = own (users st) !! other
         ∧ builtinColor (users (fst run)) !! other
           = builtinColor (users st) !! other)
    ∧ (∃ added,
         (length added ≤ 2)%nat
         ∧ messages (fst run)
           = fold_left (fun ring m => pushMessage (MAX_HISTORY env) m ring)
               added (messages st))
    ∧ (∀ e, e ∈ snd run → plainSenderEffect e = true)).
  { intros s0 before Hs0 Ho0 Hm0 Hb0 m.
    destruct (addMessageToStorage_shape env m s0) as [o ->].
    destruct o; simpl; (split; [done|]); (split; [done|]);
      (split; [exists [m]; simpl; split; [lia|by rewrite Hm0]|]);
      intros e Hin; (apply elem_of_app in Hin as [Hin|Hin]; [by apply Hb0|]);
      in_cases Hin; by subst. }
  destruct (startsWith message (u16 "/")).
  2:{ apply Hplain; try done.
      - intros other Hne. by rewrite Hmute, Husers.
      - by intros e ?%elem_of_nil. }
  rewrite (bool_decide_eq_false_2 _ Hflag).
  destruct (processCommand env message user (socket_id conn) false st1)
    as [[o st2] out] eqn:Hrun.
  destruct (processCommand_plain env message user (socket_id conn) st1 st2 o
              out Hp Hrun) as (Hsame & Hown & Hout).
  destruct Hsame as (Hmsg2 & Hon2 & Hus2 & Hadm2 & Hmut2 & Hban2 & Hstat2 & Hip2).
  assert (Hbase2 : samePresenceAndBans st2 st).
  { unfold samePresenceAndBans. by rewrite Hon2, Hus2, Hadm2, Hban2, Hstat2, Hip2. }
  assert (Hothers2 : ∀ other, other ≠ user →
       mutedUsers st2 !! other = mutedUsers st !! other
       ∧ own (users st2) !! other = own (users st) !! other
       ∧ builtinColor (users st2) !! other = builtinColor (users st) !! other).
  { intros other Hne. destruct (Hown other Hne) as [-> ->].
    by rewrite Hmut2, Hmute, Husers. }
  assert (Hmsgs2 : messages st2 = messages st) by (by rewrite Hmsg2).
  assert (Hout' : ∀ e, e ∈ out → plainSenderEffect e = true).
  { intros e Hin. unfold plainSenderEffect. by rewrite (Hout e Hin). }
  destruct o as [[res|]|].
  - destruct res as [n|n|n|um rs rm rc]; simpl.
    1-3: (split; [done|]; split; [done|];
          split; [exists []; split; [simpl; lia|done]|];
          intros e Hin; apply elem_of_app in Hin as [Hin|Hin];
          [by apply Hout'|in_cases Hin; by subst]).
    set (m1 := {| msg_id := msgId env |}).
    set (m2 := {| msg_id := resultId env |}).
    destruct (addMessageToStorage_shape env m1 st2) as [o1 ->].
    destruct o1; simpl.
    + destruct (addMessageToStorage_shape env m2
                  (set_messages (pushMessage (MAX_HISTORY env) m1
                                   (messages st2)) st2)) as [o2 ->].
      destruct o2; simpl; (split; [done|]); (split; [done|]);
        (split; [exists [m1; m2]; simpl; split; [lia|by rewrite Hmsgs2]|]);
        intros e Hin; (apply elem_of_app in Hin as [Hin|Hin];
                       [by apply Hout'|]); in_cases Hin; by subst.
    + split; [done|]. split; [done|].
      split; [exists [m1]; simpl; split; [lia|by rewrite Hmsgs2]|].
      intros e Hin. apply elem_of_app in Hin as [Hin|Hin];
        [by apply Hout'|]. in_cases Hin; by subst.
  - by apply Hplain.
  - simpl. split; [done|]. split; [done|]. split; [exists []; split; [simpl; lia|done]|].
    intros e Hin. apply elem_of_app in Hin as [Hin|Hin];
      [by apply Hout'|in_cases Hin; by subst].
Qed.

Lemma plain_user_cannot_moderate_witness :
  let run := sendMessage sampleEnv (connOf sidA alice) (u16 "/ban bob") None
               roomState in
  samePresenceAndBans (fst run) roomState
  ∧ (∀ e, e ∈ snd run → plainSenderEffect e = true).
Proof.
  intros run.
  destruct (plain_user_cannot_moderate sampleEnv (connOf sidA alice)
              (u16 "/ban bob") None roomState alice)
    as (Hsame & _ & _ & Hout); try reflexivity.
  - simpl. intros Hin%elem_of_singleton. revert Hin. vm_compute. congruence.
  - done.
Defined.
